(** * Conclave SFU control plane: admission, moderation, drain, minutes
    and transcript de-duplication

  A shallow embedding of the operator HTTP surface
  ([packages/sfu/server/http/createApp.ts]), the administrator socket
  handlers ([packages/sfu/server/socket/handlers/adminHandlers.ts]), the
  control-plane helpers ([server/admin/controlPlane.ts]) and the room
  transcriber ([server/recording/roomTranscriber.ts]).

  JavaScript [Map]s and [Set]s whose iteration order is observable are
  lists in insertion order; the three access sets of a room, which are
  only tested for membership, are [gset string].  Everything a handler
  sends (socket emits, channel broadcasts, disconnects, timers) is
  recorded, in program order, in a list of [Effect]s. *)

From Stdlib Require Import ZArith List String Ascii Lia.
From Stdlib Require QArith Qround.
From stdpp Require Import base gmap sets list strings sorting.

Set Warnings "-clear-no-such-hyp".

Local Open Scope string_scope.
Local Open Scope list_scope.
Local Open Scope Z_scope.

(* ===================================================================== *)
(** ** JavaScript values used by the handlers *)
(* ===================================================================== *)

Module Js.

(** Code units that [String.prototype.trim] and the regular expression
    class [\s] treat as white space, for code units below 256 (TAB, LF,
    VT, FF, CR, SPACE and NO-BREAK SPACE). *)
Definition isWhiteSpace (c : ascii) : bool :=
  let n := nat_of_ascii c in
  (((9 <=? n)%nat && (n <=? 13)%nat) || (n =? 32)%nat || (n =? 160)%nat)%bool.

Fixpoint trimStart (s : string) : string :=
  match s with
  | EmptyString => EmptyString
  | String c rest => if isWhiteSpace c then trimStart rest else s
  end.

Fixpoint trimEnd (s : string) : string :=
  match s with
  | EmptyString => EmptyString
  | String c rest =>
      match trimEnd rest with
      | EmptyString =>
          if isWhiteSpace c then EmptyString else String c EmptyString
      | t => String c t
      end
  end.

(** [s.trim()] *)
Definition trim (s : string) : string := trimEnd (trimStart s).

(** [s.replace(/\s+/g, " ")]: every maximal run of white space becomes
    one SPACE.  [inRun] tells that the previous code unit was white
    space. *)
Fixpoint collapseRuns (inRun : bool) (s : string) : string :=
  match s with
  | EmptyString => EmptyString
  | String c rest =>
      if isWhiteSpace c then
        if inRun then collapseRuns true rest
        else String " "%char (collapseRuns true rest)
      else String c (collapseRuns false rest)
  end.

Definition collapseWhitespace (s : string) : string := collapseRuns false s.

(** A JavaScript number: every finite double is a rational. *)
Inductive Number :=
| Finite (q : QArith_base.Q)
| NaN
| PosInfinity
| NegInfinity.

(** A parsed request body or socket payload. *)
Local Unset Elimination Schemes.
Inductive Json :=
| JUndefined
| JNull
| JBool (b : bool)
| JNum (n : Number)
| JStr (s : string)
| JArr (items : list Json)
| JObj (fields : list (string * Json)).
Local Set Elimination Schemes.

Fixpoint assoc {A} (k : string) (l : list (string * A)) : option A :=
  match l with
  | [] => None
  | (k', v) :: rest => if decide (k' = k) then Some v else assoc k rest
  end.

(** [value?.name]: a property read that yields [undefined] on anything
    but an object that has the property. *)
Definition getField (name : string) (value : Json) : Json :=
  match value with
  | JObj fields => default JUndefined (assoc name fields)
  | _ => JUndefined
  end.

(** [a ?? b] *)
Definition nullish (a b : Json) : Json :=
  match a with
  | JUndefined | JNull => b
  | _ => a
  end.

(** [Boolean(value)] *)
Definition truthy (value : Json) : bool :=
  match value with
  | JUndefined | JNull => false
  | JBool b => b
  | JNum (Finite q) => negb (QArith_base.Qeq_bool q (QArith_base.Qmake 0 1))
  | JNum NaN => false
  | JNum _ => true
  | JStr s => negb (bool_decide (s = ""))
  | JArr _ | JObj _ => true
  end.

(** [typeof value === "string" ? value.trim() : ""] *)
Definition toStringOrEmpty (value : Json) : string :=
  match value with
  | JStr s => trim s
  | _ => ""
  end.

(** [Array.from(new Set(keys))]: first occurrences, in order. *)
Fixpoint dedupe (seen : list string) (keys : list string) : list string :=
  match keys with
  | [] => []
  | k :: rest =>
      if bool_decide (k ∈ seen) then dedupe seen rest
      else k :: dedupe (k :: seen) rest
  end.

End Js.

(* ===================================================================== *)
(** ** Room transcriber: [RoomTranscriber.appendTranscript] *)
(* ===================================================================== *)

Module Transcriber.

(** [TranscriptChunk]; the millisecond stamps are integers (they come
    from [Date.now()] and [Math.round]). *)
Record TranscriptChunk := mkChunk {
  startMs : Z;
  endMs : Z;
  text : string;
  speaker : option string;
}.

#[global] Instance chunk_eq_dec : EqDecision TranscriptChunk.
Proof. solve_decision. Defined.

(** [chunk.text.replace(/\s+/g, " ").trim()] *)
Definition normalizeText (raw : string) : string :=
  Js.trim (Js.collapseWhitespace raw).

(** [speaker || ""] *)
Definition speakerOrEmpty (s : option string) : string := default "" s.

(** The test of the [if] in [appendTranscript], on the last stored chunk. *)
Definition isDuplicate (last : TranscriptChunk) (norm : string)
    (chunk : TranscriptChunk) : bool :=
  bool_decide (text last = norm)
  && bool_decide (Z.abs (endMs last - endMs chunk) < 1500)
  && bool_decide (speakerOrEmpty (speaker last)
                  = speakerOrEmpty (speaker chunk)).

(** [appendTranscript(chunk)], on the [transcript] array. *)
Definition appendTranscript (transcript : list TranscriptChunk)
    (chunk : TranscriptChunk) : list TranscriptChunk :=
  let norm := normalizeText (text chunk) in
  if bool_decide (norm = "") then transcript
  else
    match last transcript with
    | Some l =>
        if isDuplicate l norm chunk then transcript
        else transcript ++
             [mkChunk (startMs chunk) (endMs chunk) norm (speaker chunk)]
    | None =>
        transcript ++
        [mkChunk (startMs chunk) (endMs chunk) norm (speaker chunk)]
    end.

(** [getTranscript()] *)
Definition getTranscript (transcript : list TranscriptChunk)
    : list TranscriptChunk :=
  filter (fun c => Js.trim (text c) ≠ "") transcript.

(** The state of a transcriber that [stop()] reads and writes. *)
Record State := mkState {
  transcript : list TranscriptChunk;
  lastPartialText : string;
  producerId : option string;
  stopped : bool;
}.

(** The transcript part of [stop()], at wall-clock time [now]. *)
Definition stop (now : Z) (st : State) : State :=
  if stopped st then st
  else if bool_decide (lastPartialText st = "") then
    mkState (transcript st) "" None true
  else
    mkState
      (appendTranscript (transcript st)
         (mkChunk now now (lastPartialText st)
            (Some (match producerId st with
                   | Some p => if bool_decide (p = "") then "unknown" else p
                   | None => "unknown"
                   end))))
      "" None true.

End Transcriber.


(* ===================================================================== *)
(** ** What a handler sends *)
(* ===================================================================== *)

(** A socket is known by its id: two handles are the same object exactly
    when the ids are equal. *)
Definition SocketId := string.

Inductive Effect :=
| SocketEmit (socket : SocketId) (event : string) (payload : Js.Json)
    (** [socket.emit(event, payload)] *)
| ChannelEmit (channelId : string) (event : string) (payload : Js.Json)
    (** [io.to(channelId).emit(event, payload)] *)
| SocketDisconnect (socket : SocketId)
    (** [socket.disconnect(true)] *)
| ChannelDisconnect (channelId : string)
    (** [io.in(channelId).disconnectSockets(true)] *)
| Sleep (ms : Z)
    (** [await new Promise(resolve => setTimeout(resolve, ms))] *)
| WebinarFeedChanged (channelId : string)
    (** [emitWebinarFeedChanged(io, state, room)]: the function
        ([server/webinarNotifications.ts]) is not among the sources; a call
        is recorded as one event of its own. *).

Definition jstr (s : string) : Js.Json := Js.JStr s.
Definition jnum (n : Z) : Js.Json :=
  Js.JNum (Js.Finite (QArith_base.inject_Z n)).
Definition jnat (n : nat) : Js.Json := jnum (Z.of_nat n).
Definition jstrs (l : list string) : Js.Json := Js.JArr (map jstr l).

(* ===================================================================== *)
(** ** Participants, pending entries and rooms *)
(* ===================================================================== *)

Inductive MediaKind := audio | video.
Inductive ProducerType := webcam | screen.

#[global] Instance MediaKind_eq_dec : EqDecision MediaKind.
Proof. solve_decision. Defined.
#[global] Instance ProducerType_eq_dec : EqDecision ProducerType.
Proof. solve_decision. Defined.

Definition kindName (k : MediaKind) : string :=
  match k with audio => "audio" | video => "video" end.
Definition typeName (t : ProducerType) : string :=
  match t with webcam => "webcam" | screen => "screen" end.

(** One element of [client.getProducerInfos()]. *)
Record ProducerInfo := mkProducerInfo {
  producerId : string;
  kind : MediaKind;
  type : ProducerType;
  paused : bool;
}.

#[global] Instance ProducerInfo_eq_dec : EqDecision ProducerInfo.
Proof. solve_decision. Defined.

Module Client.

(** Modelled from the spec: the class [Client] ([config/classes/Client.ts])
    and its subclass [Admin] are not among the sources.  A participant has
    a [userId], a socket handle, the role test [client instanceof Admin],
    the two watch-only modes, and a map of producers keyed by
    [(kind, type)], here the list of its entries. *)
Record t := mk {
  id : string;
  socket : SocketId;
  isAdmin : bool;
  isGhost : bool;
  isWebinarAttendee : bool;
  producers : list ProducerInfo;
}.

#[global] Instance eq_dec : EqDecision t.
Proof. solve_decision. Defined.

Definition withProducers (ps : list ProducerInfo) (c : t) : t :=
  mk (id c) (socket c) (isAdmin c) (isGhost c) (isWebinarAttendee c) ps.

(** [client.getProducerInfos()] *)
Definition getProducerInfos (c : t) : list ProducerInfo := producers c.

(** The entries left once the first producer with id [pid] is taken out,
    together with that producer. *)
Fixpoint takeProducer (pid : string) (ps : list ProducerInfo)
    : option (ProducerInfo * list ProducerInfo) :=
  match ps with
  | [] => None
  | p :: rest =>
      if decide (producerId p = pid) then Some (p, rest)
      else match takeProducer pid rest with
           | Some (found, rest') => Some (found, p :: rest')
           | None => None
           end
  end.

(** Modelled from the spec: [client.removeProducerById(producerId)] locates
    the producer entry with that id, removes it, and reports its kind and
    type; [null] when the client has no such producer. *)
Definition removeProducerById (pid : string) (c : t)
    : option (ProducerInfo * t) :=
  match takeProducer pid (producers c) with
  | Some (found, rest) => Some (found, withProducers rest c)
  | None => None
  end.

End Client.

Module Pending.

(** A waiting-room entry, keyed by [userKey] in [room.pendingClients]. *)
Record t := mk {
  userKey : string;
  userId : string;
  socket : SocketId;
  displayName : option string;
}.

#[global] Instance eq_dec : EqDecision t.
Proof. solve_decision. Defined.

(** [pending.displayName || pending.userKey] *)
Definition label (p : t) : string :=
  match displayName p with
  | Some n => if decide (n = "") then userKey p else n
  | None => userKey p
  end.

End Pending.

Module Room.

(** Modelled from the spec: the class [Room] ([config/classes/Room.ts]) is
    not among the sources.  The fields are the ones the handlers read and
    write.  [clients] holds the values of the map [userId -> Client] and
    [pendingClients] the values of the map [userKey -> pending entry], both
    in insertion order; [userKeysById] is the back-lookup map as its list
    of entries. *)
Record t := mk {
  id : string;
  channelId : string;
  clientId : string;
  clients : list Client.t;
  userKeysById : list (string * string);
  pendingClients : list Pending.t;
  allowedUsers : gset string;
  lockedAllowedUsers : gset string;
  blockedUsers : gset string;
  isLocked : bool;
  isChatLocked : bool;
  noGuests : bool;
  isTtsDisabled : bool;
  isDmEnabled : bool;
  screenShareProducerId : option string;
}.

Definition withClients (cs : list Client.t) (r : t) : t :=
  mk (id r) (channelId r) (clientId r) cs (userKeysById r)
     (pendingClients r) (allowedUsers r) (lockedAllowedUsers r)
     (blockedUsers r) (isLocked r) (isChatLocked r) (noGuests r)
     (isTtsDisabled r) (isDmEnabled r) (screenShareProducerId r).

Definition withPendingClients (ps : list Pending.t) (r : t) : t :=
  mk (id r) (channelId r) (clientId r) (clients r) (userKeysById r)
     ps (allowedUsers r) (lockedAllowedUsers r)
     (blockedUsers r) (isLocked r) (isChatLocked r) (noGuests r)
     (isTtsDisabled r) (isDmEnabled r) (screenShareProducerId r).

Definition withAllowedUsers (s : gset string) (r : t) : t :=
  mk (id r) (channelId r) (clientId r) (clients r) (userKeysById r)
     (pendingClients r) s (lockedAllowedUsers r)
     (blockedUsers r) (isLocked r) (isChatLocked r) (noGuests r)
     (isTtsDisabled r) (isDmEnabled r) (screenShareProducerId r).

Definition withLockedAllowedUsers (s : gset string) (r : t) : t :=
  mk (id r) (channelId r) (clientId r) (clients r) (userKeysById r)
     (pendingClients r) (allowedUsers r) s
     (blockedUsers r) (isLocked r) (isChatLocked r) (noGuests r)
     (isTtsDisabled r) (isDmEnabled r) (screenShareProducerId r).

Definition withBlockedUsers (s : gset string) (r : t) : t :=
  mk (id r) (channelId r) (clientId r) (clients r) (userKeysById r)
     (pendingClients r) (allowedUsers r) (lockedAllowedUsers r)
     s (isLocked r) (isChatLocked r) (noGuests r)
     (isTtsDisabled r) (isDmEnabled r) (screenShareProducerId r).

Definition withScreenShareProducerId (o : option string) (r : t) : t :=
  mk (id r) (channelId r) (clientId r) (clients r) (userKeysById r)
     (pendingClients r) (allowedUsers r) (lockedAllowedUsers r)
     (blockedUsers r) (isLocked r) (isChatLocked r) (noGuests r)
     (isTtsDisabled r) (isDmEnabled r) o.

(** Modelled from the spec: the five policy setters of [Room]
    ([setLocked], [setChatLocked], [setNoGuests], [setTtsDisabled],
    [setDmEnabled]) are not among the sources; each stores its flag. *)
Definition setLocked (b : bool) (r : t) : t :=
  mk (id r) (channelId r) (clientId r) (clients r) (userKeysById r)
     (pendingClients r) (allowedUsers r) (lockedAllowedUsers r)
     (blockedUsers r) b (isChatLocked r) (noGuests r)
     (isTtsDisabled r) (isDmEnabled r) (screenShareProducerId r).

Definition setChatLocked (b : bool) (r : t) : t :=
  mk (id r) (channelId r) (clientId r) (clients r) (userKeysById r)
     (pendingClients r) (allowedUsers r) (lockedAllowedUsers r)
     (blockedUsers r) (isLocked r) b (noGuests r)
     (isTtsDisabled r) (isDmEnabled r) (screenShareProducerId r).

Definition setNoGuests (b : bool) (r : t) : t :=
  mk (id r) (channelId r) (clientId r) (clients r) (userKeysById r)
     (pendingClients r) (allowedUsers r) (lockedAllowedUsers r)
     (blockedUsers r) (isLocked r) (isChatLocked r) b
     (isTtsDisabled r) (isDmEnabled r) (screenShareProducerId r).

Definition setTtsDisabled (b : bool) (r : t) : t :=
  mk (id r) (channelId r) (clientId r) (clients r) (userKeysById r)
     (pendingClients r) (allowedUsers r) (lockedAllowedUsers r)
     (blockedUsers r) (isLocked r) (isChatLocked r) (noGuests r)
     b (isDmEnabled r) (screenShareProducerId r).

Definition setDmEnabled (b : bool) (r : t) : t :=
  mk (id r) (channelId r) (clientId r) (clients r) (userKeysById r)
     (pendingClients r) (allowedUsers r) (lockedAllowedUsers r)
     (blockedUsers r) (isLocked r) (isChatLocked r) (noGuests r)
     (isTtsDisabled r) b (screenShareProducerId r).

(** Modelled from the spec: [room.getClient(userId)], the lookup in the map
    [clients]. *)
Definition getClient (userId : string) (r : t) : option Client.t :=
  List.find (fun c => bool_decide (Client.id c = userId)) (clients r).

(** The client object that [getClient userId] returns, changed in place. *)
Fixpoint updateFirst (userId : string) (f : Client.t → Client.t)
    (cs : list Client.t) : list Client.t :=
  match cs with
  | [] => []
  | c :: rest =>
      if bool_decide (Client.id c = userId) then f c :: rest
      else c :: updateFirst userId f rest
  end.

Definition updateClient (userId : string) (f : Client.t → Client.t)
    (r : t) : t :=
  withClients (updateFirst userId f (clients r)) r.

(** Modelled from the spec: [room.getAdmins()], the clients that are
    [Admin]s. *)
Definition getAdmins (r : t) : list Client.t :=
  List.filter Client.isAdmin (clients r).

(** [room.pendingClients.get(userKey)] *)
Definition getPending (userKey : string) (r : t) : option Pending.t :=
  List.find (fun p => bool_decide (Pending.userKey p = userKey))
            (pendingClients r).

(** [room.pendingClients.delete(userKey)] *)
Definition deletePending (userKey : string) (r : t) : t :=
  withPendingClients
    (List.filter (fun p => negb (bool_decide (Pending.userKey p = userKey)))
                 (pendingClients r)) r.

(** Modelled from the spec: [removePendingClient(userKey)] is not among the
    sources; it is the spec's [removePending(userKey)]. *)
Definition removePendingClient (userKey : string) (r : t) : t :=
  deletePending userKey r.

(** Modelled from the spec: the access primitives of [Room] are not among
    the sources.  The spec gives the six of them as "set operations on the
    respective lists", says that [blockUser] does not remove from
    [allowedUserKeys] and that [unblockUser] does not restore an allow, and
    has [removePending] as a primitive of its own.  So each primitive
    changes its own set and nothing else of the room; in particular none of
    them touches [pendingClients]. *)
Definition allowUser (userKey : string) (r : t) : t :=
  withAllowedUsers ({[userKey]} ∪ allowedUsers r) r.

Definition allowLockedUser (userKey : string) (r : t) : t :=
  withLockedAllowedUsers ({[userKey]} ∪ lockedAllowedUsers r) r.

Definition revokeAllowedUser (userKey : string) (r : t) : t :=
  withAllowedUsers (allowedUsers r ∖ {[userKey]}) r.

Definition revokeLockedAllowedUser (userKey : string) (r : t) : t :=
  withLockedAllowedUsers (lockedAllowedUsers r ∖ {[userKey]}) r.

Definition blockUser (userKey : string) (r : t) : t :=
  withBlockedUsers ({[userKey]} ∪ blockedUsers r) r.

Definition unblockUser (userKey : string) (r : t) : t :=
  withBlockedUsers (blockedUsers r ∖ {[userKey]}) r.

(** Modelled from the spec: [clearScreenShareProducer(producerId)] is not
    among the sources; it clears [screenShareProducerId] only if the ids
    match. *)
Definition clearScreenShareProducer (pid : string) (r : t) : t :=
  match screenShareProducerId r with
  | Some cur =>
      if decide (cur = pid) then withScreenShareProducerId None r else r
  | None => r
  end.

End Room.

(** [state.rooms], a map from channel id to room, as its entries in
    insertion order, and the process-wide draining flag. *)
Record SfuState := mkSfuState {
  rooms : list (string * Room.t);
  isDraining : bool;
}.

(** Modelled from the spec: [getRoomChannelId] ([server/rooms.ts]) is not
    among the sources; the channel id is ["{clientId}:{roomId}"]. *)
Definition getRoomChannelId (clientId roomId : string) : string :=
  clientId +:+ ":" +:+ roomId.

(* ===================================================================== *)
(** ** Control-plane helpers ([server/admin/controlPlane.ts]) *)
(* ===================================================================== *)

Module ControlPlane.

Inductive RoomLookupResult :=
| Found (room : Room.t) (channelId : string)
| LookupError (error : string) (candidates : option (list string)).

(** [resolveRoom(state, roomId, { clientId })] *)
Definition resolveRoom (state : SfuState) (roomId : string)
    (clientId : option string) : RoomLookupResult :=
  let normalizedRoomId := Js.trim roomId in
  if decide (normalizedRoomId = "") then
    LookupError "Room ID is required" None
  else
    let clientId := default "" (Js.trim <$> clientId) in
    if decide (clientId ≠ "") then
      let channelId := getRoomChannelId clientId normalizedRoomId in
      match Js.assoc channelId (rooms state) with
      | None => LookupError "Room not found" None
      | Some room => Found room channelId
      end
    else
      let candidates :=
        List.filter (fun room => bool_decide (Room.id room = normalizedRoomId))
                    (map snd (rooms state)) in
      match candidates with
      | [] => LookupError "Room not found" None
      | [room] => Found room (Room.channelId room)
      | _ =>
          LookupError "Room ID is ambiguous. Provide a clientId."
                      (Some (map Room.channelId candidates))
      end.

(** [toPendingUserSnapshots(room)] *)
Definition toPendingUserSnapshots (room : Room.t) : Js.Json :=
  Js.JArr
    (map (fun pending =>
            Js.JObj [("userId", jstr (Pending.userKey pending));
                     ("participantUserId", jstr (Pending.userId pending));
                     ("userKey", jstr (Pending.userKey pending));
                     ("displayName", jstr (Pending.label pending));
                     ("socketId", jstr (Pending.socket pending))])
         (Room.pendingClients room)).

(** [notifyProducerClosed(io, room, ownerId, producerId)] *)
Definition notifyProducerClosed (room : Room.t) (ownerId producerId : string)
    : list Effect :=
  map (fun target =>
         SocketEmit (Client.socket target) "producerClosed"
           (Js.JObj [("producerId", jstr producerId);
                     ("producerUserId", jstr ownerId)]))
      (List.filter
         (fun target =>
            negb (bool_decide (Client.id target = ownerId)
                  || Client.isWebinarAttendee target))
         (Room.clients room))
  ++ [ChannelEmit (Room.channelId room) "admin:producerClosed"
        (Js.JObj [("roomId", jstr (Room.id room));
                  ("userId", jstr ownerId);
                  ("producerId", jstr producerId)])].

(** The first client, in map order, that owns producer [pid], with the
    producer taken out of it: the [for] loop of [closeProducerById] up to
    the first successful [removeProducerById]. *)
Fixpoint removeFromFirstOwner (pid : string) (cs : list Client.t)
    : option (ProducerInfo * Client.t * list Client.t) :=
  match cs with
  | [] => None
  | c :: rest =>
      match Client.removeProducerById pid c with
      | Some (removed, c') => Some (removed, c', c' :: rest)
      | None =>
          match removeFromFirstOwner pid rest with
          | Some (removed, owner, rest') => Some (removed, owner, c :: rest')
          | None => None
          end
      end
  end.

Inductive CloseResult :=
| NotClosed
| Closed (userId : string) (kind : MediaKind) (type : ProducerType).

Definition closed (r : CloseResult) : bool :=
  match r with NotClosed => false | Closed _ _ _ => true end.

Definition isScreenShare (p : ProducerInfo) : bool :=
  bool_decide (kind p = video) && bool_decide (type p = screen).

(** [closeProducerById(io, state, room, producerId)] *)
Definition closeProducerById (room : Room.t) (pid : string)
    : CloseResult * Room.t * list Effect :=
  match removeFromFirstOwner pid (Room.clients room) with
  | None => (NotClosed, room, [])
  | Some (removed, client, clients') =>
      let room1 := Room.withClients clients' room in
      let room2 :=
        if isScreenShare removed
        then Room.clearScreenShareProducer pid room1 else room1 in
      (Closed (Client.id client) (kind removed) (type removed),
       room2,
       notifyProducerClosed room2 (Client.id client) pid
       ++ [WebinarFeedChanged (Room.channelId room2);
           SocketEmit (Client.socket client) "admin:mediaEnforced"
             (Js.JObj [("roomId", jstr (Room.id room2));
                       ("userId", jstr (Client.id client));
                       ("producerId", jstr pid);
                       ("kind", jstr (kindName (kind removed)));
                       ("type", jstr (typeName (type removed)));
                       ("action", jstr "closed")])])
  end.

(** The [selector] argument: an absent field matches everything. *)
Record Selector := mkSelector {
  kinds : option (list MediaKind);
  types : option (list ProducerType);
}.

(** [shouldCloseProducer(info, selector)] *)
Definition shouldCloseProducer (info : ProducerInfo)
    (selector : option Selector) : bool :=
  match selector with
  | None => true
  | Some sel =>
      match kinds sel with
      | Some ks => bool_decide (kind info ∈ ks)
      | None => true
      end
      && match types sel with
         | Some ts => bool_decide (type info ∈ ts)
         | None => true
         end
  end.

(** One entry of [closedProducers]: producer id, kind and type. *)
Definition ClosedProducer : Type := string * MediaKind * ProducerType.

Definition closedProducerJson (p : ClosedProducer) : Js.Json :=
  let '(pid, k, t) := p in
  Js.JObj [("producerId", jstr pid);
           ("kind", jstr (kindName k));
           ("type", jstr (typeName t))].

(** One turn of the [for (const info of infos)] loop of
    [closeClientProducers]; [target] is read from the room, where the
    previous turns have already changed it. *)
Definition closeInfo (userId : string)
    (acc : Room.t * list Effect * list ClosedProducer) (info : ProducerInfo)
    : Room.t * list Effect * list ClosedProducer :=
  let '(room, effects, closedProducers) := acc in
  match Room.getClient userId room with
  | None => acc
  | Some target =>
      match Client.removeProducerById (producerId info) target with
      | None => acc
      | Some (removed, target') =>
          let room1 := Room.updateClient userId (fun _ => target') room in
          let room2 :=
            if isScreenShare removed
            then Room.clearScreenShareProducer (producerId info) room1
            else room1 in
          (room2,
           effects ++ notifyProducerClosed room2 userId (producerId info),
           closedProducers ++ [(producerId info, kind removed, type removed)])
      end
  end.

Record ClosedProducers := mkClosedProducers {
  closedCount : nat;
  closedProducers : list ClosedProducer;
}.

(** [closeClientProducers({ io, state, room, userId, selector, reason })] *)
Definition closeClientProducers (room : Room.t) (userId : string)
    (selector : option Selector) (reason : string)
    : ClosedProducers * Room.t * list Effect :=
  match Room.getClient userId room with
  | None => (mkClosedProducers 0 [], room, [])
  | Some target =>
      let infos :=
        List.filter (fun info => shouldCloseProducer info selector)
                    (Client.getProducerInfos target) in
      let '(room', effects, closedPs) :=
        fold_left (closeInfo userId) infos (room, [], []) in
      let effects' :=
        if (0 <? length closedPs)%nat then
          effects ++
          [WebinarFeedChanged (Room.channelId room');
           SocketEmit (Client.socket target) "admin:mediaEnforced"
             (Js.JObj [("roomId", jstr (Room.id room'));
                       ("userId", jstr userId);
                       ("action", jstr "closed");
                       ("reason", jstr reason);
                       ("producers",
                        Js.JArr (map closedProducerJson closedPs))])]
        else effects in
      (mkClosedProducers (length closedPs) closedPs, room', effects')
  end.

(** [RoomPolicyUpdate]: an absent field is [None]. *)
Record RoomPolicyUpdate := mkUpdate {
  locked : option bool;
  chatLocked : option bool;
  noGuests : option bool;
  ttsDisabled : option bool;
  dmEnabled : option bool;
}.

Definition noUpdate : RoomPolicyUpdate := mkUpdate None None None None None.

(** [typeof field === "boolean" && field !== current] *)
Definition differs (field : option bool) (current : bool) : option bool :=
  match field with
  | Some b => if bool_decide (b ≠ current) then Some b else None
  | None => None
  end.

(** [applyRoomPolicyUpdate(io, room, update)]: the changed fields, the room
    afterwards and what was broadcast. *)
Definition applyRoomPolicyUpdate (room : Room.t) (update : RoomPolicyUpdate)
    : RoomPolicyUpdate * Room.t * list Effect :=
  let '(cLocked, room1, e1) :=
    match differs (locked update) (Room.isLocked room) with
    | Some b =>
        let room' := Room.setLocked b room in
        let room'' :=
          if b then
            fold_left (fun r userKey => Room.allowLockedUser userKey r)
                      (map snd (Room.userKeysById room')) room'
          else room' in
        (Some b, room'',
         [ChannelEmit (Room.channelId room'') "roomLockChanged"
            (Js.JObj [("locked", Js.JBool b);
                      ("roomId", jstr (Room.id room''))])])
    | None => (None, room, [])
    end in
  let '(cChat, room2, e2) :=
    match differs (chatLocked update) (Room.isChatLocked room1) with
    | Some b =>
        (Some b, Room.setChatLocked b room1,
         [ChannelEmit (Room.channelId room1) "chatLockChanged"
            (Js.JObj [("locked", Js.JBool b);
                      ("roomId", jstr (Room.id room1))])])
    | None => (None, room1, [])
    end in
  let '(cGuests, room3, e3) :=
    match differs (noGuests update) (Room.noGuests room2) with
    | Some b =>
        (Some b, Room.setNoGuests b room2,
         [ChannelEmit (Room.channelId room2) "noGuestsChanged"
            (Js.JObj [("noGuests", Js.JBool b);
                      ("roomId", jstr (Room.id room2))])])
    | None => (None, room2, [])
    end in
  let '(cTts, room4, e4) :=
    match differs (ttsDisabled update) (Room.isTtsDisabled room3) with
    | Some b =>
        (Some b, Room.setTtsDisabled b room3,
         [ChannelEmit (Room.channelId room3) "ttsDisabledChanged"
            (Js.JObj [("disabled", Js.JBool b);
                      ("roomId", jstr (Room.id room3))])])
    | None => (None, room3, [])
    end in
  let '(cDm, room5, e5) :=
    match differs (dmEnabled update) (Room.isDmEnabled room4) with
    | Some b =>
        (Some b, Room.setDmEnabled b room4,
         [ChannelEmit (Room.channelId room4) "dmStateChanged"
            (Js.JObj [("enabled", Js.JBool b);
                      ("roomId", jstr (Room.id room4))])])
    | None => (None, room4, [])
    end in
  (mkUpdate cLocked cChat cGuests cTts cDm, room5,
   e1 ++ e2 ++ e3 ++ e4 ++ e5).

(** [{ userId, userKey }] of an admitted or rejected pending entry. *)
Definition PendingRef : Type := string * string.

(** [socket.emit("userAdmitted" | "userRejected", { userId, roomId })] to
    every admin of the room. *)
Definition notifyAdmins (room : Room.t) (event userKey : string)
    : list Effect :=
  map (fun admin =>
         SocketEmit (Client.socket admin) event
           (Js.JObj [("userId", jstr userKey);
                     ("roomId", jstr (Room.id room))]))
      (Room.getAdmins room).

(** One turn of the first loop of [admitAllPendingUsers]. *)
Definition admitOne (acc : Room.t * list Effect * list PendingRef)
    (pending : Pending.t) : Room.t * list Effect * list PendingRef :=
  let '(room, effects, admitted) := acc in
  let room1 :=
    if Room.isLocked room
    then Room.allowLockedUser (Pending.userKey pending) room else room in
  let room2 := Room.allowUser (Pending.userKey pending) room1 in
  (room2,
   effects ++ [SocketEmit (Pending.socket pending) "joinApproved"
                 Js.JUndefined],
   admitted ++ [(Pending.userId pending, Pending.userKey pending)]).

(** [admitAllPendingUsers(room)] *)
Definition admitAllPendingUsers (room : Room.t)
    : list PendingRef * Room.t * list Effect :=
  let pendingUsers := Room.pendingClients room in
  let '(room', effects, admitted) :=
    fold_left admitOne pendingUsers (room, [], []) in
  (admitted, room',
   effects ++
   concat (map (fun admin =>
                  map (fun user : PendingRef =>
                         SocketEmit (Client.socket admin) "userAdmitted"
                           (Js.JObj [("userId", jstr (snd user));
                                     ("roomId", jstr (Room.id room'))]))
                      admitted)
               (Room.getAdmins room'))).

(** [kickClient(room, userId, reason)] *)
Definition kickClient (room : Room.t) (userId reason : string)
    : bool * list Effect :=
  match Room.getClient userId room with
  | None => (false, [])
  | Some target =>
      (true,
       [SocketEmit (Client.socket target) "kicked"
          (Js.JObj [("reason", jstr reason); ("roomId", jstr (Room.id room))]);
        SocketDisconnect (Client.socket target)])
  end.

End ControlPlane.

(* ===================================================================== *)
(** ** Operator HTTP surface ([server/http/createApp.ts]) *)
(* ===================================================================== *)

Module Http.
Import ControlPlane.

(** What the routes read from the process: the shared secret and whether
    [getIo()] yields a socket server. *)
Record Env := mkEnv {
  sfuSecret : string;
  ioReady : bool;
}.

Record Request := mkRequest {
  secretHeader : option string;     (** [req.header("x-sfu-secret")] *)
  clientHeader : option string;     (** [req.header("x-sfu-client")] *)
  queryClientId : Js.Json;          (** [req.query.clientId] *)
  params : list (string * string);  (** [req.params] *)
  body : Js.Json;                   (** [req.body] *)
}.

Record Response := mkResponse {
  status : Z;
  json : Js.Json;
}.

Definition errorBody (message : string) : Js.Json :=
  Js.JObj [("error", jstr message)].

Definition param (name : string) (req : Request) : Js.Json :=
  match Js.assoc name (params req) with
  | Some v => jstr v
  | None => Js.JUndefined
  end.

(** [hasValidSecret(req, secret)] *)
Definition hasValidSecret (req : Request) (secret : string) : bool :=
  match secretHeader req with
  | Some provided =>
      negb (bool_decide (provided = "")) && bool_decide (provided = secret)
  | None => false
  end.

Definition DEFAULT_SERVER_RESTART_NOTICE : string :=
  "Meeting server is restarting. You will be reconnected automatically.".
Definition DEFAULT_SERVER_RESTART_NOTICE_MS : Z := 4000.
Definition MAX_SERVER_RESTART_NOTICE_MS : Z := 30000.

(** [parseRestartNoticeMs(value)] *)
Definition parseRestartNoticeMs (value : Js.Json) : Z :=
  match value with
  | Js.JNum (Js.Finite q) =>
      if QArith_base.Qle_bool q (QArith_base.inject_Z 0) then 0
      else Z.min (Qround.Qfloor q) MAX_SERVER_RESTART_NOTICE_MS
  | _ => DEFAULT_SERVER_RESTART_NOTICE_MS
  end.

(** [parseRestartNotice(value)] *)
Definition parseRestartNotice (value : Js.Json) : string :=
  match value with
  | Js.JStr s =>
      let trimmed := Js.trim s in
      if decide (trimmed = "") then DEFAULT_SERVER_RESTART_NOTICE else trimmed
  | _ => DEFAULT_SERVER_RESTART_NOTICE
  end.

(** [resolveClientId(req)] *)
Definition resolveClientId (req : Request) : option string :=
  let headerValue :=
    Js.toStringOrEmpty
      (match clientHeader req with
       | Some h => jstr h
       | None => Js.JUndefined
       end) in
  let queryValue := Js.toStringOrEmpty (queryClientId req) in
  let next := if decide (queryValue = "") then headerValue else queryValue in
  if decide (next = "") then None else Some next.

(** The [for] loop of [parseUserKeys] over an array. *)
Fixpoint collectKeys (items : list Js.Json) : option (list string) :=
  match items with
  | [] => Some []
  | Js.JStr entry :: rest =>
      match collectKeys rest with
      | Some keys =>
          let normalized := Js.trim entry in
          Some (if decide (normalized = "") then keys else normalized :: keys)
      | None => None
      end
  | _ :: _ => None
  end.

(** [parseUserKeys(value)]; [None] is the [null] of the source. *)
Definition parseUserKeys (value : Js.Json) : option (list string) :=
  match value with
  | Js.JStr s =>
      let normalized := Js.trim s in
      Some (if decide (normalized = "") then [] else [normalized])
  | Js.JArr items => Js.dedupe [] <$> collectKeys items
  | _ => None
  end.

(** [resolveRoomForAdmin(req, res)]: the response already sent, or the
    lookup. *)
Definition resolveRoomForAdmin (state : SfuState) (req : Request)
    : Response + (Room.t * string) :=
  let roomId := Js.toStringOrEmpty (param "roomId" req) in
  if decide (roomId = "") then
    inl (mkResponse 400 (errorBody "Room ID is required"))
  else
    match resolveRoom state roomId (resolveClientId req) with
    | LookupError error (Some candidates) =>
        inl (mkResponse 409
               (Js.JObj [("error", jstr error);
                         ("candidates", jstrs candidates)]))
    | LookupError error None => inl (mkResponse 404 (errorBody error))
    | Found room channelId => inr (room, channelId)
    end.

(** [emitPendingUsersSnapshot(io, room)] *)
Definition emitPendingUsersSnapshot (room : Room.t) : Effect :=
  ChannelEmit (Room.channelId room) "pendingUsersSnapshot"
    (Js.JObj
       [("users",
         Js.JArr (map (fun pending =>
                         Js.JObj [("userId", jstr (Pending.userKey pending));
                                  ("displayName", jstr (Pending.label pending))])
                      (Room.pendingClients room)));
        ("roomId", jstr (Room.id room))]).

(** [Array.from(set.values()).sort()] *)
Definition sortedKeys (s : gset string) : list string :=
  merge_sort (fun a b => Is_true (String.leb a b)) (elements s).

(** [toRoomSnapshot(room).access] *)
Definition accessJson (room : Room.t) : Js.Json :=
  Js.JObj
    [("allowedUserKeys", jstrs (sortedKeys (Room.allowedUsers room)));
     ("lockedAllowedUserKeys",
      jstrs (sortedKeys (Room.lockedAllowedUsers room)));
     ("blockedUserKeys", jstrs (sortedKeys (Room.blockedUsers room)))].

(** What a route did: the response, what it sent, and the room object it
    worked on as the route leaves it ([None] when no room was resolved). *)
Record RouteResult := mkResult {
  response : Response;
  effects : list Effect;
  room : option Room.t;
}.

Definition reply (status : Z) (body : Js.Json) : RouteResult :=
  mkResult (mkResponse status body) [] None.

(** The opening of every room route: [requireSecret], [requireIo] where
    the route uses the socket server, and [resolveRoomForAdmin]. *)
Definition withRoom (needIo : bool) (env : Env) (state : SfuState)
    (req : Request) (route : Room.t → RouteResult) : RouteResult :=
  if negb (hasValidSecret req (sfuSecret env)) then
    reply 401 (errorBody "Unauthorized")
  else if needIo && negb (ioReady env) then
    reply 503 (errorBody "Socket server unavailable")
  else
    match resolveRoomForAdmin state req with
    | inl res => mkResult res [] None
    | inr (room, _) => route room
    end.

(** The parsed [userKeys] of the four access routes, or the 400 reply. *)
Definition withUserKeys (req : Request)
    (route : list string → RouteResult) : RouteResult :=
  match parseUserKeys (Js.nullish (Js.getField "userKeys" (body req))
                                  (Js.getField "userKey" (body req))) with
  | None => reply 400 (errorBody "Invalid user key list")
  | Some [] => reply 400 (errorBody "At least one user key is required")
  | Some userKeys => route userKeys
  end.

(** [value !== false] *)
Definition notFalse (value : Js.Json) : bool :=
  match value with
  | Js.JBool false => false
  | _ => true
  end.

(** [toStringOrEmpty(value) || fallback] *)
Definition stringOr (value : Js.Json) (fallback : string) : string :=
  let s := Js.toStringOrEmpty value in
  if decide (s = "") then fallback else s.

(** [POST /admin/rooms/:roomId/policies] *)
Definition boolField (name : string) (b : Js.Json) : option bool :=
  match Js.getField name b with
  | Js.JBool v => Some v
  | _ => None
  end.

Definition policiesJson (room : Room.t) : Js.Json :=
  Js.JObj [("locked", Js.JBool (Room.isLocked room));
           ("chatLocked", Js.JBool (Room.isChatLocked room));
           ("noGuests", Js.JBool (Room.noGuests room));
           ("ttsDisabled", Js.JBool (Room.isTtsDisabled room));
           ("dmEnabled", Js.JBool (Room.isDmEnabled room))].

Definition changedJson (c : RoomPolicyUpdate) : Js.Json :=
  Js.JObj
    (omap (fun '(name, field) =>
             match field with
             | Some b => Some (name, Js.JBool b)
             | None => None
             end)
          [("locked", locked c); ("chatLocked", chatLocked c);
           ("noGuests", noGuests c); ("ttsDisabled", ttsDisabled c);
           ("dmEnabled", dmEnabled c)]).

Definition postPolicies (env : Env) (state : SfuState) (req : Request)
    : RouteResult :=
  withRoom true env state req (fun room =>
    let update :=
      mkUpdate (boolField "locked" (body req))
               (boolField "chatLocked" (body req))
               (boolField "noGuests" (body req))
               (boolField "ttsDisabled" (body req))
               (boolField "dmEnabled" (body req)) in
    match update with
    | mkUpdate None None None None None =>
        mkResult (mkResponse 400 (errorBody "No policy changes provided"))
                 [] (Some room)
    | _ =>
        let '(changed, room', effs) := applyRoomPolicyUpdate room update in
        mkResult
          (mkResponse 200
             (Js.JObj [("success", Js.JBool true);
                       ("changed", changedJson changed);
                       ("policies", policiesJson room')]))
          effs (Some room')
    end).

(** One turn of the loop of [POST /admin/rooms/:roomId/access/allow]. *)
Definition allowOne (allowWhenLocked : bool)
    (acc : Room.t * list Effect * list string) (userKey : string)
    : Room.t * list Effect * list string :=
  let '(room, effects, admitted) := acc in
  let pending := Room.getPending userKey room in
  let room1 := Room.unblockUser userKey room in
  let room2 := Room.allowUser userKey room1 in
  let room3 :=
    if allowWhenLocked || Room.isLocked room2
    then Room.allowLockedUser userKey room2 else room2 in
  match pending with
  | Some p =>
      (room3,
       effects
       ++ [SocketEmit (Pending.socket p) "joinApproved" Js.JUndefined]
       ++ notifyAdmins room3 "userAdmitted" userKey,
       admitted ++ [userKey])
  | None => (room3, effects, admitted)
  end.

(** [POST /admin/rooms/:roomId/access/allow] *)
Definition postAccessAllow (env : Env) (state : SfuState) (req : Request)
    : RouteResult :=
  withRoom true env state req (fun room =>
    withUserKeys req (fun userKeys =>
      let allowWhenLocked :=
        notFalse (Js.getField "allowWhenLocked" (body req)) in
      let '(room', effs, admitted) :=
        fold_left (allowOne allowWhenLocked) userKeys (room, [], []) in
      mkResult
        (mkResponse 200
           (Js.JObj [("success", Js.JBool true);
                     ("roomId", jstr (Room.id room'));
                     ("allowed", jstrs userKeys);
                     ("admitted", jstrs admitted);
                     ("access", accessJson room')]))
        (effs ++ [emitPendingUsersSnapshot room'])
        (Some room'))).

(** One turn of the loop of [POST /admin/rooms/:roomId/access/revoke]. *)
Definition revokeOne (revokeLocked : bool) (room : Room.t)
    (userKey : string) : Room.t :=
  let room1 := Room.revokeAllowedUser userKey room in
  if revokeLocked then Room.revokeLockedAllowedUser userKey room1 else room1.

(** [POST /admin/rooms/:roomId/access/revoke] *)
Definition postAccessRevoke (env : Env) (state : SfuState) (req : Request)
    : RouteResult :=
  withRoom false env state req (fun room =>
    withUserKeys req (fun userKeys =>
      let revokeLocked := notFalse (Js.getField "revokeLocked" (body req)) in
      let room' := fold_left (revokeOne revokeLocked) userKeys room in
      mkResult
        (mkResponse 200
           (Js.JObj [("success", Js.JBool true);
                     ("roomId", jstr (Room.id room'));
                     ("revoked", jstrs userKeys);
                     ("access", accessJson room')]))
        [] (Some room'))).

(** The inner loop of the block route: every live session whose back-lookup
    key is [userKey] is sent [kicked] and disconnected. *)
Definition kickSessions (room : Room.t) (userKey reason : string)
    : list Effect * list string :=
  fold_left
    (fun (acc : list Effect * list string) (entry : string * string) =>
       let '(effects, kicked) := acc in
       let '(userId, key) := entry in
       if decide (key = userKey) then
         match Room.getClient userId room with
         | Some client =>
             (effects
              ++ [SocketEmit (Client.socket client) "kicked"
                    (Js.JObj [("reason", jstr reason);
                              ("roomId", jstr (Room.id room))]);
                  SocketDisconnect (Client.socket client)],
              kicked ++ [userId])
         | None => acc
         end
       else acc)
    (Room.userKeysById room) ([], []).

Record BlockAcc := mkBlockAcc {
  blockRoom : Room.t;
  blockEffects : list Effect;
  rejectedPending : list string;
  kickedUserIds : list string;
}.

(** One turn of the loop of [POST /admin/rooms/:roomId/access/block]. *)
Definition blockOne (kickPresent : bool) (reason : string)
    (acc : BlockAcc) (userKey : string) : BlockAcc :=
  let pending := Room.getPending userKey (blockRoom acc) in
  let room1 := Room.blockUser userKey (blockRoom acc) in
  let '(e1, rejected1) :=
    match pending with
    | Some p =>
        ([SocketEmit (Pending.socket p) "joinRejected" Js.JUndefined],
         rejectedPending acc ++ [userKey])
    | None => ([], rejectedPending acc)
    end in
  let '(e2, kicked) :=
    if kickPresent then kickSessions room1 userKey reason else ([], []) in
  mkBlockAcc room1 (blockEffects acc ++ e1 ++ e2) rejected1
             (kickedUserIds acc ++ kicked).

(** [POST /admin/rooms/:roomId/access/block] *)
Definition postAccessBlock (env : Env) (state : SfuState) (req : Request)
    : RouteResult :=
  withRoom true env state req (fun room =>
    withUserKeys req (fun userKeys =>
      let kickPresent := notFalse (Js.getField "kickPresent" (body req)) in
      let reason :=
        stringOr (Js.getField "reason" (body req)) "Blocked by operator" in
      let acc :=
        fold_left (blockOne kickPresent reason) userKeys
                  (mkBlockAcc room [] [] []) in
      mkResult
        (mkResponse 200
           (Js.JObj [("success", Js.JBool true);
                     ("roomId", jstr (Room.id (blockRoom acc)));
                     ("blocked", jstrs userKeys);
                     ("rejectedPending", jstrs (rejectedPending acc));
                     ("kickedUserIds",
                      jstrs (Js.dedupe [] (kickedUserIds acc)));
                     ("access", accessJson (blockRoom acc))]))
        (blockEffects acc ++ [emitPendingUsersSnapshot (blockRoom acc)])
        (Some (blockRoom acc)))).

(** [POST /admin/rooms/:roomId/access/unblock] *)
Definition postAccessUnblock (env : Env) (state : SfuState) (req : Request)
    : RouteResult :=
  withRoom false env state req (fun room =>
    withUserKeys req (fun userKeys =>
      let room' :=
        fold_left (fun r userKey => Room.unblockUser userKey r)
                  userKeys room in
      mkResult
        (mkResponse 200
           (Js.JObj [("success", Js.JBool true);
                     ("roomId", jstr (Room.id room'));
                     ("unblocked", jstrs userKeys);
                     ("access", accessJson room')]))
        [] (Some room'))).



(** [pendingSockets.add(socket)] on an insertion-ordered [Set]. *)
Definition setAdd (x : SocketId) (l : list SocketId) : list SocketId :=
  if bool_decide (x ∈ l) then l else l ++ [x].

(** The first loop of [handleDrain]: one room notice per room, and the
    sockets of its pending entries collected into [pendingSockets]. *)
Definition noticeRoom (restartNotice : string)
    (acc : list Effect * list SocketId) (room : Room.t)
    : list Effect * list SocketId :=
  let '(effects, pendingSockets) := acc in
  (effects
   ++ [ChannelEmit (Room.channelId room) "serverRestarting"
         (Js.JObj [("roomId", jstr (Room.id room));
                   ("message", jstr restartNotice);
                   ("reconnecting", Js.JBool true)])],
   fold_left (fun sockets pending => setAdd (Pending.socket pending) sockets)
             (Room.pendingClients room) pendingSockets).

(** [handleDrain(req, res)], which serves [POST /drain] and
    [POST /admin/drain] once the secret has been checked. *)
Definition handleDrain (env : Env) (state : SfuState) (req : Request)
    : SfuState * list Effect * Response :=
  let b := Js.nullish (body req) (Js.JObj []) in
  match Js.getField "draining" b with
  | Js.JBool draining =>
      let state' := mkSfuState (rooms state) draining in
      let shouldForceDrain :=
        isDraining state'
        && match Js.getField "force" b with
           | Js.JBool true => true
           | _ => false
           end in
      if negb shouldForceDrain then
        (state', [],
         mkResponse 200
           (Js.JObj [("draining", Js.JBool (isDraining state'));
                     ("forced", Js.JBool false)]))
      else if negb (ioReady env) then
        (state', [],
         mkResponse 503
           (errorBody "Socket server unavailable for force drain"))
      else
        let roomList := map snd (rooms state') in
        let restartNotice := parseRestartNotice (Js.getField "notice" b) in
        let restartNoticeMs :=
          parseRestartNoticeMs (Js.getField "noticeMs" b) in
        let connectedClients :=
          fold_left (fun total room =>
                       (total + length (Room.clients room))%nat)
                    roomList 0%nat in
        let '(notices, pendingSockets) :=
          fold_left (noticeRoom restartNotice) roomList ([], []) in
        let pendingNotices :=
          map (fun pendingSocket =>
                 SocketEmit pendingSocket "serverRestarting"
                   (Js.JObj [("message", jstr restartNotice);
                             ("reconnecting", Js.JBool true)]))
              pendingSockets in
        let wait :=
          if 0 <? restartNoticeMs then [Sleep restartNoticeMs] else [] in
        let roomDisconnects :=
          map (fun room => ChannelDisconnect (Room.channelId room))
              roomList in
        let pendingDisconnects := map SocketDisconnect pendingSockets in
        (state',
         notices ++ pendingNotices ++ wait
         ++ roomDisconnects ++ pendingDisconnects,
         mkResponse 200
           (Js.JObj [("draining", Js.JBool (isDraining state'));
                     ("forced", Js.JBool true);
                     ("rooms", jnat (length roomList));
                     ("clients", jnat connectedClients);
                     ("noticeMs", jnum restartNoticeMs)]))
  | _ => (state, [], mkResponse 400 (errorBody "Invalid draining flag"))
  end.

(** [POST /drain] *)
Definition postDrain (env : Env) (state : SfuState) (req : Request)
    : SfuState * list Effect * Response :=
  if negb (hasValidSecret req (sfuSecret env)) then
    (state, [], mkResponse 401 (errorBody "Unauthorized"))
  else handleDrain env state req.

End Http.

(* ===================================================================== *)
(** ** Administrator socket events
       ([server/socket/handlers/adminHandlers.ts]) *)
(* ===================================================================== *)

Module AdminSocket.
Import ControlPlane.

(** The part of [ConnectionContext] the admin handlers read. *)
Record ConnectionContext := mkContext {
  currentRoom : option Room.t;
  currentClient : option Client.t;
}.

(** What is passed to the acknowledgement callback. *)
Inductive Ack :=
| AckError (error : string)
| AckSuccess (fields : list (string * Js.Json)).

(** What a handler did: the acknowledgement (if one was sent), what it
    sent, and the room object as the handler leaves it. *)
Record HandlerResult := mkHandled {
  ack : option Ack;
  effects : list Effect;
  room : option Room.t;
}.

Definition succeeded (r : HandlerResult) : bool :=
  match ack r with
  | Some (AckSuccess _) => true
  | _ => false
  end.

(** [ensureAdminRoom(context)] *)
Definition ensureAdminRoom (context : ConnectionContext)
    : string + (Room.t * string) :=
  match currentRoom context, currentClient context with
  | Some room, Some currentClient =>
      if Client.isAdmin currentClient
      then inr (room, Client.id currentClient)
      else inl "Admin privileges required"
  | _, _ => inl "Room not found"
  end.

(** The guard that opens every admin handler. *)
Definition guarded (context : ConnectionContext)
    (handler : Room.t → string → HandlerResult) : HandlerResult :=
  match ensureAdminRoom context with
  | inl error => mkHandled (Some (AckError error)) [] (currentRoom context)
  | inr (room, adminId) => handler room adminId
  end.

Record BulkMediaOptions := mkBulkOptions {
  includeAdmins : bool;
  includeGhosts : bool;
  includeAttendees : bool;
}.

(** [toBulkMediaOptions(value)] *)
Definition toBulkMediaOptions (value : Js.Json) : BulkMediaOptions :=
  match value with
  | Js.JObj _ =>
      mkBulkOptions (Js.truthy (Js.getField "includeAdmins" value))
                    (Js.truthy (Js.getField "includeGhosts" value))
                    (Js.truthy (Js.getField "includeAttendees" value))
  | _ => mkBulkOptions false false false
  end.

Record BulkResult := mkBulkResult {
  affectedUsers : nat;
  affectedProducers : nat;
  users : list string;
}.

(** [!flag] for an optional boolean option of [performBulkMediaClosure]. *)
Definition unset (flag : option bool) : bool := negb (default false flag).

(** One turn of the [for (const client of room.clients.values())] loop of
    [performBulkMediaClosure]. *)
Definition bulkStep (selector : Selector) (reason : string)
    (inclAdmins inclGhosts inclAttendees : option bool)
    (acc : Room.t * list Effect * BulkResult) (client : Client.t)
    : Room.t * list Effect * BulkResult :=
  let '(room, effects, tally) := acc in
  if unset inclAdmins && Client.isAdmin client then acc
  else if unset inclGhosts && Client.isGhost client then acc
  else if unset inclAttendees && Client.isWebinarAttendee client then acc
  else
    let '(result, room', effs) :=
      closeClientProducers room (Client.id client) (Some selector) reason in
    (room', effects ++ effs,
     if (0 <? closedCount result)%nat then
       mkBulkResult (affectedUsers tally + 1)
                    (affectedProducers tally + closedCount result)
                    (users tally ++ [Client.id client])
     else tally).

(** [performBulkMediaClosure(options)] *)
Definition performBulkMediaClosure (currentRoom : option Room.t)
    (selector : Selector) (reason : string)
    (inclAdmins inclGhosts inclAttendees : option bool)
    : BulkResult * option Room.t * list Effect :=
  match currentRoom with
  | None => (mkBulkResult 0 0 [], None, [])
  | Some room =>
      let '(room', effects, tally) :=
        fold_left
          (bulkStep selector reason inclAdmins inclGhosts inclAttendees)
          (Room.clients room)
          (room, [], mkBulkResult 0 0 []) in
      let effects' :=
        if (0 <? affectedProducers tally)%nat then
          effects ++
          [ChannelEmit (Room.channelId room') "admin:bulkMediaEnforced"
             (Js.JObj [("roomId", jstr (Room.id room'));
                       ("reason", jstr reason);
                       ("users", jstrs (users tally));
                       ("affectedUsers", jnat (affectedUsers tally));
                       ("affectedProducers",
                        jnat (affectedProducers tally))])]
        else effects in
      (tally, Some room', effects')
  end.

(** The common shape of [muteAll], [closeAllVideo] and
    [admin:stopAllScreenShare]: [input] is the payload ([None] when the
    first argument was the callback) and [callback] tells whether an
    acknowledgement callback was given. *)
Definition bulkEvent (selector : Selector) (reason : string)
    (context : ConnectionContext) (input : option Js.Json) (callback : bool)
    : HandlerResult :=
  let data := default (Js.JObj []) input in
  if negb callback then mkHandled None [] (currentRoom context)
  else
    guarded context (fun _ _ =>
      let bulkOptions := toBulkMediaOptions data in
      let '(result, room', effs) :=
        performBulkMediaClosure (currentRoom context) selector reason
          (Some (includeAdmins bulkOptions))
          (Some (includeGhosts bulkOptions))
          (Some (includeAttendees bulkOptions)) in
      mkHandled
        (Some (AckSuccess
                 [("success", Js.JBool true);
                  ("count", jnat (affectedUsers result));
                  ("affectedProducers", jnat (affectedProducers result));
                  ("users", jstrs (users result))]))
        effs room').




(** [parseUserKeys(value)]: the handlers file carries its own copy of the
    function of the HTTP surface, with the same body. *)
Definition parseUserKeys (value : Js.Json) : option (list string) :=
  match value with
  | Js.JStr s =>
      let normalized := Js.trim s in
      Some (if decide (normalized = "") then [] else [normalized])
  | Js.JArr items => Js.dedupe [] <$> Http.collectKeys items
  | _ => None
  end.

(** The parsed [data.userKeys] of the four access events, or the error. *)
Definition withUserKeys (room : Room.t) (data : Js.Json)
    (handler : list string → HandlerResult) : HandlerResult :=
  match parseUserKeys (Js.getField "userKeys" data) with
  | None => mkHandled (Some (AckError "Invalid user key list")) [] (Some room)
  | Some [] =>
      mkHandled (Some (AckError "At least one user key is required")) []
                (Some room)
  | Some userKeys => handler userKeys
  end.

Definition pendingUsersSnapshot (room : Room.t) : Effect :=
  ChannelEmit (Room.channelId room) "pendingUsersSnapshot"
    (Js.JObj [("users", toPendingUserSnapshots room);
              ("roomId", jstr (Room.id room))]).

(** One turn of the loop of [admin:allowUsers]. *)
Definition allowOne (allowWhenLocked : bool)
    (acc : Room.t * list Effect * list string) (userKey : string)
    : Room.t * list Effect * list string :=
  let '(room, effects, admitted) := acc in
  let pending := Room.getPending userKey room in
  let room1 := Room.unblockUser userKey room in
  let room2 := Room.allowUser userKey room1 in
  let room3 :=
    if allowWhenLocked || Room.isLocked room2
    then Room.allowLockedUser userKey room2 else room2 in
  match pending with
  | Some p =>
      (room3,
       effects
       ++ [SocketEmit (Pending.socket p) "joinApproved" Js.JUndefined]
       ++ notifyAdmins room3 "userAdmitted" userKey,
       admitted ++ [userKey])
  | None => (room3, effects, admitted)
  end.

(** [socket.on("admin:allowUsers", ...)] *)
Definition allowUsers (context : ConnectionContext) (data : Js.Json)
    : HandlerResult :=
  guarded context (fun room _ =>
    withUserKeys room data (fun userKeys =>
      let allowWhenLocked :=
        Http.notFalse (Js.getField "allowWhenLocked" data) in
      let '(room', effs, admitted) :=
        fold_left (allowOne allowWhenLocked) userKeys (room, [], []) in
      mkHandled
        (Some (AckSuccess [("success", Js.JBool true);
                           ("allowed", jstrs userKeys);
                           ("admitted", jstrs admitted);
                           ("access", Http.accessJson room')]))
        (effs ++ [pendingUsersSnapshot room'])
        (Some room'))).

(** One turn of the loop of [admin:blockUsers]. *)
Definition blockOne (kickPresent : bool) (reason : string)
    (acc : Http.BlockAcc) (userKey : string) : Http.BlockAcc :=
  let pending := Room.getPending userKey (Http.blockRoom acc) in
  let room1 := Room.blockUser userKey (Http.blockRoom acc) in
  let '(e1, rejected1) :=
    match pending with
    | Some p =>
        ([SocketEmit (Pending.socket p) "joinRejected" Js.JUndefined]
         ++ notifyAdmins room1 "userRejected" userKey,
         Http.rejectedPending acc ++ [userKey])
    | None => ([], Http.rejectedPending acc)
    end in
  let '(e2, kicked) :=
    if kickPresent then Http.kickSessions room1 userKey reason
    else ([], []) in
  Http.mkBlockAcc room1 (Http.blockEffects acc ++ e1 ++ e2) rejected1
                  (Http.kickedUserIds acc ++ kicked).

(** [socket.on("admin:blockUsers", ...)] *)
Definition blockUsers (context : ConnectionContext) (data : Js.Json)
    : HandlerResult :=
  guarded context (fun room _ =>
    withUserKeys room data (fun userKeys =>
      let kickPresent := Http.notFalse (Js.getField "kickPresent" data) in
      let reason :=
        Http.stringOr (Js.getField "reason" data) "Blocked by host" in
      let acc :=
        fold_left (blockOne kickPresent reason) userKeys
                  (Http.mkBlockAcc room [] [] []) in
      mkHandled
        (Some (AckSuccess
                 [("success", Js.JBool true);
                  ("blocked", jstrs userKeys);
                  ("rejectedPending", jstrs (Http.rejectedPending acc));
                  ("kickedUserIds",
                   jstrs (Js.dedupe [] (Http.kickedUserIds acc)));
                  ("access", Http.accessJson (Http.blockRoom acc))]))
        (Http.blockEffects acc ++ [pendingUsersSnapshot (Http.blockRoom acc)])
        (Some (Http.blockRoom acc)))).

(** [socket.on("admin:unblockUsers", ...)] *)
Definition unblockUsers (context : ConnectionContext) (data : Js.Json)
    : HandlerResult :=
  guarded context (fun room _ =>
    withUserKeys room data (fun userKeys =>
      let room' :=
        fold_left (fun r userKey => Room.unblockUser userKey r)
                  userKeys room in
      mkHandled
        (Some (AckSuccess [("success", Js.JBool true);
                           ("unblocked", jstrs userKeys);
                           ("access", Http.accessJson room')]))
        [] (Some room'))).

(** [socket.on("admin:revokeAllowedUsers", ...)] *)
Definition revokeAllowedUsers (context : ConnectionContext) (data : Js.Json)
    : HandlerResult :=
  guarded context (fun room _ =>
    withUserKeys room data (fun userKeys =>
      let revokeLocked := Http.notFalse (Js.getField "revokeLocked" data) in
      let room' :=
        fold_left
          (fun r userKey =>
             let r1 := Room.revokeAllowedUser userKey r in
             if revokeLocked then Room.revokeLockedAllowedUser userKey r1
             else r1)
          userKeys room in
      mkHandled
        (Some (AckSuccess [("success", Js.JBool true);
                           ("revoked", jstrs userKeys);
                           ("access", Http.accessJson room')]))
        [] (Some room'))).

(** [socket.on("lockRoom", ({ locked }, cb) => ...)] *)
Definition lockRoom (context : ConnectionContext) (data : Js.Json)
    : HandlerResult :=
  guarded context (fun room _ =>
    let '(changed, room', effs) :=
      applyRoomPolicyUpdate room
        (mkUpdate (Http.boolField "locked" data) None None None None) in
    mkHandled
      (Some (AckSuccess [("success", Js.JBool true);
                         ("locked", Js.JBool (Room.isLocked room'));
                         ("changed", Http.changedJson changed)]))
      effs (Some room')).

End AdminSocket.

(* ===================================================================== *)
(** ** Minutes: single-flight generation per channel
       (the [POST /minutes] route of [createApp.ts]) *)
(* ===================================================================== *)

Module Minutes.

(** The bytes of a rendered PDF. *)
Definition Pdf : Type := string.

Inductive Response :=
| PdfResponse (filename : string) (pdf : Pdf)
    (** 200, [application/pdf], [attachment; filename=...] *)
| ErrorResponse (status : Z) (error : string).

(** What the route reads from a request; [clientId = None] is the
    [undefined] that the destructuring default turns into ["default"]. *)
Record MinutesRequest := mkMinutesRequest {
  secretHeader : option string;
  roomId : Js.Json;
  clientId : option string;
}.

(** A request suspended at [await inFlight] ([starter = false]) or at
    [await generation] ([starter = true]). *)
Record Waiter := mkWaiter {
  promise : nat;
  request : nat;
  waiterRoomId : string;
  starter : bool;
}.

(** The route runs on one thread: a handler runs undisturbed up to its
    first [await], and when the generation promise settles, the
    continuations of all requests awaiting it run before the next request
    is taken up.  The state between such turns:
    - [minutesGenerationInFlight]: the registry, channel id to promise;
    - [cachedMinutes]: what [getCachedMinutes]/[setCachedMinutes] keep
      (modelled from the spec: [server/rooms.ts] is not among the sources;
      the minutes cache is keyed by [channelId]);
    - [pending]: the promises not yet settled, each with the [channelId]
      and [isRoomActive] its generation closed over;
    - [waiters]: the suspended requests, in arrival order;
    - [generatorCalls]: one entry per start of the async generation
      (summarize, then render the PDF);
    - [responses]: what has been answered, request id first. *)
Record State := mkState {
  minutesGenerationInFlight : gmap string nat;
  cachedMinutes : gmap string Pdf;
  pending : gmap nat (string * bool);
  waiters : list Waiter;
  generatorCalls : list (string * nat);
  responses : list (nat * Response);
  nextPromise : nat;
}.

Definition init : State := mkState ∅ ∅ ∅ [] [] [] 0.

Inductive Event :=
| Arrive (req : nat) (r : MinutesRequest) (isRoomActive : bool)
    (** a request is taken up; [isRoomActive] is what the route computes
        from [state.rooms] at that moment *)
| Settle (generation : nat) (outcome : option Pdf)
    (** the generation promise is fulfilled with a PDF, or rejected; what
        the summarizer and the PDF renderer produce is not modelled, it is
        given by the event *).

Definition respond (req : nat) (res : Response) (st : State) : State :=
  mkState (minutesGenerationInFlight st) (cachedMinutes st) (pending st)
          (waiters st) (generatorCalls st) (responses st ++ [(req, res)])
          (nextPromise st).

(** [res.end(pdf)] with the two headers. *)
Definition pdfFor (roomId : string) (pdf : Pdf) : Response :=
  PdfResponse ("minutes-" +:+ roomId +:+ ".pdf") pdf.

Definition failed : Response :=
  ErrorResponse 500 "Failed to generate minutes".

(** The channel a request is about, when it passes the [roomId] check. *)
Definition requestChannel (r : MinutesRequest) : option (string * string) :=
  match roomId r with
  | Js.JStr rid =>
      if decide (rid = "") then None
      else Some (rid, getRoomChannelId (default "default" (clientId r)) rid)
  | _ => None
  end.

(** The handler from its entry to its first [await] (or to its response,
    when it sends one without waiting). *)
Definition arrive (sfuSecret : string) (req : nat) (r : MinutesRequest)
    (isRoomActive : bool) (st : State) : State :=
  if negb (Http.hasValidSecret
             (Http.mkRequest (secretHeader r) None Js.JUndefined [] Js.JUndefined)
             sfuSecret)
  then respond req (ErrorResponse 401 "Unauthorized") st
  else
    match requestChannel r with
    | None => respond req (ErrorResponse 400 "roomId required") st
    | Some (rid, channelId) =>
        match (if isRoomActive then None else cachedMinutes st !! channelId) with
        | Some cached => respond req (pdfFor rid cached) st
        | None =>
            match minutesGenerationInFlight st !! channelId with
            | Some inFlight =>
                mkState (minutesGenerationInFlight st) (cachedMinutes st)
                        (pending st)
                        (waiters st ++ [mkWaiter inFlight req rid false])
                        (generatorCalls st) (responses st) (nextPromise st)
            | None =>
                let generation := nextPromise st in
                mkState (<[channelId := generation]>
                           (minutesGenerationInFlight st))
                        (cachedMinutes st)
                        (<[generation := (channelId, isRoomActive)]>
                           (pending st))
                        (waiters st ++ [mkWaiter generation req rid true])
                        (generatorCalls st ++ [(channelId, generation)])
                        (responses st)
                        (S generation)
            end
        end
    end.

(** What a suspended request answers once its promise has settled;
    [cache] is the minutes cache at that moment. *)
Definition answer (channelId : string) (isRoomActive : bool)
    (cache : gmap string Pdf) (outcome : option Pdf) (w : Waiter)
    : nat * Response :=
  (request w,
   match outcome with
   | Some pdf => pdfFor (waiterRoomId w) pdf
   | None =>
       if starter w then
         match (if isRoomActive then None else cache !! channelId) with
         | Some fallbackPdf => pdfFor (waiterRoomId w) fallbackPdf
         | None => failed
         end
       else failed
   end).

(** The generation promise settles: the generation has stored its PDF in
    the cache if the room was inactive, every request awaiting the promise
    answers, and the [finally] of the starter takes the promise out of the
    registry if it is still the registered one. *)
Definition settle (generation : nat) (outcome : option Pdf) (st : State)
    : State :=
  match (pending st !! generation : option (string * bool)) with
  | None => st
  | Some (channelId, isRoomActive) =>
      let cache : gmap string Pdf :=
        match outcome with
        | Some pdf =>
            if isRoomActive then cachedMinutes st
            else <[channelId := pdf]> (cachedMinutes st)
        | None => cachedMinutes st
        end in
      mkState
        (if decide (minutesGenerationInFlight st !! channelId
                    = Some generation)
         then delete channelId (minutesGenerationInFlight st)
         else minutesGenerationInFlight st)
        cache
        (delete generation (pending st))
        (List.filter (fun w => negb (bool_decide (promise w = generation)))
                     (waiters st))
        (generatorCalls st)
        (responses st
         ++ map (answer channelId isRoomActive cache outcome)
                (List.filter (fun w => bool_decide (promise w = generation))
                             (waiters st)))
        (nextPromise st)
  end.

Definition step (sfuSecret : string) (st : State) (e : Event) : State :=
  match e with
  | Arrive req r isRoomActive => arrive sfuSecret req r isRoomActive st
  | Settle generation outcome => settle generation outcome st
  end.

(** The state after the events of [history], from a fresh process. *)
Definition run (sfuSecret : string) (history : list Event) : State :=
  fold_left (step sfuSecret) history init.

End Minutes.

(* ===================================================================== *)
(** ** The registry of room transcribers
       ([server/recording/roomTranscriber.ts]) *)
(* ===================================================================== *)

Module Transcribers.
Import Transcriber.

(** [new RoomTranscriber(router)]: nothing transcribed, no partial, no
    producer, not stopped. *)
Definition fresh : State := mkState [] "" None false.

(** [ensureRoomTranscriber(channelId, router)] on the module-level map
    [transcribers]: the transcriber of the channel, made and registered
    when the channel has none. *)
Definition ensureRoomTranscriber (channelId : string)
    (transcribers : gmap string State) : State * gmap string State :=
  match transcribers !! channelId with
  | Some transcriber => (transcriber, transcribers)
  | None => (fresh, <[channelId := fresh]> transcribers)
  end.

(** [stopRoomTranscriber(channelId)], at wall-clock time [now]: the
    transcript of the stopped transcriber, and the map without it. *)
Definition stopRoomTranscriber (now : Z) (channelId : string)
    (transcribers : gmap string State)
    : list TranscriptChunk * gmap string State :=
  match transcribers !! channelId with
  | None => ([], transcribers)
  | Some transcriber =>
      (getTranscript (transcript (stop now transcriber)),
       delete channelId transcribers)
  end.

End Transcribers.

(* ===================================================================== *)
(** ** Rejecting the waiting room ([server/admin/controlPlane.ts]) *)
(* ===================================================================== *)

Module Admission.
Import ControlPlane.

(** One turn of the first loop of [rejectAllPendingUsers]. *)
Definition rejectOne (acc : Room.t * list Effect * list PendingRef)
    (pending : Pending.t) : Room.t * list Effect * list PendingRef :=
  let '(room, effects, rejected) := acc in
  (Room.removePendingClient (Pending.userKey pending) room,
   effects ++ [SocketEmit (Pending.socket pending) "joinRejected"
                 Js.JUndefined],
   rejected ++ [(Pending.userId pending, Pending.userKey pending)]).

(** [rejectAllPendingUsers(room)] *)
Definition rejectAllPendingUsers (room : Room.t)
    : list PendingRef * Room.t * list Effect :=
  let pendingUsers := Room.pendingClients room in
  let '(room', effects, rejected) :=
    fold_left rejectOne pendingUsers (room, [], []) in
  (rejected, room',
   effects ++
   concat (map (fun admin =>
                  map (fun user : PendingRef =>
                         SocketEmit (Client.socket admin) "userRejected"
                           (Js.JObj [("userId", jstr (snd user));
                                     ("roomId", jstr (Room.id room'))]))
                      rejected)
               (Room.getAdmins room'))).

End Admission.

(* ===================================================================== *)
(** ** Operator routes for moderation ([server/http/createApp.ts]) *)
(* ===================================================================== *)

Module HttpModeration.
Import ControlPlane Http.

(** What [parseMediaKinds] and [parseMediaTypes] return: [null] for a
    value that is refused, [undefined] for no restriction, or the list. *)
Inductive MediaFilter (A : Type) :=
| Refused
| Unrestricted
| Only (items : list A).

Arguments Refused {A}.
Arguments Unrestricted {A}.
Arguments Only {A} items.

(** The selector field a filter stands for. *)
Definition toField {A} (f : MediaFilter A) : option (list A) :=
  match f with
  | Only items => Some items
  | _ => None
  end.

(** [entry === "audio" || entry === "video"] *)
Definition toKind (entry : Js.Json) : option MediaKind :=
  match entry with
  | Js.JStr s =>
      if decide (s = "audio") then Some audio
      else if decide (s = "video") then Some video
      else None
  | _ => None
  end.

(** [entry === "webcam" || entry === "screen"] *)
Definition toType (entry : Js.Json) : option ProducerType :=
  match entry with
  | Js.JStr s =>
      if decide (s = "webcam") then Some webcam
      else if decide (s = "screen") then Some screen
      else None
  | _ => None
  end.

(** The [for] loop of the two parsers: the entries read so far are kept
    until one is refused. *)
Fixpoint parseEntries {A} (read : Js.Json → option A) (value : list Js.Json)
    : option (list A) :=
  match value with
  | [] => Some []
  | entry :: rest =>
      match read entry with
      | Some item =>
          match parseEntries read rest with
          | Some items => Some (item :: items)
          | None => None
          end
      | None => None
      end
  end.

Definition parseMedia {A} (read : Js.Json → option A) (value : Js.Json)
    : MediaFilter A :=
  match value with
  | Js.JUndefined => Unrestricted
  | Js.JArr [] => Unrestricted
  | Js.JArr entries =>
      match parseEntries read entries with
      | Some items => Only items
      | None => Refused
      end
  | _ => Refused
  end.

(** [parseMediaKinds(value)] *)
Definition parseMediaKinds (value : Js.Json) : MediaFilter MediaKind :=
  parseMedia toKind value.

(** [parseMediaTypes(value)] *)
Definition parseMediaTypes (value : Js.Json) : MediaFilter ProducerType :=
  parseMedia toType value.

(** The [overrides] argument of [handleUserMediaControl]. *)
Record Overrides := mkOverrides {
  overrideKinds : option (list MediaKind);
  overrideTypes : option (list ProducerType);
  defaultReason : option string;
}.

(** [overrides?.kinds ?? parseMediaKinds(req.body?.kinds)], and the same
    for the types. *)
Definition requested {A} (override : option (list A))
    (parsed : MediaFilter A) : MediaFilter A :=
  match override with
  | Some items => Only items
  | None => parsed
  end.

(** [toStringOrEmpty(req.body?.reason) || overrides?.defaultReason
     || "Operator moderation action"] *)
Definition mediaReason (overrides : option Overrides) (req : Request)
    : string :=
  stringOr (Js.getField "reason" (body req))
    (match overrides ≫= defaultReason with
     | Some r => if decide (r = "") then "Operator moderation action" else r
     | None => "Operator moderation action"
     end).

(** [handleUserMediaControl(req, res, overrides)] *)
Definition handleUserMediaControl (overrides : option Overrides)
    (env : Env) (state : SfuState) (req : Request) : RouteResult :=
  withRoom true env state req (fun room =>
    let userId := Js.toStringOrEmpty (param "userId" req) in
    if decide (userId = "") then
      mkResult (mkResponse 400 (errorBody "User ID is required"))
               [] (Some room)
    else
      match requested (overrides ≫= overrideKinds)
              (parseMediaKinds (Js.getField "kinds" (body req))) with
      | Refused =>
          mkResult (mkResponse 400 (errorBody "Invalid media kinds"))
                   [] (Some room)
      | requestedKinds =>
          match requested (overrides ≫= overrideTypes)
                  (parseMediaTypes (Js.getField "types" (body req))) with
          | Refused =>
              mkResult (mkResponse 400 (errorBody "Invalid media types"))
                       [] (Some room)
          | requestedTypes =>
              let '(result, room', effs) :=
                closeClientProducers room userId
                  (Some (mkSelector (toField requestedKinds)
                                    (toField requestedTypes)))
                  (mediaReason overrides req) in
              mkResult
                (mkResponse 200
                   (Js.JObj
                      [("success", Js.JBool true);
                       ("userId", jstr userId);
                       ("affectedProducers", jnat (closedCount result));
                       ("producers",
                        Js.JArr (map closedProducerJson
                                     (closedProducers result)))]))
                effs (Some room')
          end
      end).



(** [POST /admin/rooms/:roomId/users/:userId/video-off] *)
Definition postUserVideoOff : Env → SfuState → Request → RouteResult :=
  handleUserMediaControl
    (Some (mkOverrides (Some [video]) (Some [webcam])
                       (Some "Camera turned off by operator"))).




(** One turn of the loop of
    [POST /admin/rooms/:roomId/users/remove-non-admins]. *)
Definition removeStep (includeGhosts includeAttendees : bool)
    (reason : string) (room : Room.t)
    (acc : list Effect * list string) (client : Client.t)
    : list Effect * list string :=
  let '(effects, kickedUserIds) := acc in
  if Client.isAdmin client then acc
  else if negb includeGhosts && Client.isGhost client then acc
  else if negb includeAttendees && Client.isWebinarAttendee client then acc
  else
    (effects
     ++ [SocketEmit (Client.socket client) "kicked"
           (Js.JObj [("reason", jstr reason);
                     ("roomId", jstr (Room.id room))]);
         SocketDisconnect (Client.socket client)],
     kickedUserIds ++ [Client.id client]).

(** [POST /admin/rooms/:roomId/users/remove-non-admins] *)
Definition postRemoveNonAdmins (env : Env) (state : SfuState)
    (req : Request) : RouteResult :=
  withRoom false env state req (fun room =>
    let includeGhosts :=
      Js.truthy (Js.getField "includeGhosts" (body req)) in
    let includeAttendees :=
      Js.truthy (Js.getField "includeAttendees" (body req)) in
    let reason :=
      stringOr (Js.getField "reason" (body req))
               "Meeting reset by operator" in
    let '(effs, kickedUserIds) :=
      fold_left (removeStep includeGhosts includeAttendees reason room)
                (Room.clients room) ([], []) in
    mkResult
      (mkResponse 200
         (Js.JObj [("success", Js.JBool true);
                   ("roomId", jstr (Room.id room));
                   ("kickedCount", jnat (length kickedUserIds));
                   ("kickedUserIds", jstrs kickedUserIds)]))
      effs (Some room)).

(** [POST /admin/rooms/:roomId/pending/:userKey/reject] *)
Definition postPendingReject (env : Env) (state : SfuState) (req : Request)
    : RouteResult :=
  withRoom true env state req (fun room =>
    let userKey := Js.toStringOrEmpty (param "userKey" req) in
    if decide (userKey = "") then
      mkResult (mkResponse 400 (errorBody "Pending user key is required"))
               [] (Some room)
    else
      match Room.getPending userKey room with
      | None =>
          mkResult (mkResponse 404 (errorBody "Pending user not found"))
                   [] (Some room)
      | Some pending =>
          let room1 := Room.removePendingClient userKey room in
          mkResult
            (mkResponse 200
               (Js.JObj [("success", Js.JBool true);
                         ("roomId", jstr (Room.id room1));
                         ("userKey", jstr userKey)]))
            ([SocketEmit (Pending.socket pending) "joinRejected"
                Js.JUndefined]
             ++ notifyAdmins room1 "userRejected" userKey
             ++ [emitPendingUsersSnapshot room1])
            (Some room1)
      end).


Definition DEFAULT_END_ROOM_MESSAGE : string :=
  "This meeting has been ended by the host.".
Definition MAX_END_ROOM_DELAY_MS : Z := 30000.

(** [parseEndRoomDelay(value)] *)
Definition parseEndRoomDelay (value : Js.Json) : Z :=
  match value with
  | Js.JNum (Js.Finite q) =>
      if QArith_base.Qle_bool q (QArith_base.inject_Z 0) then 0
      else Z.min (Qround.Qfloor q) MAX_END_ROOM_DELAY_MS
  | _ => 0
  end.

(** [parseEndRoomMessage(value)] *)
Definition parseEndRoomMessage (value : Js.Json) : string :=
  match value with
  | Js.JStr s =>
      let trimmed := Js.trim s in
      if decide (trimmed = "") then DEFAULT_END_ROOM_MESSAGE else trimmed
  | _ => DEFAULT_END_ROOM_MESSAGE
  end.

(** What the end route does to the sockets, in program order. *)
Inductive EndStep :=
| Send (e : Effect)
| ForceCloseRoom (channelId : string)
    (** [forceCloseRoom(state, roomChannelId)] ([server/rooms.ts]), which is
        not among the sources; a call is recorded as one step of its
        own. *).

(** [forceCloseRoomWithSockets(io, roomChannelId, pendingSockets)] *)
Definition forceCloseRoomWithSockets (roomChannelId : string)
    (pendingSockets : list SocketId) : list EndStep :=
  [Send (ChannelDisconnect roomChannelId)]
  ++ map (fun pendingSocket => Send (SocketDisconnect pendingSocket))
         pendingSockets
  ++ [ForceCloseRoom roomChannelId].

(** What [POST /admin/rooms/:roomId/end] leaves behind: the response, the
    steps run before the response is sent, and the steps handed to
    [setTimeout] with their delay. *)
Record EndResult := mkEndResult {
  endResponse : Response;
  endNow : list EndStep;
  endLater : option (Z * list EndStep);
}.

(** [POST /admin/rooms/:roomId/end] *)
Definition postRoomEnd (env : Env) (state : SfuState) (req : Request)
    : EndResult :=
  if negb (hasValidSecret req (sfuSecret env)) then
    mkEndResult (mkResponse 401 (errorBody "Unauthorized")) [] None
  else if negb (ioReady env) then
    mkEndResult (mkResponse 503 (errorBody "Socket server unavailable"))
                [] None
  else
    match resolveRoomForAdmin state req with
    | inl res => mkEndResult res [] None
    | inr (room, _) =>
        let roomChannelId := Room.channelId room in
        let delayMs := parseEndRoomDelay (Js.getField "delayMs" (body req)) in
        let message :=
          parseEndRoomMessage (Js.getField "message" (body req)) in
        let pendingSockets := map Pending.socket (Room.pendingClients room) in
        let ended :=
          Js.JObj [("roomId", jstr (Room.id room));
                   ("message", jstr message);
                   ("endedBy", jstr "operator")] in
        let notices :=
          [Send (ChannelEmit roomChannelId "roomEnded" ended)]
          ++ map (fun pendingSocket =>
                    Send (SocketEmit pendingSocket "roomEnded" ended))
                 pendingSockets in
        let closeNow :=
          forceCloseRoomWithSockets roomChannelId pendingSockets in
        let res :=
          mkResponse 200
            (Js.JObj [("success", Js.JBool true);
                      ("roomId", jstr (Room.id room));
                      ("channelId", jstr (Room.channelId room));
                      ("delayMs", jnum delayMs)]) in
        if 0 <? delayMs
        then mkEndResult res notices (Some (delayMs, closeNow))
        else mkEndResult res (notices ++ closeNow) None
    end.

End HttpModeration.

(* ===================================================================== *)
(** ** Administrator socket events for moderation and the waiting room
       ([server/socket/handlers/adminHandlers.ts]) *)
(* ===================================================================== *)

Module SocketModeration.
Import ControlPlane AdminSocket.

(** [respond(callback, payload)] ([server/socket/handlers/ack.ts]): the
    payload reaches the callback when the client gave one. *)
Definition respond (callback : bool) (payload : Ack) : option Ack :=
  if callback then Some payload else None.

(** The opening of a handler: [ensureAdminRoom], and the error it gives
    passed to the callback. *)
Definition guard (context : ConnectionContext) (cb : bool)
    (handler : Room.t → string → HandlerResult) : HandlerResult :=
  match ensureAdminRoom context with
  | inl error =>
      mkHandled (respond cb (AckError error)) [] (currentRoom context)
  | inr (room, adminId) => handler room adminId
  end.

(** [socket.on("kickUser", ({ userId: targetId }, cb) => ...)];
    [targetId] is the [userId] property of the payload. *)
Definition kickUser (context : ConnectionContext) (targetId : Js.Json)
    (cb : bool) : HandlerResult :=
  guard context cb (fun room adminId =>
    match targetId with
    | Js.JStr target =>
        if decide (target = "") then
          mkHandled (respond cb (AckError "Invalid user ID")) [] (Some room)
        else if decide (target = adminId) then
          mkHandled (respond cb (AckError "Cannot kick yourself")) []
                    (Some room)
        else
          let '(kicked, effs) := kickClient room target "Removed by host" in
          if kicked then
            mkHandled (respond cb (AckSuccess [("success", Js.JBool true)]))
                      effs (Some room)
          else
            mkHandled (respond cb (AckError "User not found")) effs
                      (Some room)
    | _ => mkHandled (respond cb (AckError "Invalid user ID")) [] (Some room)
    end).









(** [room.pendingClients.get(targetId)] for a [userId] taken from a
    payload. *)
Definition pendingFor (room : Room.t) (targetId : Js.Json)
    : option Pending.t :=
  match targetId with
  | Js.JStr userKey => Room.getPending userKey room
  | _ => None
  end.


(** [socket.on("rejectUser", ({ userId: targetId }, cb) => ...)] *)
Definition rejectUser (context : ConnectionContext) (targetId : Js.Json)
    (cb : bool) : HandlerResult :=
  guard context cb (fun room _ =>
    match pendingFor room targetId with
    | Some pending =>
        let userKey := Pending.userKey pending in
        let room1 := Room.removePendingClient userKey room in
        mkHandled (respond cb (AckSuccess [("success", Js.JBool true)]))
                  ([SocketEmit (Pending.socket pending) "joinRejected"
                      Js.JUndefined]
                   ++ notifyAdmins room1 "userRejected" userKey)
                  (Some room1)
    | None =>
        mkHandled (respond cb (AckError "User not found in waiting room"))
                  [] (Some room)
    end).




End SocketModeration.

(* ===================================================================== *)
(** ** Notions used to state the properties, and the rooms and requests
       of the worked examples *)
(* ===================================================================== *)

Module JsTerms.
Import Js.

(** [s] does not start with white space. *)
Definition headOk (s : string) : Prop :=
  match s with
  | EmptyString => True
  | String c _ => isWhiteSpace c = false
  end.

End JsTerms.

Module LookupTerms.
Import ControlPlane Http.

(** The rooms of the registry whose id is [roomId], in registry order. *)
Definition roomsWithId (state : SfuState) (roomId : string) : list Room.t :=
  List.filter (fun room => bool_decide (Room.id room = roomId))
              (map snd (rooms state)).

(** An empty room [roomId] of tenant [clientId]. *)
Definition tenantRoom (clientId roomId : string) : Room.t :=
  Room.mk roomId (getRoomChannelId clientId roomId) clientId
          [] [] [] ∅ ∅ ∅ false false false false true None.

(** Two tenants that each own a room [rX]. *)
Definition twoTenants : SfuState :=
  mkSfuState [("t1:rX", tenantRoom "t1" "rX"); ("t2:rX", tenantRoom "t2" "rX")]
             false.

(** [GET /admin/rooms/rX] without a client id. *)
Definition getRoomX : Request :=
  mkRequest (Some "s3cret") None Js.JUndefined [("roomId", "rX")]
            Js.JUndefined.

End LookupTerms.

Module DrainTerms.
Import Http.

(** The notice the drain sends to the channel of [room]. *)
Definition roomNotice (restartNotice : string) (room : Room.t) : Effect :=
  ChannelEmit (Room.channelId room) "serverRestarting"
    (Js.JObj [("roomId", jstr (Room.id room));
              ("message", jstr restartNotice);
              ("reconnecting", Js.JBool true)]).

(** The notice the drain sends to a pending socket. *)
Definition pendingNotice (restartNotice : string) (socket : SocketId)
    : Effect :=
  SocketEmit socket "serverRestarting"
    (Js.JObj [("message", jstr restartNotice);
              ("reconnecting", Js.JBool true)]).

(** The [pendingSockets] set once the first loop has run over [roomList]. *)
Definition collectSockets (roomList : list Room.t) (sockets : list SocketId)
    : list SocketId :=
  fold_left
    (fun sockets room =>
       fold_left (fun sockets pending => setAdd (Pending.socket pending) sockets)
                 (Room.pendingClients room) sockets)
    roomList sockets.

(** A locked room of the default tenant with the given pending entries. *)
Definition waitingRoom (roomId : string) (pending : list Pending.t)
    : Room.t :=
  Room.mk roomId (getRoomChannelId "default" roomId) "default"
          [] [] pending ∅ ∅ ∅ true false false false true None.

(** Two rooms, one of them with a pending entry. *)
Definition drainState : SfuState :=
  mkSfuState
    [("default:r1",
      waitingRoom "r1" [Pending.mk "alice@x.y" "alice@x.y#s1" "sock-a" None]);
     ("default:r2", waitingRoom "r2" [])]
    false.

(** [POST /drain] with [{draining: true, force: true, noticeMs: 100}]. *)
Definition forceDrain : Request :=
  mkRequest (Some "s3cret") None Js.JUndefined []
    (Js.JObj [("draining", Js.JBool true); ("force", Js.JBool true);
              ("noticeMs", jnum 100)]).

End DrainTerms.

Module AccessTerms.
Import ControlPlane.

(** The keys an access route parses from the body of [req]. *)
Definition requestedKeys (req : Http.Request) : option (list string) :=
  Http.parseUserKeys (Js.nullish (Js.getField "userKeys" (Http.body req))
                                 (Js.getField "userKey" (Http.body req))).

(** The pending entry of the waiting-room scenario. *)
Definition alice : Pending.t :=
  Pending.mk "alice@x.y" "alice@x.y#s1" "sock-alice" None.


(** The operator secret, and a socket server that is up. *)
Definition operatorEnv : Http.Env := Http.mkEnv "s3cret" true.

(** A registry that holds [room] alone. *)
Definition registry (room : Room.t) : SfuState :=
  mkSfuState [(Room.channelId room, room)] false.


(** The room of a loop accumulator. *)
Definition accRoom {A B} (acc : Room.t * A * B) : Room.t := acc.1.1.

End AccessTerms.

Module AccessClaimTerms.
Import ControlPlane AccessTerms.

(** An identity to allow and to block. *)
Definition mallory : string := "mallory@x.y".

(** Room [r1] with [mallory] blocked. *)
Definition blockedRoom : Room.t :=
  Room.mk "r1" "default:r1" "default" [] [] [] ∅ ∅ {[mallory]}
          false false false false true None.

(** The body [{userKeys: [...]}]. *)
Definition keysBody (userKeys : list string) : Js.Json :=
  Js.JObj [("userKeys", jstrs userKeys)].

(** An access request for room [r1] with the given keys. *)
Definition accessRequest (userKeys : list string) : Http.Request :=
  Http.mkRequest (Some "s3cret") None Js.JUndefined [("roomId", "r1")]
                 (keysBody userKeys).

(** Room [r1] with empty access lists. *)
Definition openRoom : Room.t :=
  Room.mk "r1" "default:r1" "default" [] [] [] ∅ ∅ ∅
          false false false false true None.

(** The room object after [mallory] has been allowed in [openRoom]. *)
Definition afterAllow : Room.t :=
  default openRoom
    (Http.room (Http.postAccessAllow operatorEnv (registry openRoom)
                                     (accessRequest [mallory]))).

(** An event sent to one socket. *)
Definition isSocketEmit (e : Effect) : Prop :=
  match e with
  | SocketEmit _ _ _ => True
  | _ => False
  end.

(** The locked step of [applyRoomPolicyUpdate] on its own. *)
Definition lockedStep (room : Room.t) (b : bool) : Room.t :=
  if b then
    Room.withLockedAllowedUsers
      (list_to_set (map snd (Room.userKeysById room))
       ∪ Room.lockedAllowedUsers room)
      (Room.setLocked b room)
  else Room.setLocked b room.

(** Room [r1], locked, with [alice] waiting and her key allowed. *)
Definition allowedAlice : Room.t :=
  Room.mk "r1" "default:r1" "default" [] [] [alice] {[ "alice@x.y" ]} ∅ ∅
          true false false false true None.

(** The update [{locked: false}]. *)
Definition unlock : RoomPolicyUpdate :=
  mkUpdate (Some false) None None None None.

End AccessClaimTerms.

Module ModerationTerms.
Import ControlPlane.

(** The ids of the producers of a list of clients, in map order. *)
Definition producerIds (cs : list Client.t) : list string :=
  concat (map (fun c => map producerId (Client.producers c)) cs).

(** The number of producers of a list of clients. *)
Definition totalProducers (cs : list Client.t) : nat :=
  sum_list (map (fun c => length (Client.producers c)) cs).

(** A participant with a microphone and a screen share. *)
Definition bob : Client.t :=
  Client.mk "bob@x.y#s1" "sock-bob" false false false
            [mkProducerInfo "p-audio" audio webcam false;
             mkProducerInfo "p-screen" video screen false].

(** An admin with a microphone. *)
Definition carol : Client.t :=
  Client.mk "carol@x.y#s1" "sock-carol" true false false
            [mkProducerInfo "c-audio" audio webcam false].

(** Room [r1] with [carol] and [bob]; [bob] shares his screen. *)
Definition meeting : Room.t :=
  Room.mk "r1" "default:r1" "default" [carol; bob]
          [("carol@x.y#s1", "carol@x.y"); ("bob@x.y#s1", "bob@x.y")]
          [] ∅ ∅ ∅ false false false false true (Some "p-screen").

End ModerationTerms.

Module BulkTerms.
Import ControlPlane AdminSocket ModerationTerms.

(** The room-wide [admin:bulkMediaEnforced] broadcast. *)
Definition isBulkEvent (e : Effect) : Prop :=
  match e with
  | ChannelEmit _ event _ => event = "admin:bulkMediaEnforced"
  | _ => False
  end.

(** The [userId] field of an [admin:mediaEnforced] event. *)
Definition enforcedUser (e : Effect) : option Js.Json :=
  match e with
  | SocketEmit _ event payload =>
      if decide (event = "admin:mediaEnforced")
      then Some (Js.getField "userId" payload) else None
  | _ => None
  end.

(** [c'] is [c] with, at most, other producers. *)
Definition sameButProducers (c c' : Client.t) : Prop :=
  Client.withProducers (Client.producers c) c' = c.

(** Only the clients with id [userId] may differ between the two lists, and
    they differ in their producers at most. *)
Definition touchesOnly (userId : string) (cs cs' : list Client.t) : Prop :=
  Forall2 (fun c c' => sameButProducers c c' ∧ (Client.id c ≠ userId → c' = c))
          cs cs'.

(** An event that is neither the bulk broadcast nor a media-enforced
    notice. *)
Definition quiet (e : Effect) : Prop :=
  ¬ isBulkEvent e ∧ enforcedUser e = None.

(** An event of [closeClientProducers] is never the bulk broadcast, and a
    media-enforced notice among them is about [userId]. *)
Definition about (userId : string) (e : Effect) : Prop :=
  ¬ isBulkEvent e ∧ ∀ j, enforcedUser e = Some j → j = jstr userId.

(** A client that the first test of the loop of
    [performBulkMediaClosure] skips. *)
Definition spared (inclAdmins : option bool) (c : Client.t) : Prop :=
  unset inclAdmins && Client.isAdmin c = true.

(** The id of a client of [room0] that the loop did not skip as an
    admin. *)
Definition treated (room0 : Room.t) (inclAdmins : option bool)
    (userId : string) : Prop :=
  ∃ x, x ∈ Room.clients room0 ∧ ¬ spared inclAdmins x ∧ Client.id x = userId.

(** What holds of the room, the events and the tally after any number of
    turns of the loop of [performBulkMediaClosure] that started from
    [room0]. *)
Definition bulkInv (room0 : Room.t) (inclAdmins : option bool)
    (acc : Room.t * list Effect * BulkResult) : Prop :=
  let '(room, effs, tally) := acc in
  Forall2 (fun c0 c => sameButProducers c0 c ∧ (spared inclAdmins c0 → c = c0))
          (Room.clients room0) (Room.clients room)
  ∧ (totalProducers (Room.clients room) + affectedProducers tally
     = totalProducers (Room.clients room0))%nat
  ∧ Forall (treated room0 inclAdmins) (users tally)
  ∧ Forall (fun e => ¬ isBulkEvent e
                     ∧ ∀ j, enforcedUser e = Some j →
                            ∃ u, treated room0 inclAdmins u ∧ j = jstr u) effs.

End BulkTerms.

Module MinutesTerms.
Import Minutes.

(** What every state of the route satisfies: the registry and the set of
    unsettled promises mirror each other, every unsettled promise was
    started by a generator call, and no two generator calls share a
    promise. *)
Record Inv (st : State) : Prop := mkInv {
  inv_registered :
    ∀ ch g, minutesGenerationInFlight st !! ch = Some g →
            ∃ active, pending st !! g = Some (ch, active);
  inv_pending :
    ∀ g ch active, pending st !! g = Some (ch, active) →
                   minutesGenerationInFlight st !! ch = Some g;
  inv_called :
    ∀ g ch active, pending st !! g = Some (ch, active) →
                   (ch, g) ∈ generatorCalls st;
  inv_fresh :
    ∀ ch g, (ch, g) ∈ generatorCalls st → (g < nextPromise st)%nat;
  inv_once : NoDup (map snd (generatorCalls st));
}.

(** [POST /minutes] for room [rid] of the default tenant. *)
Definition minutesFor (rid : string) : MinutesRequest :=
  mkMinutesRequest (Some "s3cret") (Js.JStr rid) None.

(** Two requests for the minutes of the ended room [r1]. *)
Definition twoRequests : list Event :=
  [Arrive 1 (minutesFor "r1") false; Arrive 2 (minutesFor "r1") false].

End MinutesTerms.

(* ===================================================================== *)
(** ** Terms of the statements on transcripts, keys, admission, media,
       policies, the end of a room, refusals and the minutes ledger *)
(* ===================================================================== *)

Module TranscriptTerms.
Import Js Transcriber.

(** [spaced afterSpace s]: every white-space code unit of [s] is a SPACE
    that does not follow another SPACE; [afterSpace] tells that the code
    unit before [s] was a SPACE. *)
Fixpoint spaced (afterSpace : bool) (s : string) : bool :=
  match s with
  | EmptyString => true
  | String c rest =>
      if isWhiteSpace c
      then Ascii.eqb c " "%char && negb afterSpace && spaced true rest
      else spaced false rest
  end.

(** The only white space of [s] is single SPACEs. *)
Definition singleSpaced (s : string) : bool := spaced false s.

(** The transcript after [appendTranscript] has been called with each of
    [chunks] in turn, on a new transcriber. *)
Definition appended (chunks : list TranscriptChunk) : list TranscriptChunk :=
  fold_left appendTranscript chunks [].

(** Two chunks that [appendTranscript] takes for one utterance. *)
Definition sameUtterance (a b : TranscriptChunk) : Prop :=
  text a = text b
  ∧ Z.abs (endMs a - endMs b) < 1500
  ∧ speakerOrEmpty (speaker a) = speakerOrEmpty (speaker b).

(** No two neighbours of the transcript are one utterance. *)
Fixpoint neighboursDiffer (transcript : list TranscriptChunk) : Prop :=
  match transcript with
  | a :: (b :: _) as rest => ¬ sameUtterance a b ∧ neighboursDiffer rest
  | _ => True
  end.

(** A transcriber that has heard a final result and a partial one. *)
Definition listening : State :=
  mkState [mkChunk 1000 2000 "hello world" (Some "p1")] "and then" (Some "p1")
          false.

End TranscriptTerms.


Module KeyTerms.

(** A user key as the access lists hold it: not empty, and with nothing to
    trim. *)
Definition normalKey (k : string) : Prop := k ≠ "" ∧ Js.trim k = k.

(** [typeof value === "string"] *)
Definition isString (value : Js.Json) : bool :=
  match value with
  | Js.JStr _ => true
  | _ => false
  end.

End KeyTerms.


Module AdmissionTerms.
Import ControlPlane.

(** The [{ userId, userKey }] entries for a list of pending entries. *)
Definition refs (pending : list Pending.t) : list PendingRef :=
  map (fun p => (Pending.userId p, Pending.userKey p)) pending.

(** The user keys of a list of pending entries. *)
Definition keysOf (pending : list Pending.t) : list string :=
  map Pending.userKey pending.

(** [event], without payload, to the socket of each pending entry. *)
Definition toPending (event : string) (pending : list Pending.t)
    : list Effect :=
  map (fun p => SocketEmit (Pending.socket p) event Js.JUndefined) pending.

(** [event] about each of [userKeys], to each admin of [room]: admin by
    admin, and key by key for each admin. *)
Definition toAdmins (room : Room.t) (event : string) (userKeys : list string)
    : list Effect :=
  concat (map (fun admin =>
                 map (fun userKey =>
                        SocketEmit (Client.socket admin) event
                          (Js.JObj [("userId", jstr userKey);
                                    ("roomId", jstr (Room.id room))]))
                     userKeys)
              (Room.getAdmins room)).

(** Two waiting users of a locked room that has one admin. *)
Definition dave : Pending.t :=
  Pending.mk "dave@x.y" "dave@x.y#s1" "sock-dave" (Some "Dave").

Definition erin : Pending.t :=
  Pending.mk "erin@x.y" "erin@x.y#s1" "sock-erin" None.

Definition host : Client.t :=
  Client.mk "host@x.y#s1" "sock-host" true false false [].

Definition lobby : Room.t :=
  Room.mk "r1" "default:r1" "default" [host]
          [("host@x.y#s1", "host@x.y")] [dave; erin] ∅ ∅ ∅
          true false false false true None.

(** [POST /admin/rooms/r1/pending/dave@x.y/reject] *)
Definition rejectDave : Http.Request :=
  Http.mkRequest (Some "s3cret") None Js.JUndefined
                 [("roomId", "r1"); ("userKey", "dave@x.y")] Js.JUndefined.

End AdmissionTerms.


Module MediaTerms.
Import ControlPlane ModerationTerms.

(** A media kind and a producer type as the payloads spell them. *)
Definition kindJson (k : MediaKind) : Js.Json := jstr (kindName k).
Definition typeJson (t : ProducerType) : Js.Json := jstr (typeName t).

(** The producers of [c] that the selector matches, and the others. *)
Definition selected (selector : option Selector) (c : Client.t)
    : list ProducerInfo :=
  List.filter (fun info => shouldCloseProducer info selector)
              (Client.producers c).

Definition unselected (selector : option Selector) (c : Client.t)
    : list ProducerInfo :=
  List.filter (fun info => negb (shouldCloseProducer info selector))
              (Client.producers c).

(** The entry of [closedProducers] for a producer. *)
Definition closedEntry (p : ProducerInfo) : ClosedProducer :=
  (producerId p, kind p, type p).

(** The selector of the video-off route. *)
Definition webcamVideo : Selector := mkSelector (Some [video]) (Some [webcam]).

(** The clients that the remove-non-admins loop does not skip. *)
Definition removable (includeGhosts includeAttendees : bool) (c : Client.t)
    : bool :=
  negb (Client.isAdmin c)
  && (includeGhosts || negb (Client.isGhost c))
  && (includeAttendees || negb (Client.isWebinarAttendee c)).

(** What a kicked client is sent. *)
Definition kickOut (room : Room.t) (reason : string) (c : Client.t)
    : list Effect :=
  [SocketEmit (Client.socket c) "kicked"
     (Js.JObj [("reason", jstr reason); ("roomId", jstr (Room.id room))]);
   SocketDisconnect (Client.socket c)].

(** The [admin:mediaEnforced] notice of [closeProducerById]. *)
Definition enforcedNotice (room : Room.t) (owner : Client.t)
    (p : ProducerInfo) : Effect :=
  SocketEmit (Client.socket owner) "admin:mediaEnforced"
    (Js.JObj [("roomId", jstr (Room.id room));
              ("userId", jstr (Client.id owner));
              ("producerId", jstr (producerId p));
              ("kind", jstr (kindName (kind p)));
              ("type", jstr (typeName (type p)));
              ("action", jstr "closed")]).

(** A participant with a microphone, a camera and a screen share. *)
Definition frank : Client.t :=
  Client.mk "frank@x.y#s1" "sock-frank" false false false
            [mkProducerInfo "f-audio" audio webcam false;
             mkProducerInfo "f-cam" video webcam false;
             mkProducerInfo "f-screen" video screen false].

(** Room [r1] with the admin [carol], a ghost and [frank]. *)
Definition ghost : Client.t :=
  Client.mk "ghost@x.y#s1" "sock-ghost" false true false [].

Definition studio : Room.t :=
  Room.mk "r1" "default:r1" "default" [carol; ghost; frank]
          [("carol@x.y#s1", "carol@x.y"); ("ghost@x.y#s1", "ghost@x.y");
           ("frank@x.y#s1", "frank@x.y")]
          [] ∅ ∅ ∅ false false false false true (Some "f-screen").

(** [POST /admin/rooms/r1/users/frank@x.y#s1/video-off] *)
Definition cameraOff : Http.Request :=
  Http.mkRequest (Some "s3cret") None Js.JUndefined
                 [("roomId", "r1"); ("userId", "frank@x.y#s1")]
                 (Js.JObj [("kinds", Js.JArr [jstr "audio"])]).

(** [POST /admin/rooms/r1/users/remove-non-admins] *)
Definition resetMeeting : Http.Request :=
  Http.mkRequest (Some "s3cret") None Js.JUndefined [("roomId", "r1")]
                 (Js.JObj []).

(** The connection of the admin [carol] in [studio]. *)
Definition carolContext : AdminSocket.ConnectionContext :=
  AdminSocket.mkContext (Some studio) (Some carol).

End MediaTerms.


Module PolicyTerms.
Import ControlPlane.

(** The number of fields a [changed] object carries. *)
Definition changes (changed : RoomPolicyUpdate) : nat :=
  length (omap id [locked changed; chatLocked changed; noGuests changed;
                   ttsDisabled changed; dmEnabled changed]).

(** The user keys of the participants, from the back-lookup map. *)
Definition presentKeys (room : Room.t) : gset string :=
  list_to_set (map snd (Room.userKeysById room)).

(** An open room with two participants. *)
Definition classroom : Room.t :=
  Room.mk "r1" "default:r1" "default" []
          [("ann@x.y#s1", "ann@x.y"); ("ben@x.y#s1", "ben@x.y")]
          [] ∅ ∅ ∅ false false false false true None.

(** The update [{locked: true, dmEnabled: false}]. *)
Definition lockDown : RoomPolicyUpdate :=
  mkUpdate (Some true) None None None (Some false).

End PolicyTerms.


Module EndTerms.
Import Http HttpModeration.

(** The [roomEnded] payload of the operator route. *)
Definition endedPayload (room : Room.t) (message : string) : Js.Json :=
  Js.JObj [("roomId", jstr (Room.id room));
           ("message", jstr message);
           ("endedBy", jstr "operator")].

(** The notices of the end route: the room's channel first, then the
    socket of each pending entry. *)
Definition endNotices (room : Room.t) (message : string) : list EndStep :=
  Send (ChannelEmit (Room.channelId room) "roomEnded"
          (endedPayload room message))
  :: map (fun p => Send (SocketEmit (Pending.socket p) "roomEnded"
                           (endedPayload room message)))
         (Room.pendingClients room).

(** The closing steps of the end route: the room's channel is
    disconnected, then the socket of each pending entry, then the room is
    closed. *)
Definition endClosing (room : Room.t) : list EndStep :=
  Send (ChannelDisconnect (Room.channelId room))
  :: map (fun p => Send (SocketDisconnect (Pending.socket p)))
         (Room.pendingClients room)
  ++ [ForceCloseRoom (Room.channelId room)].

(** [POST /admin/rooms/r1/end] with [{delayMs: 2500.7}]. *)
Definition endSoon : Request :=
  mkRequest (Some "s3cret") None Js.JUndefined [("roomId", "r1")]
    (Js.JObj [("delayMs",
               Js.JNum (Js.Finite (QArith_base.Qmake 25007 10)))]).

(** [POST /drain] with [{draining: true}]. *)
Definition softDrain : Request :=
  mkRequest (Some "s3cret") None Js.JUndefined []
    (Js.JObj [("draining", Js.JBool true)]).

End EndTerms.


Module GuardTerms.
Import ControlPlane.











End GuardTerms.

Module MinutesLedgerTerms.
Import Minutes.

(** The ids of the requests taken up in [history], in order. *)
Definition arrivals (history : list Event) : list nat :=
  omap (fun e => match e with
                 | Arrive req _ _ => Some req
                 | Settle _ _ => None
                 end) history.

(** The ids of the requests answered so far, and of those suspended. *)
Definition answered (st : State) : list nat := map fst (responses st).
Definition suspended (st : State) : list nat := map request (waiters st).

(** Every suspended request waits on a promise that has not settled. *)
Definition waiting (st : State) : Prop :=
  ∀ w, w ∈ waiters st → is_Some (pending st !! promise w).

(** The request [r] passes the secret check of the route. *)
Definition authorized (sfuSecret : string) (r : MinutesRequest) : bool :=
  Http.hasValidSecret
    (Http.mkRequest (secretHeader r) None Js.JUndefined [] Js.JUndefined)
    sfuSecret.

(** A request for the ended room [r1], its generation fulfilled, and a
    second request. *)
Definition servedTwice : list Event :=
  [Arrive 1 (MinutesTerms.minutesFor "r1") false;
   Settle 0 (Some "%PDF-1.3");
   Arrive 2 (MinutesTerms.minutesFor "r1") false].

End MinutesLedgerTerms.


(* ===================================================================== *)
(** * Properties *)
(* ===================================================================== *)

(* ===================================================================== *)
(** ** Transcript de-duplication *)
(* ===================================================================== *)

Module TranscriberFacts.
Import Transcriber.

Example normalize_example :
  normalizeText "  hello   big
 world " = "hello big world".
Proof. reflexivity. Qed.

Lemma snoc_neq {A} (l : list A) (x : A) : l ++ [x] ≠ l.
Proof.
  intros H. apply (f_equal length) in H. rewrite length_app in H.
  simpl in H. lia.
Qed.

Lemma isDuplicate_spec l norm chunk :
  isDuplicate l norm chunk = true ↔
  text l = norm ∧ Z.abs (endMs l - endMs chunk) < 1500
  ∧ speakerOrEmpty (speaker l) = speakerOrEmpty (speaker chunk).
Proof.
  unfold isDuplicate. rewrite !andb_true_iff, !bool_decide_eq_true.
  tauto.
Qed.

(** C7. For a chunk whose normalised text is not empty, the append is
    suppressed (the transcript is returned unchanged) exactly when a last
    chunk exists whose text equals the normalised text, whose [endMs] is
    less than 1500 ms away and whose speaker matches; in every other case
    the chunk, with its text normalised, becomes the new last element. *)
Theorem append_suppressed_iff_duplicate
    (transcript : list TranscriptChunk) (chunk : TranscriptChunk) :
  normalizeText (text chunk) ≠ "" →
  let norm := normalizeText (text chunk) in
  let dup := ∃ l, last transcript = Some l ∧ text l = norm
                  ∧ Z.abs (endMs l - endMs chunk) < 1500
                  ∧ speakerOrEmpty (speaker l)
                    = speakerOrEmpty (speaker chunk) in
  (appendTranscript transcript chunk = transcript ↔ dup)
  ∧ (¬ dup →
     appendTranscript transcript chunk
     = transcript ++
       [mkChunk (startMs chunk) (endMs chunk) norm (speaker chunk)]).
Proof.
  intros Hne norm dup. unfold appendTranscript.
  fold norm. rewrite bool_decide_eq_false_2 by exact Hne.
  destruct (last transcript) as [l|] eqn:Hlast.
  - destruct (isDuplicate l norm chunk) eqn:Hd.
    + apply isDuplicate_spec in Hd. split.
      * split; [intros _; exists l; tauto | reflexivity].
      * intros Hn. exfalso. apply Hn. exists l. tauto.
    + split; [split|reflexivity].
      * intros H. exfalso. exact (snoc_neq _ _ H).
      * intros (l' & Hl' & Hrest). exfalso.
        assert (l' = l) by congruence. subst l'.
        apply isDuplicate_spec in Hrest. congruence.
  - split; [split|reflexivity].
    + intros H. exfalso. exact (snoc_neq _ _ H).
    + intros (l' & Hl' & _). discriminate.
Qed.

Lemma append_suppressed_iff_duplicate_witness :
  let t := [mkChunk 1000 2000 "hello world" (Some "p1")] in
  let c := mkChunk 1500 2600 " hello   world " (Some "p1") in
  normalizeText (text c) ≠ "" ∧ appendTranscript t c = t.
Proof.
  intros t c.
  assert (Hne : normalizeText (text c) ≠ "") by (vm_compute; discriminate).
  split; [exact Hne|].
  apply (proj1 (append_suppressed_iff_duplicate t c Hne)).
  exists (mkChunk 1000 2000 "hello world" (Some "p1")).
  vm_compute. repeat split; reflexivity.
Defined.

End TranscriberFacts.

(* ===================================================================== *)
(** ** Facts about [trim] *)
(* ===================================================================== *)

Module JsFacts.
Import Js JsTerms.

Lemma trimStart_headOk s : headOk (trimStart s).
Proof.
  induction s as [|c rest IH]; simpl; [exact I|].
  destruct (isWhiteSpace c) eqn:Hc; [exact IH | simpl; exact Hc].
Qed.

Lemma trimStart_fixed s : headOk s → trimStart s = s.
Proof. destruct s as [|c rest]; simpl; [done|]. by intros ->. Qed.

Lemma trimEnd_headOk s : headOk s → headOk (trimEnd s).
Proof.
  destruct s as [|c rest]; simpl; [done|]. intros Hc.
  destruct (trimEnd rest); simpl; [rewrite Hc; simpl|]; exact Hc.
Qed.

Lemma trimEnd_idem s : trimEnd (trimEnd s) = trimEnd s.
Proof.
  induction s as [|c rest IH]; simpl; [done|].
  destruct (trimEnd rest) as [|d t] eqn:Ht.
  - destruct (isWhiteSpace c) eqn:Hc; simpl; [done|]. by rewrite Hc.
  - change (trimEnd (String c (String d t))) with
      (match trimEnd (String d t) with
       | EmptyString =>
           if isWhiteSpace c then EmptyString else String c EmptyString
       | u => String c u
       end).
    by rewrite IH.
Qed.

Lemma trim_idem s : trim (trim s) = trim s.
Proof.
  unfold trim.
  rewrite (trimStart_fixed (trimEnd (trimStart s))).
  - apply trimEnd_idem.
  - apply trimEnd_headOk, trimStart_headOk.
Qed.

Lemma toStringOrEmpty_trimmed v :
  trim (toStringOrEmpty v) = toStringOrEmpty v.
Proof. destruct v; simpl; try done. apply trim_idem. Qed.

End JsFacts.

(* ===================================================================== *)
(** ** Room lookup and tenant disambiguation *)
(* ===================================================================== *)

Module LookupFacts.
Import ControlPlane Http LookupTerms.

Lemma resolveClientId_trimmed req clientId :
  resolveClientId req = Some clientId →
  Js.trim clientId = clientId ∧ clientId ≠ "".
Proof.
  unfold resolveClientId.
  pose proof (JsFacts.toStringOrEmpty_trimmed (queryClientId req)) as Hq.
  pose proof (JsFacts.toStringOrEmpty_trimmed
                (match clientHeader req with
                 | Some h => jstr h
                 | None => Js.JUndefined
                 end)) as Hh.
  destruct (decide (Js.toStringOrEmpty (queryClientId req) = ""));
    case_decide; intros [= <-]; done.
Qed.

(** C8. With a non-empty (trimmed) room id in the path: when the request
    names no tenant and more than one room of the registry has that id, the
    answer is 409 with the error string and the channel id of every such
    room; when the request names a tenant, the answer is the room
    registered under that tenant's channel id, or 404 "Room not found". *)
Theorem ambiguous_lookup_conflict (state : SfuState) (req : Request) :
  let roomId := Js.toStringOrEmpty (param "roomId" req) in
  roomId ≠ "" →
  (resolveClientId req = None →
   (1 < length (roomsWithId state roomId))%nat →
   resolveRoomForAdmin state req
   = inl (mkResponse 409
            (Js.JObj
               [("error", jstr "Room ID is ambiguous. Provide a clientId.");
                ("candidates",
                 jstrs (map Room.channelId (roomsWithId state roomId)))])))
  ∧ (∀ clientId, resolveClientId req = Some clientId →
     resolveRoomForAdmin state req
     = match Js.assoc (getRoomChannelId clientId roomId) (rooms state) with
       | Some room => inr (room, getRoomChannelId clientId roomId)
       | None => inl (mkResponse 404 (errorBody "Room not found"))
       end).
Proof.
  intros roomId Hne.
  assert (Htrim : Js.trim roomId = roomId).
  { apply JsFacts.toStringOrEmpty_trimmed. }
  assert (Hlookup :
            resolveRoomForAdmin state req
            = match resolveRoom state roomId (resolveClientId req) with
              | LookupError error (Some candidates) =>
                  inl (mkResponse 409
                         (Js.JObj [("error", jstr error);
                                   ("candidates", jstrs candidates)]))
              | LookupError error None => inl (mkResponse 404 (errorBody error))
              | Found room channelId => inr (room, channelId)
              end).
  { unfold resolveRoomForAdmin. fold roomId.
    by destruct (decide (roomId = "")). }
  rewrite Hlookup. clear Hlookup. unfold resolveRoom. rewrite Htrim.
  destruct (decide (roomId = "")); [done|].
  split.
  - intros -> Hmany. simpl.
    destruct (decide ("" ≠ "")); [done|].
    unfold roomsWithId in Hmany |- *.
    destruct (List.filter _ _) as [|r1 [|r2 rest]]; simpl in Hmany;
      [lia | lia | reflexivity].
  - intros clientId Hsome. rewrite Hsome. simpl.
    destruct (resolveClientId_trimmed _ _ Hsome) as [-> Hc].
    destruct (decide (clientId ≠ "")); [|done].
    by destruct (Js.assoc _ _).
Qed.

Lemma ambiguous_lookup_conflict_witness :
  resolveRoomForAdmin twoTenants getRoomX
  = inl (mkResponse 409
           (Js.JObj
              [("error", jstr "Room ID is ambiguous. Provide a clientId.");
               ("candidates", jstrs ["t1:rX"; "t2:rX"])])).
Proof.
  refine (proj1 (ambiguous_lookup_conflict twoTenants getRoomX _) _ _).
  - vm_compute. discriminate.
  - reflexivity.
  - vm_compute. lia.
Defined.

End LookupFacts.

(* ===================================================================== *)
(** ** Forced drain: notices first, then the wait, then the disconnects *)
(* ===================================================================== *)

Module DrainFacts.
Import Http DrainTerms.

Lemma noticeRoom_fold restartNotice roomList effects sockets :
  fold_left (noticeRoom restartNotice) roomList (effects, sockets)
  = (effects ++ map (roomNotice restartNotice) roomList,
     collectSockets roomList sockets).
Proof.
  revert effects sockets.
  induction roomList as [|room rest IH]; intros effects sockets; simpl.
  - by rewrite app_nil_r.
  - unfold collectSockets in IH. rewrite IH, <- app_assoc. reflexivity.
Qed.

Lemma elem_of_setAdd s x l : s ∈ setAdd x l ↔ s = x ∨ s ∈ l.
Proof.
  unfold setAdd. case_bool_decide as Hx.
  - split; [by right | intros [->|]; done].
  - rewrite elem_of_app, list_elem_of_singleton. tauto.
Qed.

Lemma NoDup_setAdd x l : NoDup l → NoDup (setAdd x l).
Proof.
  intros Hl. unfold setAdd. case_bool_decide as Hx; [done|].
  apply NoDup_app. split_and!; [done | | apply NoDup_singleton].
  intros y Hy Hy'. apply list_elem_of_singleton in Hy'. by subst.
Qed.

Lemma elem_of_addPending s (ps : list Pending.t) sockets :
  s ∈ fold_left (fun sockets pending => setAdd (Pending.socket pending) sockets)
                ps sockets
  ↔ s ∈ sockets ∨ ∃ p, p ∈ ps ∧ Pending.socket p = s.
Proof.
  revert sockets. induction ps as [|p rest IH]; intros sockets; simpl.
  - split; [by left | intros [?|(p & Hp & _)]; [done | by inversion Hp]].
  - rewrite IH, elem_of_setAdd. split.
    + intros [[-> | ?] | (q & Hq & <-)].
      * right. exists p. split; [left | done].
      * by left.
      * right. exists q. split; [by right | done].
    + intros [? | (q & Hq & <-)]; [by left; right |].
      apply elem_of_cons in Hq as [-> | Hq]; [by left; left |].
      right. by exists q.
Qed.

Lemma NoDup_addPending (ps : list Pending.t) sockets :
  NoDup sockets →
  NoDup (fold_left
           (fun sockets pending => setAdd (Pending.socket pending) sockets)
           ps sockets).
Proof.
  revert sockets. induction ps as [|p rest IH]; intros sockets H; simpl;
    [done | by apply IH, NoDup_setAdd].
Qed.

Lemma elem_of_collectSockets s roomList sockets :
  s ∈ collectSockets roomList sockets
  ↔ s ∈ sockets
    ∨ ∃ room p, room ∈ roomList ∧ p ∈ Room.pendingClients room
                ∧ Pending.socket p = s.
Proof.
  revert sockets. induction roomList as [|room rest IH]; intros sockets.
  - simpl. split; [by left | intros [?|(r & p & Hr & _)]; [done|]].
    by inversion Hr.
  - change (collectSockets (room :: rest) sockets)
      with (collectSockets rest
              (fold_left (fun sockets pending =>
                            setAdd (Pending.socket pending) sockets)
                         (Room.pendingClients room) sockets)).
    rewrite IH, elem_of_addPending. split.
    + intros [[? | (p & Hp & <-)] | (r & p & Hr & Hp & <-)].
      * by left.
      * right. exists room, p. split_and!; [left | done | done].
      * right. exists r, p. split_and!; [by right | done | done].
    + intros [? | (r & p & Hr & Hp & <-)]; [by left; left |].
      apply elem_of_cons in Hr as [-> | Hr].
      * left; right. by exists p.
      * right. by exists r, p.
Qed.

Lemma NoDup_collectSockets roomList sockets :
  NoDup sockets → NoDup (collectSockets roomList sockets).
Proof.
  revert sockets. induction roomList as [|room rest IH]; intros sockets H;
    [done|].
  apply IH, NoDup_addPending, H.
Qed.

Lemma parseRestartNoticeMs_le value :
  parseRestartNoticeMs value ≤ MAX_SERVER_RESTART_NOTICE_MS.
Proof.
  unfold parseRestartNoticeMs, MAX_SERVER_RESTART_NOTICE_MS,
    DEFAULT_SERVER_RESTART_NOTICE_MS.
  destruct value as [| | |[q| | |]| | |]; try lia.
  destruct (QArith_base.Qle_bool _ _); lia.
Qed.

(** C5. A forced drain ([draining: true], [force: true], socket server
    ready) sets the draining flag and sends exactly, in this order: one
    [serverRestarting] notice to the channel of every room; one
    [serverRestarting] notice to every distinct socket of a pending entry;
    at most one wait, of more than 0 and at most 30000 ms; the disconnect
    of every room channel; the disconnect of every pending socket.  So no
    disconnect precedes a notice, and the room sockets go before the
    pending sockets. *)
Theorem forced_drain_notice_then_disconnect
    (env : Env) (state : SfuState) (req : Request) :
  ioReady env = true →
  Js.getField "draining" (body req) = Js.JBool true →
  Js.getField "force" (body req) = Js.JBool true →
  ∃ restartNotice sockets wait res,
    handleDrain env state req
    = (mkSfuState (rooms state) true,
       map (roomNotice restartNotice) (map snd (rooms state))
       ++ map (pendingNotice restartNotice) sockets
       ++ wait
       ++ map (fun room => ChannelDisconnect (Room.channelId room))
              (map snd (rooms state))
       ++ map SocketDisconnect sockets,
       res)
    ∧ status res = 200
    ∧ NoDup sockets
    ∧ (∀ s, s ∈ sockets ↔
            ∃ room p, room ∈ map snd (rooms state)
                      ∧ p ∈ Room.pendingClients room ∧ Pending.socket p = s)
    ∧ (wait = [] ∨ ∃ ms, wait = [Sleep ms] ∧ 0 < ms ≤ 30000).
Proof.
  intros Hio Hdrain Hforce.
  assert (Hb : Js.nullish (body req) (Js.JObj []) = body req).
  { destruct (body req); simpl in *; done. }
  unfold handleDrain. rewrite Hb, Hdrain, Hforce. simpl.
  rewrite Hio. simpl. rewrite noticeRoom_fold. simpl.
  set (ms := parseRestartNoticeMs _).
  eexists _, _, _, _. split; [reflexivity|].
  split_and!.
  - reflexivity.
  - apply NoDup_collectSockets, NoDup_nil_2.
  - intros s. rewrite elem_of_collectSockets. split.
    + intros [H | H]; [by inversion H | exact H].
    + intros H. by right.
  - pose proof (parseRestartNoticeMs_le (Js.getField "noticeMs" (body req))).
    fold ms in H. unfold MAX_SERVER_RESTART_NOTICE_MS in H.
    destruct (0 <? ms) eqn:Hms; [right | by left].
    exists ms. apply Z.ltb_lt in Hms. split; [done | lia].
Qed.

Lemma forced_drain_notice_then_disconnect_witness :
  ∃ restartNotice sockets wait res,
    handleDrain (mkEnv "s3cret" true) drainState forceDrain
    = (mkSfuState (rooms drainState) true,
       map (roomNotice restartNotice) (map snd (rooms drainState))
       ++ map (pendingNotice restartNotice) sockets
       ++ wait
       ++ map (fun room => ChannelDisconnect (Room.channelId room))
              (map snd (rooms drainState))
       ++ map SocketDisconnect sockets,
       res)
    ∧ status res = 200
    ∧ NoDup sockets.
Proof.
  destruct (forced_drain_notice_then_disconnect
              (mkEnv "s3cret" true) drainState forceDrain
              eq_refl eq_refl eq_refl)
    as (restartNotice & sockets & wait & res & Heq & Hstatus & Hnd & _).
  by exists restartNotice, sockets, wait, res.
Defined.

(** The same drain, computed: two room notices, the notice to the pending
    socket, the wait of 100 ms, the two room disconnects, the disconnect of
    the pending socket. *)
Example forced_drain_trace :
  (handleDrain (mkEnv "s3cret" true) drainState forceDrain).1.2
  = [roomNotice DEFAULT_SERVER_RESTART_NOTICE
       (waitingRoom "r1"
          [Pending.mk "alice@x.y" "alice@x.y#s1" "sock-a" None]);
     roomNotice DEFAULT_SERVER_RESTART_NOTICE (waitingRoom "r2" []);
     pendingNotice DEFAULT_SERVER_RESTART_NOTICE "sock-a";
     Sleep 100;
     ChannelDisconnect "default:r1";
     ChannelDisconnect "default:r2";
     SocketDisconnect "sock-a"].
Proof. vm_compute. reflexivity. Qed.

End DrainFacts.

(* ===================================================================== *)
(** ** Waiting room, access lists and policy updates *)
(* ===================================================================== *)

Module AccessFacts.
Import ControlPlane AccessTerms.

(** *** The guards of the two surfaces *)

Lemma resolveRoomForAdmin_error state req res :
  Http.resolveRoomForAdmin state req = inl res → Http.status res ≠ 200.
Proof.
  unfold Http.resolveRoomForAdmin. case_decide; [by intros [= <-]|].
  destruct (resolveRoom _ _ _) as [|error [candidates|]];
    intros [= <-]; done.
Qed.

Lemma withRoom_ok needIo env state req route :
  Http.status (Http.response (Http.withRoom needIo env state req route)) = 200 →
  ∃ room channelId,
    Http.resolveRoomForAdmin state req = inr (room, channelId)
    ∧ Http.withRoom needIo env state req route = route room.
Proof.
  unfold Http.withRoom.
  destruct (negb (Http.hasValidSecret _ _)); [done|].
  destruct (needIo && negb (Http.ioReady env)); [done|].
  destruct (Http.resolveRoomForAdmin state req) as [res|[room ch]] eqn:Hres.
  - intros H. by apply resolveRoomForAdmin_error in Hres.
  - intros _. by exists room, ch.
Qed.

Lemma http_withUserKeys_ok req route :
  Http.status (Http.response (Http.withUserKeys req route)) = 200 →
  ∃ userKeys, requestedKeys req = Some userKeys
              ∧ Http.withUserKeys req route = route userKeys.
Proof.
  unfold Http.withUserKeys, requestedKeys.
  destruct (Http.parseUserKeys _) as [[|k ks]|]; try done.
  intros _. by eexists.
Qed.

Lemma guarded_ok context handler :
  AdminSocket.succeeded (AdminSocket.guarded context handler) = true →
  ∃ room adminId,
    AdminSocket.currentRoom context = Some room
    ∧ AdminSocket.guarded context handler = handler room adminId.
Proof.
  unfold AdminSocket.guarded, AdminSocket.ensureAdminRoom.
  destruct (AdminSocket.currentRoom context) as [room|]; [|done].
  destruct (AdminSocket.currentClient context) as [client|]; [|done].
  destruct (Client.isAdmin client); [|done].
  intros _. by eexists _, _.
Qed.

Lemma socket_withUserKeys_ok room data handler :
  AdminSocket.succeeded (AdminSocket.withUserKeys room data handler) = true →
  ∃ userKeys,
    AdminSocket.parseUserKeys (Js.getField "userKeys" data) = Some userKeys
    ∧ AdminSocket.withUserKeys room data handler = handler userKeys.
Proof.
  unfold AdminSocket.withUserKeys.
  destruct (AdminSocket.parseUserKeys _) as [[|k ks]|]; try done.
  intros _. by eexists.
Qed.

(** *** The waiting room under the admit route *)

Lemma getPending_Some userKey room pending :
  Room.getPending userKey room = Some pending →
  Pending.userKey pending = userKey.
Proof.
  unfold Room.getPending. intros H. apply find_some in H as [_ H].
  by apply bool_decide_eq_true in H.
Qed.




(** *** The access sets under the four access operations *)

Lemma allowOne_access allowWhenLocked acc userKey :
  let room := accRoom acc in
  let room' := accRoom (Http.allowOne allowWhenLocked acc userKey) in
  Room.allowedUsers room' = {[userKey]} ∪ Room.allowedUsers room
  ∧ Room.blockedUsers room' = Room.blockedUsers room ∖ {[userKey]}.
Proof.
  destruct acc as [[room effects] admitted]. unfold Http.allowOne, accRoom.
  destruct (Room.getPending userKey room); simpl;
    destruct (allowWhenLocked || Room.isLocked room); done.
Qed.

Lemma allow_fold_access allowWhenLocked userKeys acc :
  let room := accRoom acc in
  let room' := accRoom (fold_left (Http.allowOne allowWhenLocked) userKeys acc) in
  Room.allowedUsers room' = list_to_set userKeys ∪ Room.allowedUsers room
  ∧ Room.blockedUsers room' = Room.blockedUsers room ∖ list_to_set userKeys.
Proof.
  revert acc. induction userKeys as [|k rest IH]; intros acc; simpl.
  - split; set_solver.
  - destruct (IH (Http.allowOne allowWhenLocked acc k)) as [Ha Hb].
    destruct (allowOne_access allowWhenLocked acc k) as [Ha1 Hb1].
    simpl in *. rewrite Ha, Hb, Ha1, Hb1. split; set_solver.
Qed.

Lemma socket_allowOne_eq : AdminSocket.allowOne = Http.allowOne.
Proof. reflexivity. Qed.

Lemma block_fold_access (step : Http.BlockAcc → string → Http.BlockAcc)
    userKeys acc :
  (∀ acc k,
     Room.allowedUsers (Http.blockRoom (step acc k))
     = Room.allowedUsers (Http.blockRoom acc)
     ∧ Room.blockedUsers (Http.blockRoom (step acc k))
       = {[k]} ∪ Room.blockedUsers (Http.blockRoom acc)) →
  let room := Http.blockRoom acc in
  let room' := Http.blockRoom (fold_left step userKeys acc) in
  Room.allowedUsers room' = Room.allowedUsers room
  ∧ Room.blockedUsers room' = list_to_set userKeys ∪ Room.blockedUsers room.
Proof.
  intros Hstep. revert acc.
  induction userKeys as [|k rest IH]; intros acc; simpl.
  - split; set_solver.
  - destruct (IH (step acc k)) as [Ha Hb]. destruct (Hstep acc k) as [Ha1 Hb1].
    simpl in *. rewrite Ha, Hb, Ha1, Hb1. split; set_solver.
Qed.

Lemma http_blockOne_access kickPresent reason acc k :
  Room.allowedUsers (Http.blockRoom (Http.blockOne kickPresent reason acc k))
  = Room.allowedUsers (Http.blockRoom acc)
  ∧ Room.blockedUsers (Http.blockRoom (Http.blockOne kickPresent reason acc k))
    = {[k]} ∪ Room.blockedUsers (Http.blockRoom acc).
Proof.
  unfold Http.blockOne.
  destruct (Room.getPending k (Http.blockRoom acc));
    destruct kickPresent; simpl;
    try destruct (Http.kickSessions _ _ _); done.
Qed.

Lemma socket_blockOne_access kickPresent reason acc k :
  Room.allowedUsers
    (Http.blockRoom (AdminSocket.blockOne kickPresent reason acc k))
  = Room.allowedUsers (Http.blockRoom acc)
  ∧ Room.blockedUsers
      (Http.blockRoom (AdminSocket.blockOne kickPresent reason acc k))
    = {[k]} ∪ Room.blockedUsers (Http.blockRoom acc).
Proof.
  unfold AdminSocket.blockOne.
  destruct (Room.getPending k (Http.blockRoom acc));
    destruct kickPresent; simpl;
    try destruct (Http.kickSessions _ _ _); done.
Qed.

Lemma unblock_fold_access userKeys room :
  let room' :=
    fold_left (fun r userKey => Room.unblockUser userKey r) userKeys room in
  Room.allowedUsers room' = Room.allowedUsers room
  ∧ Room.blockedUsers room' = Room.blockedUsers room ∖ list_to_set userKeys.
Proof.
  revert room. induction userKeys as [|k rest IH]; intros room; simpl.
  - split; set_solver.
  - destruct (IH (Room.unblockUser k room)) as [Ha Hb]. simpl in *.
    rewrite Ha, Hb. simpl. split; set_solver.
Qed.

Lemma revoke_fold_access (step : Room.t → string → Room.t) userKeys room :
  (∀ r k, Room.allowedUsers (step r k) = Room.allowedUsers r ∖ {[k]}
          ∧ Room.blockedUsers (step r k) = Room.blockedUsers r) →
  let room' := fold_left step userKeys room in
  Room.allowedUsers room' = Room.allowedUsers room ∖ list_to_set userKeys
  ∧ Room.blockedUsers room' = Room.blockedUsers room.
Proof.
  intros Hstep. revert room.
  induction userKeys as [|k rest IH]; intros room; simpl.
  - split; set_solver.
  - destruct (IH (step room k)) as [Ha Hb]. destruct (Hstep room k) as [Ha1 Hb1].
    simpl in *. rewrite Ha, Hb, Ha1, Hb1. split; set_solver.
Qed.

(** What each access operation does to [allowedUsers] and [blockedUsers],
    on either surface, when it succeeds. *)

Lemma http_allow_access env state req :
  let result := Http.postAccessAllow env state req in
  Http.status (Http.response result) = 200 →
  ∃ room channelId userKeys room',
    Http.resolveRoomForAdmin state req = inr (room, channelId)
    ∧ requestedKeys req = Some userKeys
    ∧ Http.room result = Some room'
    ∧ Room.allowedUsers room' = list_to_set userKeys ∪ Room.allowedUsers room
    ∧ Room.blockedUsers room' = Room.blockedUsers room ∖ list_to_set userKeys.
Proof.
  intros result Hok. subst result. unfold Http.postAccessAllow in *.
  destruct (withRoom_ok _ _ _ _ _ Hok) as (room & ch & Hres & Heq).
  rewrite Heq in Hok |- *. clear Heq.
  destruct (http_withUserKeys_ok _ _ Hok) as (userKeys & Hkeys & Heq).
  rewrite Heq. clear Heq Hok.
  pose proof (allow_fold_access
                (Http.notFalse (Js.getField "allowWhenLocked" (Http.body req)))
                userKeys (room, [], [])) as H.
  destruct (fold_left _ userKeys _) as [[room' effs] admitted].
  exists room, ch, userKeys, room'. split_and!; try done; apply H.
Qed.

Lemma socket_allow_access context data :
  let result := AdminSocket.allowUsers context data in
  AdminSocket.succeeded result = true →
  ∃ room userKeys room',
    AdminSocket.currentRoom context = Some room
    ∧ AdminSocket.parseUserKeys (Js.getField "userKeys" data) = Some userKeys
    ∧ AdminSocket.room result = Some room'
    ∧ Room.allowedUsers room' = list_to_set userKeys ∪ Room.allowedUsers room
    ∧ Room.blockedUsers room' = Room.blockedUsers room ∖ list_to_set userKeys.
Proof.
  intros result Hok. subst result. unfold AdminSocket.allowUsers in *.
  destruct (guarded_ok _ _ Hok) as (room & adminId & Hroom & Heq).
  rewrite Heq in Hok |- *. clear Heq.
  destruct (socket_withUserKeys_ok _ _ _ Hok) as (userKeys & Hkeys & Heq).
  rewrite Heq. clear Heq Hok.
  pose proof (allow_fold_access
                (Http.notFalse (Js.getField "allowWhenLocked" data))
                userKeys (room, [], [])) as H.
  rewrite socket_allowOne_eq.
  destruct (fold_left _ userKeys _) as [[room' effs] admitted].
  exists room, userKeys, room'. split_and!; try done; apply H.
Qed.

Lemma http_block_access env state req :
  let result := Http.postAccessBlock env state req in
  Http.status (Http.response result) = 200 →
  ∃ room channelId userKeys room',
    Http.resolveRoomForAdmin state req = inr (room, channelId)
    ∧ requestedKeys req = Some userKeys
    ∧ Http.room result = Some room'
    ∧ Room.allowedUsers room' = Room.allowedUsers room
    ∧ Room.blockedUsers room' = list_to_set userKeys ∪ Room.blockedUsers room.
Proof.
  intros result Hok. subst result. unfold Http.postAccessBlock in *.
  destruct (withRoom_ok _ _ _ _ _ Hok) as (room & ch & Hres & Heq).
  rewrite Heq in Hok |- *. clear Heq.
  destruct (http_withUserKeys_ok _ _ Hok) as (userKeys & Hkeys & Heq).
  rewrite Heq. clear Heq Hok. simpl.
  eexists room, ch, userKeys, _. split_and!; try done;
    apply (block_fold_access _ userKeys (Http.mkBlockAcc room [] [] []));
    apply http_blockOne_access.
Qed.

Lemma socket_block_access context data :
  let result := AdminSocket.blockUsers context data in
  AdminSocket.succeeded result = true →
  ∃ room userKeys room',
    AdminSocket.currentRoom context = Some room
    ∧ AdminSocket.parseUserKeys (Js.getField "userKeys" data) = Some userKeys
    ∧ AdminSocket.room result = Some room'
    ∧ Room.allowedUsers room' = Room.allowedUsers room
    ∧ Room.blockedUsers room' = list_to_set userKeys ∪ Room.blockedUsers room.
Proof.
  intros result Hok. subst result. unfold AdminSocket.blockUsers in *.
  destruct (guarded_ok _ _ Hok) as (room & adminId & Hroom & Heq).
  rewrite Heq in Hok |- *. clear Heq.
  destruct (socket_withUserKeys_ok _ _ _ Hok) as (userKeys & Hkeys & Heq).
  rewrite Heq. clear Heq Hok. simpl.
  eexists room, userKeys, _. split_and!; try done;
    apply (block_fold_access _ userKeys (Http.mkBlockAcc room [] [] []));
    apply socket_blockOne_access.
Qed.

Lemma http_unblock_access env state req :
  let result := Http.postAccessUnblock env state req in
  Http.status (Http.response result) = 200 →
  ∃ room channelId userKeys room',
    Http.resolveRoomForAdmin state req = inr (room, channelId)
    ∧ requestedKeys req = Some userKeys
    ∧ Http.room result = Some room'
    ∧ Room.allowedUsers room' = Room.allowedUsers room
    ∧ Room.blockedUsers room' = Room.blockedUsers room ∖ list_to_set userKeys.
Proof.
  intros result Hok. subst result. unfold Http.postAccessUnblock in *.
  destruct (withRoom_ok _ _ _ _ _ Hok) as (room & ch & Hres & Heq).
  rewrite Heq in Hok |- *. clear Heq.
  destruct (http_withUserKeys_ok _ _ Hok) as (userKeys & Hkeys & Heq).
  rewrite Heq. clear Heq Hok. simpl.
  eexists room, ch, userKeys, _. split_and!; try done;
    apply unblock_fold_access.
Qed.

Lemma socket_unblock_access context data :
  let result := AdminSocket.unblockUsers context data in
  AdminSocket.succeeded result = true →
  ∃ room userKeys room',
    AdminSocket.currentRoom context = Some room
    ∧ AdminSocket.parseUserKeys (Js.getField "userKeys" data) = Some userKeys
    ∧ AdminSocket.room result = Some room'
    ∧ Room.allowedUsers room' = Room.allowedUsers room
    ∧ Room.blockedUsers room' = Room.blockedUsers room ∖ list_to_set userKeys.
Proof.
  intros result Hok. subst result. unfold AdminSocket.unblockUsers in *.
  destruct (guarded_ok _ _ Hok) as (room & adminId & Hroom & Heq).
  rewrite Heq in Hok |- *. clear Heq.
  destruct (socket_withUserKeys_ok _ _ _ Hok) as (userKeys & Hkeys & Heq).
  rewrite Heq. clear Heq Hok. simpl.
  eexists room, userKeys, _. split_and!; try done;
    apply unblock_fold_access.
Qed.

Lemma http_revoke_access env state req :
  let result := Http.postAccessRevoke env state req in
  Http.status (Http.response result) = 200 →
  ∃ room channelId userKeys room',
    Http.resolveRoomForAdmin state req = inr (room, channelId)
    ∧ requestedKeys req = Some userKeys
    ∧ Http.room result = Some room'
    ∧ Room.allowedUsers room' = Room.allowedUsers room ∖ list_to_set userKeys
    ∧ Room.blockedUsers room' = Room.blockedUsers room.
Proof.
  intros result Hok. subst result. unfold Http.postAccessRevoke in *.
  destruct (withRoom_ok _ _ _ _ _ Hok) as (room & ch & Hres & Heq).
  rewrite Heq in Hok |- *. clear Heq.
  destruct (http_withUserKeys_ok _ _ Hok) as (userKeys & Hkeys & Heq).
  rewrite Heq. clear Heq Hok. simpl.
  eexists room, ch, userKeys, _. split_and!; try done;
    apply revoke_fold_access; intros r k; unfold Http.revokeOne;
    by destruct (Http.notFalse _).
Qed.

Lemma socket_revoke_access context data :
  let result := AdminSocket.revokeAllowedUsers context data in
  AdminSocket.succeeded result = true →
  ∃ room userKeys room',
    AdminSocket.currentRoom context = Some room
    ∧ AdminSocket.parseUserKeys (Js.getField "userKeys" data) = Some userKeys
    ∧ AdminSocket.room result = Some room'
    ∧ Room.allowedUsers room' = Room.allowedUsers room ∖ list_to_set userKeys
    ∧ Room.blockedUsers room' = Room.blockedUsers room.
Proof.
  intros result Hok. subst result. unfold AdminSocket.revokeAllowedUsers in *.
  destruct (guarded_ok _ _ Hok) as (room & adminId & Hroom & Heq).
  rewrite Heq in Hok |- *. clear Heq.
  destruct (socket_withUserKeys_ok _ _ _ Hok) as (userKeys & Hkeys & Heq).
  rewrite Heq. clear Heq Hok. simpl.
  eexists room, userKeys, _. split_and!; try done;
    apply (revoke_fold_access _ userKeys room); intros r k;
    by destruct (Http.notFalse _).
Qed.

End AccessFacts.

Module AccessClaims.
Import ControlPlane AccessFacts AccessTerms AccessClaimTerms.

(** C10. A successful access-allow request, on the operator route or on
    the [admin:allowUsers] event, takes every requested key out of
    [blockedUsers] and puts it into [allowedUsers]: afterwards the blocked
    set is the old one minus the requested keys, the allowed set is the
    old one plus the requested keys, and so each requested key is allowed
    and not blocked. *)
Theorem allow_unblocks_then_allows :
  (∀ env state req,
     let result := Http.postAccessAllow env state req in
     Http.status (Http.response result) = 200 →
     ∃ room channelId userKeys room',
       Http.resolveRoomForAdmin state req = inr (room, channelId)
       ∧ requestedKeys req = Some userKeys
       ∧ Http.room result = Some room'
       ∧ Room.blockedUsers room'
         = Room.blockedUsers room ∖ list_to_set userKeys
       ∧ Room.allowedUsers room'
         = list_to_set userKeys ∪ Room.allowedUsers room
       ∧ ∀ k, k ∈ userKeys →
              k ∈ Room.allowedUsers room' ∧ k ∉ Room.blockedUsers room')
  ∧ (∀ context data,
       let result := AdminSocket.allowUsers context data in
       AdminSocket.succeeded result = true →
       ∃ room userKeys room',
         AdminSocket.currentRoom context = Some room
         ∧ AdminSocket.parseUserKeys (Js.getField "userKeys" data)
           = Some userKeys
         ∧ AdminSocket.room result = Some room'
         ∧ Room.blockedUsers room'
           = Room.blockedUsers room ∖ list_to_set userKeys
         ∧ Room.allowedUsers room'
           = list_to_set userKeys ∪ Room.allowedUsers room
         ∧ ∀ k, k ∈ userKeys →
                k ∈ Room.allowedUsers room' ∧ k ∉ Room.blockedUsers room').
Proof.
  split.
  - intros env state req result Hok.
    destruct (http_allow_access env state req Hok)
      as (room & ch & userKeys & room' & Hres & Hkeys & Hroom & Ha & Hb).
    exists room, ch, userKeys, room'. split_and!; try done.
    intros k Hk. rewrite Ha, Hb. set_solver.
  - intros context data result Hok.
    destruct (socket_allow_access context data Hok)
      as (room & userKeys & room' & Hcur & Hkeys & Hroom & Ha & Hb).
    exists room, userKeys, room'. split_and!; try done.
    intros k Hk. rewrite Ha, Hb. set_solver.
Qed.

Lemma allow_unblocks_then_allows_witness :
  ∃ room',
    Http.room (Http.postAccessAllow operatorEnv (registry blockedRoom)
                                    (accessRequest [mallory])) = Some room'
    ∧ mallory ∈ Room.allowedUsers room' ∧ mallory ∉ Room.blockedUsers room'.
Proof.
  destruct (proj1 allow_unblocks_then_allows
              operatorEnv (registry blockedRoom) (accessRequest [mallory])
              eq_refl)
    as (room & ch & userKeys & room' & _ & Hkeys & Hroom & _ & _ & Hin).
  injection Hkeys as <-.
  exists room'. split; [exact Hroom|]. apply Hin. left.
Defined.

(** C2, refuted as stated: allow [mallory], then block [mallory], both
    through the operator routes and both answered 200.  The key is then in
    [blockedUsers] and still in [allowedUsers]. *)
Lemma block_after_allow_overlaps :
  let allowed :=
    Http.postAccessAllow operatorEnv (registry openRoom)
                         (accessRequest [mallory]) in
  let blocked :=
    Http.postAccessBlock operatorEnv (registry afterAllow)
                         (accessRequest [mallory]) in
  Http.status (Http.response allowed) = 200
  ∧ Http.room allowed = Some afterAllow
  ∧ Http.status (Http.response blocked) = 200
  ∧ ∃ room', Http.room blocked = Some room'
             ∧ mallory ∈ Room.blockedUsers room' ∩ Room.allowedUsers room'.
Proof.
  split_and!; [reflexivity | reflexivity | reflexivity |].
  eexists. split; [reflexivity|].
  refine (bool_decide_unpack _ _). vm_compute. exact I.
Qed.

(** C2, amended. From a room whose blocked and allowed sets are disjoint,
    a successful access allow, revoke or unblock, on either surface, leaves
    them disjoint; a successful access block adds the requested keys to
    [blockedUsers] and leaves [allowedUsers] as it was, so that afterwards
    the two sets share exactly the requested keys that were allowed. *)
Ltac same_room Hfirst Hsecond Hroom Hroom' :=
  rewrite Hfirst in Hsecond; rewrite Hroom in Hroom';
  simplify_eq Hsecond; simplify_eq Hroom'; intros; subst.

Theorem access_lists_overlap_only_by_block :
  (∀ env state req room channelId room',
     Http.resolveRoomForAdmin state req = inr (room, channelId) →
     Room.blockedUsers room ∩ Room.allowedUsers room = ∅ →
     (Http.status (Http.response (Http.postAccessAllow env state req)) = 200 →
      Http.room (Http.postAccessAllow env state req) = Some room' →
      Room.blockedUsers room' ∩ Room.allowedUsers room' = ∅)
     ∧ (Http.status (Http.response (Http.postAccessRevoke env state req)) = 200 →
        Http.room (Http.postAccessRevoke env state req) = Some room' →
        Room.blockedUsers room' ∩ Room.allowedUsers room' = ∅)
     ∧ (Http.status (Http.response (Http.postAccessUnblock env state req)) = 200 →
        Http.room (Http.postAccessUnblock env state req) = Some room' →
        Room.blockedUsers room' ∩ Room.allowedUsers room' = ∅)
     ∧ (Http.status (Http.response (Http.postAccessBlock env state req)) = 200 →
        Http.room (Http.postAccessBlock env state req) = Some room' →
        ∃ userKeys,
          requestedKeys req = Some userKeys
          ∧ Room.allowedUsers room' = Room.allowedUsers room
          ∧ Room.blockedUsers room'
            = list_to_set userKeys ∪ Room.blockedUsers room
          ∧ Room.blockedUsers room' ∩ Room.allowedUsers room'
            = list_to_set userKeys ∩ Room.allowedUsers room))
  ∧ (∀ context data room room',
       AdminSocket.currentRoom context = Some room →
       Room.blockedUsers room ∩ Room.allowedUsers room = ∅ →
       (AdminSocket.succeeded (AdminSocket.allowUsers context data) = true →
        AdminSocket.room (AdminSocket.allowUsers context data) = Some room' →
        Room.blockedUsers room' ∩ Room.allowedUsers room' = ∅)
       ∧ (AdminSocket.succeeded (AdminSocket.revokeAllowedUsers context data)
          = true →
          AdminSocket.room (AdminSocket.revokeAllowedUsers context data)
          = Some room' →
          Room.blockedUsers room' ∩ Room.allowedUsers room' = ∅)
       ∧ (AdminSocket.succeeded (AdminSocket.unblockUsers context data) = true →
          AdminSocket.room (AdminSocket.unblockUsers context data)
          = Some room' →
          Room.blockedUsers room' ∩ Room.allowedUsers room' = ∅)
       ∧ (AdminSocket.succeeded (AdminSocket.blockUsers context data) = true →
          AdminSocket.room (AdminSocket.blockUsers context data) = Some room' →
          ∃ userKeys,
            AdminSocket.parseUserKeys (Js.getField "userKeys" data)
            = Some userKeys
            ∧ Room.allowedUsers room' = Room.allowedUsers room
            ∧ Room.blockedUsers room'
              = list_to_set userKeys ∪ Room.blockedUsers room
            ∧ Room.blockedUsers room' ∩ Room.allowedUsers room'
              = list_to_set userKeys ∩ Room.allowedUsers room)).
Proof.
  split.
  - intros env state req room ch room' Hres Hdisj. split_and!.
    + intros Hok Hroom.
      destruct (http_allow_access env state req Hok)
        as (r & c & ks & r' & Hres' & _ & Hroom' & Ha & Hb).
      same_room Hres Hres' Hroom Hroom'. rewrite Ha, Hb. set_solver.
    + intros Hok Hroom.
      destruct (http_revoke_access env state req Hok)
        as (r & c & ks & r' & Hres' & _ & Hroom' & Ha & Hb).
      same_room Hres Hres' Hroom Hroom'. rewrite Ha, Hb. set_solver.
    + intros Hok Hroom.
      destruct (http_unblock_access env state req Hok)
        as (r & c & ks & r' & Hres' & _ & Hroom' & Ha & Hb).
      same_room Hres Hres' Hroom Hroom'. rewrite Ha, Hb. set_solver.
    + intros Hok Hroom.
      destruct (http_block_access env state req Hok)
        as (r & c & ks & r' & Hres' & Hkeys & Hroom' & Ha & Hb).
      same_room Hres Hres' Hroom Hroom'. exists ks. split_and!; try done.
      rewrite Ha, Hb. set_solver.
  - intros context data room room' Hcur Hdisj. split_and!.
    + intros Hok Hroom.
      destruct (socket_allow_access context data Hok)
        as (r & ks & r' & Hcur' & _ & Hroom' & Ha & Hb).
      same_room Hcur Hcur' Hroom Hroom'. rewrite Ha, Hb. set_solver.
    + intros Hok Hroom.
      destruct (socket_revoke_access context data Hok)
        as (r & ks & r' & Hcur' & _ & Hroom' & Ha & Hb).
      same_room Hcur Hcur' Hroom Hroom'. rewrite Ha, Hb. set_solver.
    + intros Hok Hroom.
      destruct (socket_unblock_access context data Hok)
        as (r & ks & r' & Hcur' & _ & Hroom' & Ha & Hb).
      same_room Hcur Hcur' Hroom Hroom'. rewrite Ha, Hb. set_solver.
    + intros Hok Hroom.
      destruct (socket_block_access context data Hok)
        as (r & ks & r' & Hcur' & Hkeys & Hroom' & Ha & Hb).
      same_room Hcur Hcur' Hroom Hroom'. exists ks. split_and!; try done.
      rewrite Ha, Hb. set_solver.
Qed.

Lemma access_lists_overlap_only_by_block_witness :
  ∃ room',
    Http.room (Http.postAccessBlock operatorEnv (registry afterAllow)
                                    (accessRequest [mallory])) = Some room'
    ∧ Room.blockedUsers room' ∩ Room.allowedUsers room'
      = list_to_set [mallory] ∩ Room.allowedUsers afterAllow.
Proof.
  set (room' :=
         default afterAllow
           (Http.room (Http.postAccessBlock operatorEnv (registry afterAllow)
                                            (accessRequest [mallory])))).
  exists room'. split; [reflexivity|].
  assert (Hdisj : Room.blockedUsers afterAllow ∩ Room.allowedUsers afterAllow
                  = ∅).
  { apply set_eq. intros k. split; [|by intros ?%not_elem_of_empty].
    intros [Hb _]%elem_of_intersection. exact Hb. }
  destruct (proj1 access_lists_overlap_only_by_block
              operatorEnv (registry afterAllow) (accessRequest [mallory])
              afterAllow "default:r1" room' eq_refl Hdisj)
    as (_ & _ & _ & Hblock).
  destruct (Hblock eq_refl eq_refl) as (userKeys & Hkeys & _ & _ & Hcap).
  injection Hkeys as <-. exact Hcap.
Defined.

(** *** Policy updates *)

Lemma allowLocked_fold userKeys room :
  fold_left (fun r userKey => Room.allowLockedUser userKey r) userKeys room
  = Room.withLockedAllowedUsers
      (list_to_set userKeys ∪ Room.lockedAllowedUsers room) room.
Proof.
  revert room. induction userKeys as [|k rest IH]; intros room; simpl.
  - destruct room. unfold Room.withLockedAllowedUsers. simpl. f_equal.
    set_solver.
  - rewrite IH. destruct room.
    unfold Room.withLockedAllowedUsers, Room.allowLockedUser. simpl. f_equal.
    set_solver.
Qed.

Lemma applyRoomPolicyUpdate_pending room update :
  let '(changed, room', effs) := applyRoomPolicyUpdate room update in
  Room.pendingClients room' = Room.pendingClients room
  ∧ Room.allowedUsers room' = Room.allowedUsers room
  ∧ Room.blockedUsers room' = Room.blockedUsers room
  ∧ Forall (fun e => ¬ isSocketEmit e) effs
  ∧ (Room.isLocked room = true → locked update = Some false →
     Room.isLocked room' = false
     ∧ Room.lockedAllowedUsers room' = Room.lockedAllowedUsers room
     ∧ locked changed = Some false
     ∧ ChannelEmit (Room.channelId room) "roomLockChanged"
         (Js.JObj [("locked", Js.JBool false);
                   ("roomId", jstr (Room.id room))]) ∈ effs).
Proof.
  unfold applyRoomPolicyUpdate.
  destruct (differs (locked update) (Room.isLocked room)) as [b|] eqn:Hl.
  - rewrite allowLocked_fold.
    set (room1 := if b then _ else _).
    assert (Hroom1 : room1 = lockedStep room b) by (by destruct b).
    clearbody room1. subst room1.
    destruct (differs (chatLocked update) _) as [b2|];
      destruct (differs (noGuests update) _) as [b3|];
      destruct (differs (ttsDisabled update) _) as [b4|];
      destruct (differs (dmEnabled update) _) as [b5|];
      (split_and!;
       [ by destruct b | by destruct b | by destruct b
       | repeat constructor; simpl; tauto
       | intros Hlocked Hupd; rewrite Hupd, Hlocked in Hl; simpl in Hl;
         injection Hl as <-; split_and!; try done; simpl; left ]).
  - destruct (differs (chatLocked update) _) as [b2|];
      destruct (differs (noGuests update) _) as [b3|];
      destruct (differs (ttsDisabled update) _) as [b4|];
      destruct (differs (dmEnabled update) _) as [b5|];
      (split_and!;
       [ done | done | done
       | repeat constructor; simpl; tauto
       | intros Hlocked Hupd; rewrite Hupd, Hlocked in Hl; simpl in Hl;
         done ]).
Qed.

(** C3, refuted as stated: a locked room with one pending entry whose key
    is in [allowedUsers] is unlocked.  The flag flips and the only thing
    sent is the [roomLockChanged] broadcast: nothing goes to the pending
    socket, and the entry is still pending. *)
Lemma unlock_admits_nobody :
  Room.isLocked allowedAlice = true
  ∧ Room.getPending "alice@x.y" allowedAlice = Some alice
  ∧ "alice@x.y" ∈ Room.allowedUsers allowedAlice
  ∧ ∃ changed room',
      applyRoomPolicyUpdate allowedAlice unlock
      = (changed, room',
         [ChannelEmit "default:r1" "roomLockChanged"
            (Js.JObj [("locked", Js.JBool false); ("roomId", jstr "r1")])])
      ∧ Room.isLocked room' = false
      ∧ Room.getPending "alice@x.y" room' = Some alice.
Proof.
  split_and!; [reflexivity | reflexivity | set_solver |].
  eexists _, _. split_and!; reflexivity.
Qed.

(** C3, amended. A policy update, through [applyRoomPolicyUpdate] and so
    through the [lockRoom] event and the policies route, never touches the
    pending list or the allowed and blocked sets, and sends nothing to a
    single socket; when it takes a locked room to unlocked it clears the
    flag, reports [locked: false] as changed and broadcasts
    [roomLockChanged].  Every pending entry, allowed or not, remains. *)
Theorem policy_update_keeps_pending :
  (∀ room update changed room' effs,
     applyRoomPolicyUpdate room update = (changed, room', effs) →
     Room.pendingClients room' = Room.pendingClients room
     ∧ Forall (fun e => ¬ isSocketEmit e) effs
     ∧ (Room.isLocked room = true → locked update = Some false →
        Room.isLocked room' = false
        ∧ locked changed = Some false
        ∧ ChannelEmit (Room.channelId room) "roomLockChanged"
            (Js.JObj [("locked", Js.JBool false);
                      ("roomId", jstr (Room.id room))]) ∈ effs))
  ∧ (∀ context data room room',
       AdminSocket.currentRoom context = Some room →
       AdminSocket.room (AdminSocket.lockRoom context data) = Some room' →
       Room.pendingClients room' = Room.pendingClients room
       ∧ Forall (fun e => ¬ isSocketEmit e)
                (AdminSocket.effects (AdminSocket.lockRoom context data)))
  ∧ (∀ env state req room channelId room',
       Http.resolveRoomForAdmin state req = inr (room, channelId) →
       Http.room (Http.postPolicies env state req) = Some room' →
       Room.pendingClients room' = Room.pendingClients room
       ∧ Forall (fun e => ¬ isSocketEmit e)
                (Http.effects (Http.postPolicies env state req))).
Proof.
  split_and!.
  - intros room update changed room' effs Heq.
    pose proof (applyRoomPolicyUpdate_pending room update) as H.
    rewrite Heq in H. destruct H as (Hp & _ & _ & Hs & Hl).
    split_and!; [done | done |].
    intros H1 H2. destruct (Hl H1 H2) as (? & _ & ? & ?). done.
  - intros context data room room' Hcur.
    unfold AdminSocket.lockRoom, AdminSocket.guarded,
      AdminSocket.ensureAdminRoom.
    rewrite Hcur.
    destruct (AdminSocket.currentClient context) as [client|];
      [destruct (Client.isAdmin client)|]; simpl.
    + pose proof (applyRoomPolicyUpdate_pending room
                    (mkUpdate (Http.boolField "locked" data)
                              None None None None)) as H.
      destruct (applyRoomPolicyUpdate _ _) as [[changed r'] effs]. simpl.
      intros [= <-]. destruct H as (Hp & _ & _ & Hs & _). done.
    + intros [= <-]. split; [done | constructor].
    + intros [= <-]. split; [done | constructor].
  - intros env state req room ch room' Hres.
    unfold Http.postPolicies, Http.withRoom. rewrite Hres.
    destruct (negb (Http.hasValidSecret _ _)); [done|].
    destruct (true && negb (Http.ioReady env)); [done|].
    destruct (Http.boolField "locked" _) as [b1|];
      destruct (Http.boolField "chatLocked" _) as [b2|];
      destruct (Http.boolField "noGuests" _) as [b3|];
      destruct (Http.boolField "ttsDisabled" _) as [b4|];
      destruct (Http.boolField "dmEnabled" _) as [b5|];
      try (simpl; intros [= <-]; split; [done | constructor]);
      match goal with
      | |- context [applyRoomPolicyUpdate ?r ?u] =>
          pose proof (applyRoomPolicyUpdate_pending r u) as H;
          destruct (applyRoomPolicyUpdate r u) as [[changed r'] effs];
          destruct H as (Hp & _ & _ & Hs & _);
          simpl; intros [= <-]; done
      end.
Qed.

Lemma policy_update_keeps_pending_witness :
  ∃ changed room' effs,
    applyRoomPolicyUpdate allowedAlice unlock = (changed, room', effs)
    ∧ Room.pendingClients room' = [alice]
    ∧ Room.isLocked room' = false.
Proof.
  destruct (applyRoomPolicyUpdate allowedAlice unlock)
    as [[changed room'] effs] eqn:Heq.
  destruct (proj1 policy_update_keeps_pending
              allowedAlice unlock changed room' effs Heq)
    as (Hp & _ & Hl).
  exists changed, room', effs. split_and!; [done | exact Hp |].
  by destruct (Hl eq_refl eq_refl) as (? & _).
Defined.

End AccessClaims.

(* ===================================================================== *)
(** ** Moderation: closing producers *)
(* ===================================================================== *)

Module ModerationFacts.
Import ControlPlane ModerationTerms.

Lemma takeProducer_None pid ps :
  Client.takeProducer pid ps = None ↔ pid ∉ map producerId ps.
Proof.
  induction ps as [|p rest IH]; simpl.
  - split; [intros _ H; inversion H | done].
  - case_decide as Hp.
    + split; [done | intros H; exfalso; apply H; rewrite Hp; left].
    + destruct (Client.takeProducer pid rest) as [[found rest']|].
      * split; [done|]. intros H. exfalso.
        assert (Hr : pid ∉ map producerId rest)
          by (intros ?; apply H; by right).
        apply IH in Hr. done.
      * split; [|done]. intros _ [?|?]%elem_of_cons; [done|].
        by apply (proj1 IH).
Qed.

Lemma takeProducer_Some pid ps found rest :
  Client.takeProducer pid ps = Some (found, rest) →
  producerId found = pid
  ∧ ∃ l1 l2, ps = l1 ++ found :: l2 ∧ rest = l1 ++ l2.
Proof.
  revert rest. induction ps as [|p ps' IH]; intros rest; simpl; [done|].
  case_decide as Hp.
  - intros [= <- <-]. split; [done|]. by exists [], ps'.
  - destruct (Client.takeProducer pid ps') as [[f r]|]; [|done].
    intros [= <- <-]. destruct (IH r eq_refl) as (Hid & l1 & l2 & -> & ->).
    split; [done|]. by exists (p :: l1), l2.
Qed.

Lemma takeProducer_gone pid ps found rest :
  NoDup (map producerId ps) →
  Client.takeProducer pid ps = Some (found, rest) →
  pid ∉ map producerId rest.
Proof.
  intros Hnd Htake.
  destruct (takeProducer_Some _ _ _ _ Htake) as (Hid & l1 & l2 & -> & ->).
  rewrite map_app in Hnd |- *. simpl in Hnd. rewrite Hid in Hnd.
  apply NoDup_app in Hnd as (_ & Hdisj & Hnd2).
  apply NoDup_cons in Hnd2 as [Hnot _].
  intros [H|H]%elem_of_app; [|done].
  apply (Hdisj _ H). left.
Qed.

Lemma takeProducer_length pid ps found rest :
  Client.takeProducer pid ps = Some (found, rest) →
  length ps = S (length rest).
Proof.
  intros Htake.
  destruct (takeProducer_Some _ _ _ _ Htake) as (_ & l1 & l2 & -> & ->).
  rewrite !length_app. simpl. lia.
Qed.

Lemma removeProducerById_None pid c :
  Client.removeProducerById pid c = None
  ↔ pid ∉ map producerId (Client.producers c).
Proof.
  unfold Client.removeProducerById. rewrite <- takeProducer_None.
  by destruct (Client.takeProducer pid (Client.producers c)) as [[? ?]|].
Qed.

Lemma removeFromFirstOwner_None pid cs :
  removeFromFirstOwner pid cs = None ↔ pid ∉ producerIds cs.
Proof.
  induction cs as [|c rest IH]; simpl.
  - split; [intros _ H; inversion H | done].
  - unfold producerIds. simpl. fold (producerIds rest).
    rewrite elem_of_app.
    destruct (Client.removeProducerById pid c) as [[removed c']|] eqn:Hc.
    + split; [done|]. intros H. exfalso. apply H. left.
      destruct (decide (pid ∈ map producerId (Client.producers c)));
        [done|].
      apply removeProducerById_None in n. congruence.
    + apply removeProducerById_None in Hc.
      destruct (removeFromFirstOwner pid rest) as [[[? ?] ?]|].
      * split; [done|]. intros H. exfalso.
        assert (Hr : pid ∉ producerIds rest) by tauto.
        apply IH in Hr. done.
      * split; [|done]. intros _ [?|?]; [done|]. by apply (proj1 IH).
Qed.

Lemma removeFromFirstOwner_gone pid cs removed owner cs' :
  NoDup (producerIds cs) →
  removeFromFirstOwner pid cs = Some (removed, owner, cs') →
  pid ∉ producerIds cs'.
Proof.
  revert cs'. induction cs as [|c rest IH]; intros cs' Hnd; simpl; [done|].
  unfold producerIds in Hnd. simpl in Hnd. fold (producerIds rest) in Hnd.
  apply NoDup_app in Hnd as (Hc & Hdisj & Hrest).
  destruct (Client.removeProducerById pid c) as [[rm c']|] eqn:Hrm.
  - intros [= <- <- <-].
    unfold Client.removeProducerById in Hrm.
    destruct (Client.takeProducer pid (Client.producers c))
      as [[found ps']|] eqn:Htake; [|done].
    injection Hrm as <- <-.
    unfold producerIds. simpl. fold (producerIds rest).
    intros [H|H]%elem_of_app.
    + by apply (takeProducer_gone _ _ _ _ Hc Htake).
    + destruct (takeProducer_Some _ _ _ _ Htake) as (Hid & l1 & l2 & Hps & _).
      apply (Hdisj pid); [|done].
      rewrite Hps, map_app, elem_of_app. right. simpl. rewrite Hid. left.
  - destruct (removeFromFirstOwner pid rest) as [[[rm o] rest']|] eqn:Hr;
      [|done].
    intros [= <- <- <-].
    unfold producerIds. simpl. fold (producerIds rest').
    intros [H|H]%elem_of_app.
    + by apply removeProducerById_None in Hrm.
    + by apply (IH rest' Hrest eq_refl).
Qed.

Lemma clients_clearScreenShareProducer pid room :
  Room.clients (Room.clearScreenShareProducer pid room) = Room.clients room.
Proof.
  unfold Room.clearScreenShareProducer.
  destruct (Room.screenShareProducerId room); [case_decide|]; done.
Qed.

(** C6. In a room whose producer ids are distinct, once
    [closeProducerById] has closed producer [pid], a second call for the
    same id reports [closed = false], leaves the room exactly as it is and
    sends nothing. *)
Theorem closeProducerById_idempotent (room : Room.t) (pid : string) :
  NoDup (producerIds (Room.clients room)) →
  ∀ first room1 effs1,
    closeProducerById room pid = (first, room1, effs1) →
    closed first = true →
    closeProducerById room1 pid = (NotClosed, room1, [])
    ∧ closed (closeProducerById room1 pid).1.1 = false.
Proof.
  intros Hnd first room1 effs1. unfold closeProducerById at 1.
  destruct (removeFromFirstOwner pid (Room.clients room))
    as [[[removed owner] clients']|] eqn:Hrm.
  - intros [= <- <- <-] _.
    pose proof (removeFromFirstOwner_gone _ _ _ _ _ Hnd Hrm) as Hgone.
    assert (Hnone :
              removeFromFirstOwner pid
                (Room.clients
                   (if isScreenShare removed
                    then Room.clearScreenShareProducer pid
                           (Room.withClients clients' room)
                    else Room.withClients clients' room)) = None).
    { apply removeFromFirstOwner_None.
      destruct (isScreenShare removed);
        [rewrite clients_clearScreenShareProducer|]; exact Hgone. }
    unfold closeProducerById. rewrite Hnone. done.
  - intros [= <- <- <-]. done.
Qed.

(** A call that reports [closed = false] has changed nothing and sent
    nothing, whatever the room. *)
Lemma closeProducerById_not_closed room pid result room' effs :
  closeProducerById room pid = (result, room', effs) →
  closed result = false → room' = room ∧ effs = [].
Proof.
  unfold closeProducerById.
  destruct (removeFromFirstOwner pid (Room.clients room))
    as [[[removed owner] clients']|]; intros [= <- <- <-]; done.
Qed.

Lemma closeProducerById_idempotent_witness :
  ∃ room1 effs1,
    closeProducerById meeting "p-screen"
    = (Closed "bob@x.y#s1" video screen, room1, effs1)
    ∧ Room.screenShareProducerId room1 = None
    ∧ closeProducerById room1 "p-screen" = (NotClosed, room1, []).
Proof.
  destruct (closeProducerById meeting "p-screen") as [[first room1] effs1]
    eqn:Hfirst.
  assert (Hnd : NoDup (producerIds (Room.clients meeting))).
  { refine (bool_decide_unpack _ _). vm_compute. exact I. }
  assert (Hclosed : first = Closed "bob@x.y#s1" video screen
                    ∧ Room.screenShareProducerId room1 = None).
  { vm_compute in Hfirst. by injection Hfirst as <- <- <-. }
  destruct Hclosed as [-> Hshare].
  exists room1, effs1. split_and!; [done | done |].
  exact (proj1 (closeProducerById_idempotent meeting "p-screen" Hnd
                  _ room1 effs1 Hfirst eq_refl)).
Defined.

End ModerationFacts.

(* ===================================================================== *)
(** ** Bulk media closure *)
(* ===================================================================== *)

Module BulkFacts.
Import ControlPlane AdminSocket ModerationFacts ModerationTerms BulkTerms.

Lemma sameButProducers_refl c : sameButProducers c c.
Proof. by destruct c. Qed.

Lemma sameButProducers_withProducers ps c :
  sameButProducers c (Client.withProducers ps c).
Proof. by destruct c. Qed.

Lemma sameButProducers_trans c1 c2 c3 :
  sameButProducers c1 c2 → sameButProducers c2 c3 → sameButProducers c1 c3.
Proof.
  unfold sameButProducers. destruct c1, c2, c3. simpl.
  intros [= <- <- <- <- <-] [= <- <- <- <- <-]. done.
Qed.

Lemma sameButProducers_id c c' :
  sameButProducers c c' → Client.id c' = Client.id c.
Proof. unfold sameButProducers. destruct c, c'. simpl. by intros [= <-]. Qed.

Lemma touchesOnly_refl userId cs : touchesOnly userId cs cs.
Proof.
  induction cs; constructor; [|done].
  split; [apply sameButProducers_refl | done].
Qed.

Lemma touchesOnly_trans userId cs1 cs2 cs3 :
  touchesOnly userId cs1 cs2 → touchesOnly userId cs2 cs3 →
  touchesOnly userId cs1 cs3.
Proof.
  intros H12. revert cs3.
  induction H12 as [|c1 c2 l1 l2 [Hs Hne] _ IH]; intros cs3 H23;
    inversion H23 as [|? c3 ? l3 [Hs' Hne'] Hrest]; subst; constructor.
  - split; [by eapply sameButProducers_trans|].
    intros Hid. rewrite <- (Hne Hid). apply Hne'.
    by rewrite (sameButProducers_id _ _ Hs).
  - by apply IH.
Qed.

Lemma updateFirst_touchesOnly userId target ps cs :
  List.find (fun c => bool_decide (Client.id c = userId)) cs = Some target →
  touchesOnly userId cs
    (Room.updateFirst userId (fun _ => Client.withProducers ps target) cs).
Proof.
  induction cs as [|c rest IH]; simpl; [done|].
  case_bool_decide as Hc.
  - intros [= <-]. constructor; [|apply touchesOnly_refl].
    split; [apply sameButProducers_withProducers | done].
  - intros Hfind. constructor; [|by apply IH].
    split; [apply sameButProducers_refl | done].
Qed.

Lemma updateFirst_total userId target ps cs :
  List.find (fun c => bool_decide (Client.id c = userId)) cs = Some target →
  (totalProducers
     (Room.updateFirst userId (fun _ => Client.withProducers ps target) cs)
   + length (Client.producers target)
   = totalProducers cs + length ps)%nat.
Proof.
  unfold totalProducers.
  induction cs as [|c rest IH]; simpl; [done|].
  case_bool_decide as Hc.
  - intros [= <-]. simpl. lia.
  - intros Hfind. simpl. specialize (IH Hfind). lia.
Qed.

Lemma notifyProducerClosed_quiet room ownerId pid :
  Forall quiet (notifyProducerClosed room ownerId pid).
Proof.
  unfold notifyProducerClosed. apply Forall_app. split.
  - apply Forall_forall. intros e He.
    apply list_elem_of_In, in_map_iff in He as (c & <- & _).
    split; [simpl; tauto | done].
  - apply Forall_singleton. split; [simpl; by intros [=] | done].
Qed.

(** What one turn of the loop of [closeClientProducers] keeps. *)
Lemma closeInfo_keeps userId room effects closedPs info :
  let '(room', effects', closedPs') :=
    closeInfo userId (room, effects, closedPs) info in
  touchesOnly userId (Room.clients room) (Room.clients room')
  ∧ (totalProducers (Room.clients room') + length closedPs'
     = totalProducers (Room.clients room) + length closedPs)%nat
  ∧ ∃ sent, effects' = effects ++ sent ∧ Forall quiet sent.
Proof.
  unfold closeInfo.
  destruct (Room.getClient userId room) as [target|] eqn:Hget.
  2: { split_and!; [apply touchesOnly_refl | done |].
       exists []. by rewrite app_nil_r. }
  destruct (Client.removeProducerById (producerId info) target)
    as [[removed target']|] eqn:Hrm.
  2: { split_and!; [apply touchesOnly_refl | done |].
       exists []. by rewrite app_nil_r. }
  unfold Client.removeProducerById in Hrm.
  destruct (Client.takeProducer (producerId info) (Client.producers target))
    as [[found ps]|] eqn:Htake; [|done].
  injection Hrm as <- <-.
  set (room1 := Room.updateClient userId _ room).
  assert (Hclients :
            Room.clients
              (if isScreenShare found
               then Room.clearScreenShareProducer (producerId info) room1
               else room1)
            = Room.updateFirst userId
                (fun _ => Client.withProducers ps target) (Room.clients room)).
  { destruct (isScreenShare found);
      [rewrite clients_clearScreenShareProducer|]; done. }
  rewrite Hclients. split_and!.
  - by apply updateFirst_touchesOnly.
  - pose proof (updateFirst_total userId target ps _ Hget) as Ht.
    pose proof (takeProducer_length _ _ _ _ Htake) as Hl.
    rewrite length_app. simpl. lia.
  - eexists. split; [reflexivity | apply notifyProducerClosed_quiet].
Qed.

Lemma closeInfo_fold_keeps userId infos room effects closedPs :
  let '(room', effects', closedPs') :=
    fold_left (closeInfo userId) infos (room, effects, closedPs) in
  touchesOnly userId (Room.clients room) (Room.clients room')
  ∧ (totalProducers (Room.clients room') + length closedPs'
     = totalProducers (Room.clients room) + length closedPs)%nat
  ∧ ∃ sent, effects' = effects ++ sent ∧ Forall quiet sent.
Proof.
  revert room effects closedPs.
  induction infos as [|info rest IH]; intros room effects closedPs;
    cbn [fold_left].
  - split_and!; [apply touchesOnly_refl | done |].
    exists []. by rewrite app_nil_r.
  - pose proof (closeInfo_keeps userId room effects closedPs info) as H1.
    destruct (closeInfo userId (room, effects, closedPs) info)
      as [[room1 effects1] closed1].
    specialize (IH room1 effects1 closed1).
    destruct (fold_left _ rest _) as [[room' effects'] closedPs'].
    cbv beta iota in H1, IH |- *.
    destruct H1 as (Ht1 & Hn1 & sent1 & -> & Hq1).
    destruct IH as (Ht & Hn & sent & -> & Hq).
    split_and!; [by eapply touchesOnly_trans | lia |].
    exists (sent1 ++ sent). rewrite app_assoc. split; [done|].
    by apply Forall_app.
Qed.

Lemma quiet_about userId e : quiet e → about userId e.
Proof. intros [Hb Hn]. split; [done|]. rewrite Hn. done. Qed.

Lemma closeClientProducers_keeps room userId selector reason :
  let '(result, room', effs) :=
    closeClientProducers room userId selector reason in
  touchesOnly userId (Room.clients room) (Room.clients room')
  ∧ (totalProducers (Room.clients room') + closedCount result
     = totalProducers (Room.clients room))%nat
  ∧ Forall (about userId) effs.
Proof.
  unfold closeClientProducers.
  destruct (Room.getClient userId room) as [target|].
  2: { split_and!; [apply touchesOnly_refl | simpl; lia | constructor]. }
  pose proof (closeInfo_fold_keeps userId
                (List.filter (fun info => shouldCloseProducer info selector)
                             (Client.getProducerInfos target))
                room [] []) as H.
  destruct (fold_left _ _ _) as [[room' effects'] closedPs'].
  destruct H as (Ht & Hn & sent & -> & Hq). simpl in *.
  split_and!; [done | lia |].
  assert (Hsent : Forall (about userId) sent).
  { eapply Forall_impl; [exact Hq | apply quiet_about]. }
  destruct (0 <? length closedPs')%nat; [|done].
  apply Forall_app. split; [done|].
  apply Forall_cons. split; [split; [simpl; tauto | done]|].
  apply Forall_singleton. split; [simpl; tauto|].
  intros j Hj. cbv in Hj. by injection Hj as <-.
Qed.

Lemma nodup_ids_inj (cs : list Client.t) x y :
  NoDup (map Client.id cs) → x ∈ cs → y ∈ cs →
  Client.id x = Client.id y → x = y.
Proof.
  induction cs as [|c rest IH]; simpl; intros Hnd Hx Hy Hid;
    [by inversion Hx|].
  apply NoDup_cons in Hnd as [Hc Hrest].
  apply elem_of_cons in Hx as [->|Hx]; apply elem_of_cons in Hy as [->|Hy].
  - done.
  - exfalso. apply Hc. rewrite Hid. apply list_elem_of_In, in_map.
    by apply list_elem_of_In.
  - exfalso. apply Hc. rewrite <- Hid. apply list_elem_of_In, in_map.
    by apply list_elem_of_In.
  - by apply IH.
Qed.

Section Bulk.

Variable room0 : Room.t.
Variable selector : Selector.
Variable reason : string.
Variables inclAdmins inclGhosts inclAttendees : option bool.
Hypothesis distinctIds : NoDup (map Client.id (Room.clients room0)).

Lemma Forall2_compose_in {A} (R T R' : A → A → Prop) (l0 l1 l2 l2' : list A) :
  (∀ a b c, a ∈ l0 → R a b → T b c → R' a c) →
  (∀ a, a ∈ l1 → a ∈ l0) →
  Forall2 R l1 l2 → Forall2 T l2 l2' → Forall2 R' l1 l2'.
Proof.
  intros Hc Hsub H12. revert l2'.
  induction H12 as [|a b l1 l2 Hab _ IH]; intros l2' H23;
    inversion H23 as [|? c ? l3 Hbc Hrest]; subst; constructor.
  - apply (Hc a b c); [apply Hsub; left | done | done].
  - apply IH; [|done]. intros x Hx. apply Hsub. by right.
Qed.

Lemma bulkStep_keeps acc client :
  client ∈ Room.clients room0 →
  bulkInv room0 inclAdmins acc →
  bulkInv room0 inclAdmins (bulkStep selector reason inclAdmins inclGhosts inclAttendees
                    acc client).
Proof.
  intros Hin. destruct acc as [[room effs] tally]. unfold bulkStep.
  destruct (unset inclAdmins && Client.isAdmin client) eqn:Hspared;
    [done|].
  destruct (unset inclGhosts && Client.isGhost client); [done|].
  destruct (unset inclAttendees && Client.isWebinarAttendee client); [done|].
  pose proof (closeClientProducers_keeps room (Client.id client)
                (Some selector) reason) as Hclose.
  destruct (closeClientProducers _ _ _ _) as [[result room'] sent].
  destruct Hclose as (Htouch & Hcount & Hsent).
  intros (Hsame & Htotal & Husers & Heffs).
  assert (Htreated : treated room0 inclAdmins (Client.id client)).
  { exists client. split_and!; [done | | done].
    unfold spared. rewrite Hspared. done. }
  unfold bulkInv. split_and!.
  - eapply (Forall2_compose_in _ _ _ (Room.clients room0));
      [| done | exact Hsame | exact Htouch].
    intros c0 c c' Hc0 [Hs Hsp] [Hs' Hne]. split.
    + by eapply sameButProducers_trans.
    + intros Hspared0. rewrite <- (Hsp Hspared0). apply Hne.
      rewrite (Hsp Hspared0). intros Hid.
      assert (c0 = client) by (by apply (nodup_ids_inj _ _ _ distinctIds)).
      subst c0. unfold spared in Hspared0. congruence.
  - destruct (0 <? closedCount result)%nat eqn:Hpos; simpl; [lia|].
    apply Nat.ltb_ge in Hpos. lia.
  - destruct (0 <? closedCount result)%nat; [|done]. simpl.
    apply Forall_app. split; [done | by constructor].
  - apply Forall_app. split; [done|].
    eapply Forall_impl; [exact Hsent|]. intros e [Hb Hj]. split; [done|].
    intros j Hsome. exists (Client.id client). split; [done | by apply Hj].
Qed.

Lemma bulk_fold_keeps cs acc :
  (∀ x, x ∈ cs → x ∈ Room.clients room0) →
  bulkInv room0 inclAdmins acc →
  bulkInv room0 inclAdmins (fold_left
             (bulkStep selector reason inclAdmins inclGhosts inclAttendees)
             cs acc).
Proof.
  revert acc. induction cs as [|c rest IH]; intros acc Hsub Hinv; simpl;
    [done|].
  apply IH; [intros x Hx; apply Hsub; by right|].
  apply bulkStep_keeps; [apply Hsub; left | done].
Qed.

Lemma bulkInv_start : bulkInv room0 inclAdmins (room0, [], mkBulkResult 0 0 []).
Proof.
  unfold bulkInv. split_and!; [| simpl; lia | constructor | constructor].
  clear. generalize (Room.clients room0). intros cs.
  induction cs as [|c rest IH]; constructor; [|exact IH].
  split; [apply sameButProducers_refl | done].
Qed.

End Bulk.

(** The three bulk events run [performBulkMediaClosure] on the room of the
    caller, with the options that [toBulkMediaOptions] reads from the
    payload: an absent or falsy [includeAdmins] is [false]. *)
Lemma bulkEvent_runs_closure selector reason context input room admin :
  currentRoom context = Some room →
  currentClient context = Some admin →
  Client.isAdmin admin = true →
  let options := toBulkMediaOptions (default (Js.JObj []) input) in
  let closure :=
    performBulkMediaClosure (Some room) selector reason
      (Some (includeAdmins options)) (Some (includeGhosts options))
      (Some (includeAttendees options)) in
  let handled := bulkEvent selector reason context input true in
  effects handled = closure.2 ∧ AdminSocket.room handled = closure.1.2
  ∧ succeeded handled = true.
Proof.
  intros Hroom Hclient Hadmin. cbv zeta.
  unfold bulkEvent, guarded, ensureAdminRoom.
  rewrite Hroom, Hclient, Hadmin. cbn [negb].
  destruct (performBulkMediaClosure _ _ _ _ _ _) as [[tally room'] effs].
  done.
Qed.

Lemma toBulkMediaOptions_default input :
  Js.truthy (Js.getField "includeAdmins" (default (Js.JObj []) input)) = false →
  includeAdmins (toBulkMediaOptions (default (Js.JObj []) input)) = false.
Proof. destruct input as [[]|]; simpl; done. Qed.

(** C9. In a room whose client ids are distinct, [performBulkMediaClosure]
    (the body of [muteAll], [closeAllVideo] and [admin:stopAllScreenShare])
    keeps the ids of the clients; unless [includeAdmins] is [true], every
    admin of the room is afterwards in the room exactly as it was, is not
    among the reported users, and no [admin:mediaEnforced] notice is about
    it; and the [admin:bulkMediaEnforced] broadcast is among the events
    sent exactly when [affectedProducers] is positive, where
    [affectedProducers] is the number of producers the room has lost. *)
Theorem bulk_closure_spares_admins
    (room : Room.t) (selector : Selector) (reason : string)
    (inclAdmins inclGhosts inclAttendees : option bool) :
  NoDup (map Client.id (Room.clients room)) →
  ∃ tally room' effs,
    performBulkMediaClosure (Some room) selector reason
                            inclAdmins inclGhosts inclAttendees
    = (tally, Some room', effs)
    ∧ map Client.id (Room.clients room') = map Client.id (Room.clients room)
    ∧ (inclAdmins ≠ Some true →
       ∀ admin, admin ∈ Room.clients room → Client.isAdmin admin = true →
         admin ∈ Room.clients room'
         ∧ (Client.id admin ∉ users tally)
         ∧ ∀ e, e ∈ effs → enforcedUser e ≠ Some (jstr (Client.id admin)))
    ∧ (Exists isBulkEvent effs ↔ (0 < affectedProducers tally)%nat)
    ∧ (totalProducers (Room.clients room') + affectedProducers tally
       = totalProducers (Room.clients room))%nat.
Proof.
  intros Hnd. unfold performBulkMediaClosure.
  pose proof (bulk_fold_keeps room selector reason inclAdmins inclGhosts
                inclAttendees Hnd (Room.clients room)
                (room, [], mkBulkResult 0 0 []) (fun x H => H)
                (bulkInv_start room inclAdmins)) as Hinv.
  destruct (fold_left _ _ _) as [[room' effects] tally].
  destruct Hinv as (Hsame & Htotal & Husers & Heffs).
  eexists tally, room', _. split; [reflexivity|]. split_and!.
  - clear -Hsame. induction Hsame as [|c0 c l0 l [Hs _] _ IH]; simpl; [done|].
    by rewrite IH, (sameButProducers_id _ _ Hs).
  - intros Hnot admin Hin Hadmin.
    assert (Hspared : spared inclAdmins admin).
    { unfold spared, unset. rewrite Hadmin.
      destruct inclAdmins as [[|]|]; done. }
    assert (Huntreated : ¬ treated room inclAdmins (Client.id admin)).
    { intros (x & Hx & Hnsp & Hid).
      assert (x = admin) by (by apply (nodup_ids_inj _ _ _ Hnd)).
      by subst x. }
    split_and!.
    + clear -Hsame Hin Hspared.
      induction Hsame as [|c0 c l0 l [_ Hsp] _ IH]; [by inversion Hin|].
      apply elem_of_cons in Hin as [->|Hin].
      * rewrite (Hsp Hspared). left.
      * right. by apply IH.
    + intros Hu. rewrite Forall_forall in Husers. by apply Huntreated, Husers.
    + intros e He Hsome.
      assert (Hin' : e ∈ effects).
      { destruct (0 <? affectedProducers tally)%nat; [|done].
        apply elem_of_app in He as [He|He]; [done|].
        apply list_elem_of_singleton in He. subst e. done. }
      rewrite Forall_forall in Heffs.
      destruct (Heffs e Hin') as [_ Hj].
      destruct (Hj _ Hsome) as (u & Hu & [= <-]). done.
  - assert (Hnone : ¬ Exists isBulkEvent effects).
    { rewrite Exists_exists. intros (e & He & Hb).
      rewrite Forall_forall in Heffs. by destruct (Heffs e He). }
    destruct (0 <? affectedProducers tally)%nat eqn:Hpos.
    + apply Nat.ltb_lt in Hpos. split; [done|]. intros _.
      apply Exists_app. right. by left.
    + apply Nat.ltb_ge in Hpos. split; [done | lia].
  - done.
Qed.

Lemma bulk_closure_spares_admins_witness :
  ∃ tally room' effs,
    performBulkMediaClosure (Some meeting) (mkSelector (Some [audio]) None)
                            "Muted by host" (Some false) (Some false)
                            (Some false)
    = (tally, Some room', effs)
    ∧ carol ∈ Room.clients room'
    ∧ affectedProducers tally = 1%nat
    ∧ Exists isBulkEvent effs.
Proof.
  assert (Hnd : NoDup (map Client.id (Room.clients meeting))).
  { refine (bool_decide_unpack _ _). vm_compute. exact I. }
  destruct (bulk_closure_spares_admins meeting
              (mkSelector (Some [audio]) None) "Muted by host"
              (Some false) (Some false) (Some false) Hnd)
    as (tally & room' & effs & Heq & _ & Hadmins & Hbulk & _).
  assert (Hcount : affectedProducers tally = 1%nat).
  { vm_compute in Heq. by injection Heq as <- _ _. }
  exists tally, room', effs. split_and!; [done | | done |].
  - apply (Hadmins ltac:(done) carol); [left | done].
  - apply Hbulk. lia.
Defined.

End BulkFacts.

(* ===================================================================== *)
(** ** Minutes: at most one generation in flight per channel *)
(* ===================================================================== *)

Module MinutesFacts.
Import Minutes MinutesTerms.

Lemma Inv_init : Inv init.
Proof.
  split; simpl; try done.
  - intros ch g H. by inversion H.
  - constructor.
Qed.

Lemma Inv_same st st' :
  minutesGenerationInFlight st' = minutesGenerationInFlight st →
  pending st' = pending st →
  generatorCalls st' = generatorCalls st →
  nextPromise st' = nextPromise st →
  Inv st → Inv st'.
Proof.
  intros H1 H2 H3 H4 [Hr Hp Hc Hf Ho].
  split; rewrite ?H1, ?H2, ?H3, ?H4; done.
Qed.

Lemma Inv_arrive sfuSecret req r isRoomActive st :
  Inv st → Inv (arrive sfuSecret req r isRoomActive st).
Proof.
  intros HI. unfold arrive.
  destruct (negb _); [by apply (Inv_same st)|].
  destruct (requestChannel r) as [[rid ch]|]; [|by apply (Inv_same st)].
  destruct (if isRoomActive then None else cachedMinutes st !! ch);
    [by apply (Inv_same st)|].
  destruct (minutesGenerationInFlight st !! ch) as [g|] eqn:Hfly;
    [by apply (Inv_same st)|].
  destruct HI as [Hr Hp Hc Hf Ho].
  assert (Hnew : ∀ ch' active, pending st !! nextPromise st ≠ Some (ch', active)).
  { intros ch' active H. apply Hc, Hf in H. lia. }
  split; simpl.
  - intros ch' g. destruct (decide (ch' = ch)) as [->|Hne].
    + rewrite lookup_insert_eq. intros [= <-].
      exists isRoomActive. by rewrite lookup_insert_eq.
    + rewrite lookup_insert_ne by done. intros H.
      destruct (Hr _ _ H) as [active Hpend]. exists active.
      rewrite lookup_insert_ne; [done|]. intros <-. by apply Hnew in Hpend.
  - intros g ch' active. destruct (decide (g = nextPromise st)) as [->|Hne].
    + rewrite lookup_insert_eq. intros [= <- <-]. by rewrite lookup_insert_eq.
    + rewrite lookup_insert_ne by done. intros H.
      pose proof (Hp _ _ _ H) as Hreg.
      rewrite lookup_insert_ne; [done|]. intros <-. congruence.
  - intros g ch' active. rewrite elem_of_app.
    destruct (decide (g = nextPromise st)) as [->|Hne].
    + rewrite lookup_insert_eq. intros [= <- <-]. right. left.
    + rewrite lookup_insert_ne by done. intros H. left. by eapply Hc.
  - intros ch' g [H|H]%elem_of_app.
    + apply Hf in H. lia.
    + apply list_elem_of_singleton in H. injection H as -> ->. lia.
  - rewrite map_app. simpl. apply NoDup_app. split_and!; [done | |].
    + intros g Hg Hg'. apply list_elem_of_singleton in Hg'. subst g.
      apply list_elem_of_In, in_map_iff in Hg as ([ch' g] & Heq & Hin).
      simpl in Heq. subst g. apply list_elem_of_In, Hf in Hin. lia.
    + apply NoDup_singleton.
Qed.

Lemma Inv_settle generation outcome st :
  Inv st → Inv (settle generation outcome st).
Proof.
  intros HI. unfold settle.
  destruct (pending st !! generation) as [[ch active]|] eqn:Hpend; [|done].
  destruct HI as [Hr Hp Hc Hf Ho].
  pose proof (Hp _ _ _ Hpend) as Hfly.
  rewrite decide_True by done.
  split; simpl; try done.
  - intros ch' g. destruct (decide (ch' = ch)) as [->|Hne].
    + by rewrite lookup_delete_eq.
    + rewrite lookup_delete_ne by done. intros H.
      destruct (Hr _ _ H) as [a Ha]. exists a.
      rewrite lookup_delete_ne; [done|]. intros <-. congruence.
  - intros g ch' a. destruct (decide (g = generation)) as [->|Hne].
    + by rewrite lookup_delete_eq.
    + rewrite lookup_delete_ne by done. intros H.
      pose proof (Hp _ _ _ H) as Hreg.
      rewrite lookup_delete_ne; [done|]. intros <-. congruence.
  - intros g ch' a. destruct (decide (g = generation)) as [->|Hne].
    + by rewrite lookup_delete_eq.
    + rewrite lookup_delete_ne by done. by apply Hc.
Qed.

Lemma Inv_run sfuSecret history : Inv (run sfuSecret history).
Proof.
  unfold run. generalize Inv_init. generalize init.
  induction history as [|e rest IH]; intros st HI; simpl; [done|].
  apply IH. destruct e; [by apply Inv_arrive | by apply Inv_settle].
Qed.

Lemma called_once (calls : list (string * nat)) ch g :
  NoDup (map snd calls) → (ch, g) ∈ calls →
  length (List.filter (fun call => bool_decide (call.2 = g)) calls) = 1%nat.
Proof.
  induction calls as [|[ch' g'] rest IH]; simpl; intros Hnd Hin;
    [by inversion Hin|].
  apply NoDup_cons in Hnd as [Hnot Hnd].
  case_bool_decide as Hg; simpl in Hg.
  - subst g'. simpl. f_equal.
    assert (Hempty : ∀ l : list (string * nat),
              g ∉ map snd l →
              List.filter (fun call => bool_decide (call.2 = g)) l = []).
    { clear. induction l as [|[c h] l IH]; simpl; [done|]. intros Hn.
      rewrite bool_decide_eq_false_2.
      - apply IH. intros ?. apply Hn. by right.
      - intros ->. apply Hn. left. }
    by rewrite Hempty.
  - apply IH; [done|].
    apply elem_of_cons in Hin as [[= -> ->]|Hin]; done.
Qed.

Lemma elem_of_filter_map {A B} (f : A → B) (p : A → bool) (l : list A) x :
  x ∈ l → p x = true → f x ∈ map f (List.filter p l).
Proof.
  intros Hx Hp. apply list_elem_of_In, in_map, filter_In.
  split; [by apply list_elem_of_In | done].
Qed.

(** C4. Take any history of the route and a channel with a generation in
    flight.  That generation was started by exactly one generator call; a
    further request for the channel starts none and leaves the registry as
    it is, and unless it is served from the cache it is suspended on the
    promise in flight; when the promise is fulfilled, every request
    suspended on it answers with those same PDF bytes, and when it is
    rejected every joined request answers 500; and once the promise has
    settled, either way, the registry has no entry for the channel. *)
Theorem single_flight_per_channel
    (sfuSecret : string) (history : list Event) (ch : string) (g : nat) :
  let st := run sfuSecret history in
  minutesGenerationInFlight st !! ch = Some g →
  ((ch, g) ∈ generatorCalls st
   ∧ length (List.filter (fun call => bool_decide (call.2 = g))
                         (generatorCalls st)) = 1%nat)
  ∧ (∀ req r isRoomActive rid,
       requestChannel r = Some (rid, ch) →
       let st' := arrive sfuSecret req r isRoomActive st in
       generatorCalls st' = generatorCalls st
       ∧ minutesGenerationInFlight st' = minutesGenerationInFlight st
       ∧ (Http.hasValidSecret
            (Http.mkRequest (secretHeader r) None Js.JUndefined []
                            Js.JUndefined) sfuSecret = true →
          (if isRoomActive then None else cachedMinutes st !! ch) = None →
          waiters st' = waiters st ++ [mkWaiter g req rid false]))
  ∧ (∀ pdf w, w ∈ waiters st → promise w = g →
       (request w, pdfFor (waiterRoomId w) pdf)
       ∈ responses (settle g (Some pdf) st))
  ∧ (∀ w, w ∈ waiters st → promise w = g → starter w = false →
       (request w, failed) ∈ responses (settle g None st))
  ∧ (∀ outcome,
       minutesGenerationInFlight (settle g outcome st) !! ch = None).
Proof.
  intros st Hfly.
  pose proof (Inv_run sfuSecret history) as HI. change (Inv st) in HI.
  clearbody st. destruct HI as [Hr Hp Hc Hf Ho].
  destruct (Hr _ _ Hfly) as [active Hpend].
  split; [|split; [|split; [|split]]].
  - split; [by eapply Hc|]. eapply called_once; [done | by eapply Hc].
  - intros req r isRoomActive rid Hch st'. subst st'. unfold arrive.
    rewrite Hch.
    destruct (Http.hasValidSecret _ _); simpl; [|done].
    destruct (if isRoomActive then None else cachedMinutes st !! ch);
      simpl; [done|].
    rewrite Hfly. done.
  - intros pdf w Hw Hprom. unfold settle. rewrite Hpend. simpl.
    apply elem_of_app. right.
    apply (elem_of_filter_map
             (answer ch active
                (if active then cachedMinutes st
                 else <[ch:=pdf]> (cachedMinutes st)) (Some pdf))
             _ _ w Hw).
    by apply bool_decide_eq_true.
  - intros w Hw Hprom Hjoin. unfold settle. rewrite Hpend. simpl.
    apply elem_of_app. right.
    assert (Hans : answer ch active (cachedMinutes st) None w
                   = (request w, failed)).
    { unfold answer. by rewrite Hjoin. }
    rewrite <- Hans.
    apply (elem_of_filter_map _ _ _ w Hw). by apply bool_decide_eq_true.
  - intros outcome. unfold settle. rewrite Hpend. simpl.
    rewrite decide_True by done. apply lookup_delete_eq.
Qed.

Lemma single_flight_per_channel_witness :
  let st := run "s3cret" twoRequests in
  let st' := settle 0 (Some "%PDF-1.3") st in
  generatorCalls st = [("default:r1", 0%nat)]
  ∧ (1%nat, pdfFor "r1" "%PDF-1.3") ∈ responses st'
  ∧ (2%nat, pdfFor "r1" "%PDF-1.3") ∈ responses st'
  ∧ minutesGenerationInFlight st' !! "default:r1" = None.
Proof.
  intros st st'.
  assert (Hfly : minutesGenerationInFlight st !! "default:r1" = Some 0%nat)
    by (vm_compute; reflexivity).
  assert (Hw : waiters st = [mkWaiter 0 1 "r1" true; mkWaiter 0 2 "r1" false])
    by (vm_compute; reflexivity).
  destruct (single_flight_per_channel "s3cret" twoRequests "default:r1" 0 Hfly)
    as (_ & _ & Hsame & _ & Hgone).
  fold st in Hsame, Hgone. split_and!.
  - vm_compute. reflexivity.
  - apply (Hsame "%PDF-1.3" (mkWaiter 0 1 "r1" true)); [|done].
    rewrite Hw. left.
  - apply (Hsame "%PDF-1.3" (mkWaiter 0 2 "r1" false)); [|done].
    rewrite Hw. right. left.
  - apply Hgone.
Defined.

End MinutesFacts.

(* ===================================================================== *)
(** ** Facts about [filter] *)
(* ===================================================================== *)

Module ListFacts.

Lemma filter_keep {A} (f : A → bool) (l : list A) :
  (∀ x, x ∈ l → f x = true) → List.filter f l = l.
Proof.
  induction l as [|x rest IH]; intros Hall; simpl; [done|].
  rewrite (Hall x) by left. f_equal. apply IH. intros y Hy. apply Hall.
  by right.
Qed.

Lemma filter_drop {A} (f : A → bool) (l : list A) :
  (∀ x, x ∈ l → f x = false) → List.filter f l = [].
Proof.
  induction l as [|x rest IH]; intros Hall; simpl; [done|].
  rewrite (Hall x) by left. apply IH. intros y Hy. apply Hall. by right.
Qed.

Lemma filter_twice {A} (f g : A → bool) (l : list A) :
  List.filter g (List.filter f l) = List.filter (fun x => f x && g x) l.
Proof.
  induction l as [|x rest IH]; simpl; [done|].
  destruct (f x); simpl; [|done]. destruct (g x); by rewrite IH.
Qed.

Lemma NoDup_map_filter {A B} (f : A → B) (g : A → bool) (l : list A) :
  NoDup (map f l) → NoDup (map f (List.filter g l)).
Proof.
  induction l as [|x rest IH]; simpl; [done|].
  intros [Hx Hrest]%NoDup_cons. destruct (g x); simpl; [|by apply IH].
  apply NoDup_cons. split; [|by apply IH].
  intros Hin. apply Hx.
  apply list_elem_of_In, in_map_iff in Hin as (y & Hy & Hin).
  apply filter_In in Hin as [Hin _].
  apply list_elem_of_In, in_map_iff. by exists y.
Qed.

Lemma NoDup_map_inj {A B} (f : A → B) (l : list A) x y :
  NoDup (map f l) → x ∈ l → y ∈ l → f x = f y → x = y.
Proof.
  induction l as [|c rest IH]; simpl; intros Hnd Hx Hy Heq;
    [by inversion Hx|].
  apply NoDup_cons in Hnd as [Hc Hrest].
  apply elem_of_cons in Hx as [->|Hx]; apply elem_of_cons in Hy as [->|Hy].
  - done.
  - exfalso. apply Hc. rewrite Heq. apply list_elem_of_In, in_map.
    by apply list_elem_of_In.
  - exfalso. apply Hc. rewrite <- Heq. apply list_elem_of_In, in_map.
    by apply list_elem_of_In.
  - by apply IH.
Qed.

Lemma last_two {A} (l : list A) (a b : A) : last (l ++ [a; b]) = Some b.
Proof. change [a; b] with ([a] ++ [b]). by rewrite app_assoc, last_snoc. Qed.

End ListFacts.


(* ===================================================================== *)
(** ** The transcript as a whole *)
(* ===================================================================== *)

Module TranscriptFacts.
Import Js Transcriber Transcribers JsTerms TranscriptTerms.

Lemma spaced_weaken s : spaced true s = true → spaced false s = true.
Proof.
  destruct s as [|c rest]; simpl; [done|].
  destruct (isWhiteSpace c); [|done].
  rewrite andb_false_r. done.
Qed.

Lemma collapseRuns_spaced s : ∀ inRun, spaced inRun (collapseRuns inRun s) = true.
Proof.
  induction s as [|c rest IH]; intros inRun; simpl; [done|].
  destruct (isWhiteSpace c) eqn:Hc.
  - destruct inRun; [apply IH|]. simpl. apply IH.
  - simpl. rewrite Hc. apply IH.
Qed.

Lemma trimStart_spaced s : ∀ b, spaced b s = true → spaced false (trimStart s) = true.
Proof.
  induction s as [|c rest IH]; intros b; simpl; [done|].
  destruct (isWhiteSpace c) eqn:Hc.
  - intros H. apply andb_true_iff in H as [_ H]. by apply (IH true).
  - intros H. simpl. by rewrite Hc.
Qed.

Lemma trimEnd_spaced s : ∀ b, spaced b s = true → spaced b (trimEnd s) = true.
Proof.
  induction s as [|c rest IH]; intros b; simpl; [done|].
  destruct (isWhiteSpace c) eqn:Hc.
  - intros H. apply andb_true_iff in H as [H1 H2].
    specialize (IH true H2).
    destruct (trimEnd rest) as [|d t]; [done|].
    simpl in *. rewrite Hc, H1. exact IH.
  - intros H. specialize (IH false H).
    destruct (trimEnd rest) as [|d t]; simpl in *; rewrite Hc; done.
Qed.

Lemma collapseRuns_fixed s : ∀ b, spaced b s = true → collapseRuns b s = s.
Proof.
  induction s as [|c rest IH]; intros b; simpl; [done|].
  destruct (isWhiteSpace c) eqn:Hc.
  - intros H. apply andb_true_iff in H as [H1 H2].
    apply andb_true_iff in H1 as [Heq Hb].
    apply Ascii.eqb_eq in Heq. subst c.
    destruct b; [done|]. by rewrite (IH true H2).
  - intros H. by rewrite (IH false H).
Qed.

Lemma normalizeText_spaced s : singleSpaced (normalizeText s) = true.
Proof.
  unfold singleSpaced, normalizeText, trim, collapseWhitespace.
  apply trimEnd_spaced, (trimStart_spaced _ false), collapseRuns_spaced.
Qed.

Lemma normalizeText_trimmed s : trim (normalizeText s) = normalizeText s.
Proof. unfold normalizeText. apply JsFacts.trim_idem. Qed.

Lemma normalizeText_idem s :
  normalizeText (normalizeText s) = normalizeText s.
Proof.
  unfold normalizeText at 1. unfold collapseWhitespace at 1.
  rewrite collapseRuns_fixed by apply normalizeText_spaced.
  apply normalizeText_trimmed.
Qed.

(** X1. Normalising a transcript text is idempotent, and what it yields
    has no white space at either end and no white space inside but single
    SPACEs. *)
Theorem normalizeText_normal_form (s : string) :
  normalizeText (normalizeText s) = normalizeText s
  ∧ trim (normalizeText s) = normalizeText s
  ∧ singleSpaced (normalizeText s) = true.
Proof.
  split_and!.
  - apply normalizeText_idem.
  - apply normalizeText_trimmed.
  - apply normalizeText_spaced.
Qed.


Lemma stored_text_kept s :
  normalizeText s ≠ "" →
  normalizeText s ≠ ""
  ∧ normalizeText (normalizeText s) = normalizeText s.
Proof.
  intros Hne. split; [done|]. apply normalizeText_idem.
Qed.

Lemma appendTranscript_texts transcript chunk :
  Forall (fun c => text c ≠ "" ∧ normalizeText (text c) = text c) transcript →
  Forall (fun c => text c ≠ "" ∧ normalizeText (text c) = text c)
         (appendTranscript transcript chunk).
Proof.
  intros Hall. unfold appendTranscript.
  case_bool_decide as Hnorm; [done|].
  assert (Hnew : Forall (fun c => text c ≠ ""
                                  ∧ normalizeText (text c) = text c)
                   (transcript ++
                    [mkChunk (startMs chunk) (endMs chunk)
                             (normalizeText (text chunk)) (speaker chunk)])).
  { apply Forall_app. split; [done|]. apply Forall_singleton.
    simpl. by apply stored_text_kept. }
  destruct (last transcript) as [l|]; [|done].
  by destruct (isDuplicate l _ chunk).
Qed.

Lemma neighboursDiffer_snoc transcript new :
  neighboursDiffer transcript →
  (∀ l, last transcript = Some l → ¬ sameUtterance l new) →
  neighboursDiffer (transcript ++ [new]).
Proof.
  induction transcript as [|a rest IH]; simpl; [done|].
  destruct rest as [|b rest'].
  - intros _ Hlast. simpl. split; [by apply Hlast | done].
  - intros [Hab Hrest] Hlast. split; [done|].
    apply IH; [done|]. intros l Hl. apply Hlast. exact Hl.
Qed.

Lemma appendTranscript_neighbours transcript chunk :
  neighboursDiffer transcript →
  neighboursDiffer (appendTranscript transcript chunk).
Proof.
  intros Hnd. unfold appendTranscript.
  case_bool_decide as Hnorm; [done|].
  destruct (last transcript) as [l|] eqn:Hlast.
  - destruct (isDuplicate l _ chunk) eqn:Hdup; [done|].
    apply neighboursDiffer_snoc; [done|].
    intros l' Hl' (Ht & He & Hs). rewrite Hlast in Hl'.
    injection Hl' as <-. simpl in *.
    assert (isDuplicate l (normalizeText (text chunk)) chunk = true)
      by (by apply TranscriberFacts.isDuplicate_spec).
    congruence.
  - apply neighboursDiffer_snoc; [done|]. intros l Hl.
    rewrite Hlast in Hl. discriminate.
Qed.

Lemma appended_invariant chunks transcript :
  Forall (fun c => text c ≠ "" ∧ normalizeText (text c) = text c) transcript →
  neighboursDiffer transcript →
  Forall (fun c => text c ≠ "" ∧ normalizeText (text c) = text c)
         (fold_left appendTranscript chunks transcript)
  ∧ neighboursDiffer (fold_left appendTranscript chunks transcript).
Proof.
  revert transcript. induction chunks as [|chunk rest IH];
    intros transcript Ht Hn; simpl; [done|].
  apply IH; [by apply appendTranscript_texts
            | by apply appendTranscript_neighbours].
Qed.

Lemma getTranscript_all transcript :
  Forall (fun c => text c ≠ "" ∧ normalizeText (text c) = text c) transcript →
  getTranscript transcript = transcript.
Proof.
  unfold getTranscript.
  induction 1 as [|c rest [Hne Hfix] _ IH]; [done|].
  rewrite filter_cons_True, IH; [done|].
  rewrite <- Hfix.
  rewrite (normalizeText_trimmed (text c)).
  by rewrite Hfix.
Qed.

(** X3. Whatever chunks a new transcriber is fed, every text it has
    stored is not empty and is in normal form (normalising it again
    changes nothing), so [getTranscript] filters nothing out: it returns
    the transcript as stored. *)
Theorem appended_texts_normal (chunks : list TranscriptChunk) :
  Forall (fun c => text c ≠ "" ∧ normalizeText (text c) = text c)
         (appended chunks)
  ∧ getTranscript (appended chunks) = appended chunks.
Proof.
  destruct (appended_invariant chunks [] (Forall_nil_2 _) I) as [Ht _].
  split; [exact Ht | by apply getTranscript_all].
Qed.

Lemma neighboursDiffer_at transcript :
  neighboursDiffer transcript →
  ∀ before a b after,
    transcript = before ++ a :: b :: after → ¬ sameUtterance a b.
Proof.
  intros Hnd before. revert transcript Hnd.
  induction before as [|x before IH]; intros transcript Hnd a b after ->.
  - by destruct Hnd.
  - simpl in Hnd. destruct (before ++ a :: b :: after) as [|y rest] eqn:Heq.
    + by destruct before.
    + destruct Hnd as [_ Hrest]. by apply (IH _ Hrest a b after).
Qed.

(** X4. Whatever chunks a new transcriber is fed, no two neighbours of
    the stored transcript have the same text, the same speaker and end
    times less than 1500 ms apart. *)
Theorem appended_neighbours_differ
    (chunks before after : list TranscriptChunk) (a b : TranscriptChunk) :
  appended chunks = before ++ a :: b :: after →
  ¬ sameUtterance a b.
Proof.
  intros Heq.
  destruct (appended_invariant chunks [] (Forall_nil_2 _) I) as [_ Hn].
  exact (neighboursDiffer_at _ Hn before a b after Heq).
Qed.

Lemma appended_neighbours_differ_witness :
  let first := mkChunk 1000 2000 "hello world" (Some "p1") in
  let echo := mkChunk 1100 2400 " hello   world " (Some "p1") in
  let late := mkChunk 3000 3600 "hello world" (Some "p1") in
  appended [first; echo; late] = [first; late]
  ∧ ¬ sameUtterance first late.
Proof.
  intros first echo late.
  assert (Heq : appended [first; echo; late] = [] ++ first :: late :: [])
    by (vm_compute; reflexivity).
  split; [exact Heq|].
  exact (appended_neighbours_differ [first; echo; late] [] [] first late Heq).
Defined.

(** X5. [stop()] is idempotent: the transcriber is stopped after the
    first call, which has moved a pending partial result into the
    transcript (at most one chunk) and cleared it, and a further call, at
    any time, changes nothing. *)
Theorem stop_once (now later : Z) (st : State) :
  stop later (stop now st) = stop now st
  ∧ stopped (stop now st) = true
  ∧ (stopped st = false → lastPartialText (stop now st) = "")
  ∧ ∃ flushed, transcript (stop now st) = transcript st ++ flushed
               ∧ (length flushed ≤ 1)%nat.
Proof.
  assert (Hnone : ∀ t : list TranscriptChunk,
            ∃ flushed, t = t ++ flushed ∧ (length flushed ≤ 1)%nat).
  { intros t. exists []. split; [by rewrite app_nil_r | simpl; lia]. }
  assert (Hone : ∀ (t : list TranscriptChunk) c,
            ∃ flushed, t ++ [c] = t ++ flushed ∧ (length flushed ≤ 1)%nat).
  { intros t c. exists [c]. split; [done | simpl; lia]. }
  unfold stop.
  destruct (stopped st) eqn:Hst.
  - cbv beta iota. rewrite Hst. split_and!; [done | done | done |].
    apply Hnone.
  - case_bool_decide as Hp; simpl.
    + split_and!; [done | done | done | apply Hnone].
    + split_and!; [done | done | done |].
      unfold appendTranscript.
      case_bool_decide; [apply Hnone|].
      destruct (last (transcript st)) as [l|]; [|apply Hone].
      destruct (isDuplicate l _ _); [apply Hnone | apply Hone].
Qed.

Lemma stop_once_witness :
  lastPartialText (stop 5000 listening) = ""
  ∧ stop 9000 (stop 5000 listening) = stop 5000 listening.
Proof.
  destruct (stop_once 5000 9000 listening) as (Hidem & _ & Hclear & _).
  split; [by apply Hclear | exact Hidem].
Defined.

(** X6. [stopRoomTranscriber] takes the transcriber of the channel out of
    the registry and leaves those of the other channels alone; a second
    call for the channel therefore returns an empty transcript, and
    [ensureRoomTranscriber] then registers a new, empty transcriber. *)
Theorem stopRoomTranscriber_forgets
    (now later : Z) (channelId : string) (transcribers : gmap string State) :
  let remaining := (stopRoomTranscriber now channelId transcribers).2 in
  stopRoomTranscriber later channelId remaining = ([], remaining)
  ∧ (ensureRoomTranscriber channelId remaining).1 = fresh
  ∧ (∀ other, other ≠ channelId →
              remaining !! other = transcribers !! other).
Proof.
  unfold stopRoomTranscriber, ensureRoomTranscriber.
  destruct (transcribers !! channelId) as [tr|] eqn:Hlook; simpl.
  - rewrite lookup_delete_eq. split_and!; [done | done |].
    intros other Hne. by rewrite lookup_delete_ne.
  - rewrite Hlook. done.
Qed.

End TranscriptFacts.

(* ===================================================================== *)
(** ** User key lists *)
(* ===================================================================== *)

Module KeyFacts.
Import Js KeyTerms.

Lemma elem_of_dedupe k seen keys :
  k ∈ dedupe seen keys ↔ k ∈ keys ∧ k ∉ seen.
Proof.
  revert seen. induction keys as [|x rest IH]; intros seen; simpl.
  - split; [intros H; inversion H | intros [H _]; inversion H].
  - case_bool_decide as Hx.
    + rewrite IH, elem_of_cons. split; [tauto|].
      intros [[->|?] ?]; [done | tauto].
    + rewrite !elem_of_cons, IH, elem_of_cons. split.
      * intros [->|[? ?]]; [tauto|]. split; [tauto|]. tauto.
      * intros [[->|?] ?]; [tauto|].
        destruct (decide (k = x)); [tauto|]. right. tauto.
Qed.

Lemma NoDup_dedupe seen keys : NoDup (dedupe seen keys).
Proof.
  revert seen. induction keys as [|x rest IH]; intros seen; simpl.
  - constructor.
  - case_bool_decide as Hx; [apply IH|].
    constructor; [|apply IH].
    rewrite elem_of_dedupe, elem_of_cons. tauto.
Qed.

Lemma dedupe_fixed seen keys :
  NoDup keys → (∀ k, k ∈ keys → k ∉ seen) → dedupe seen keys = keys.
Proof.
  revert seen. induction keys as [|x rest IH]; intros seen Hnd Hnew; simpl;
    [done|].
  apply NoDup_cons in Hnd as [Hx Hrest].
  rewrite bool_decide_eq_false_2 by (apply Hnew; left).
  f_equal. apply IH; [done|].
  intros k Hk [->|Hs]%elem_of_cons; [done|].
  by apply (Hnew k); [right|].
Qed.

Lemma collectKeys_Some items keys :
  Http.collectKeys items = Some keys →
  Forall normalKey keys
  ∧ ∀ k, k ∈ keys ↔ k ≠ "" ∧ ∃ s, JStr s ∈ items ∧ trim s = k.
Proof.
  revert keys. induction items as [|item rest IH]; intros keys; simpl.
  - intros [= <-]. split; [constructor|].
    intros k. split; [intros H; inversion H|].
    intros (_ & s & H & _). inversion H.
  - destruct item as [| | | |entry| |]; try done.
    destruct (Http.collectKeys rest) as [ks|]; [|done].
    destruct (IH ks eq_refl) as [Hall Hmem].
    intros [= <-]. case_decide as Hblank.
    + split; [done|]. intros k. rewrite Hmem. split.
      * intros (Hne & s & Hs & Htrim). split; [done|].
        exists s. split; [by right | done].
      * intros (Hne & s & [[= <-]|Hs]%elem_of_cons & Htrim); [congruence|].
        split; [done|]. by exists s.
    + split.
      * constructor; [|done]. split; [done | apply JsFacts.trim_idem].
      * intros k. rewrite elem_of_cons, Hmem. split.
        -- intros [->|(Hne & s & Hs & Htrim)].
           ++ split; [done|]. exists entry. split; [left | done].
           ++ split; [done|]. exists s. split; [by right | done].
        -- intros (Hne & s & [[= <-]|Hs]%elem_of_cons & Htrim);
             [by left|]. right. split; [done|]. by exists s.
Qed.

Lemma collectKeys_None items :
  Http.collectKeys items = None
  ↔ Exists (fun item => isString item = false) items.
Proof.
  induction items as [|item rest IH]; simpl.
  - split; [done | intros H; inversion H].
  - rewrite Exists_cons.
    destruct item as [| | | |entry| |]; simpl; try (split; [by left | done]).
    destruct (Http.collectKeys rest) as [ks|].
    + split; [done|]. intros [?|H]; [done|]. by apply IH in H.
    + split; [|done]. intros _. right. by apply IH.
Qed.

Lemma collectKeys_jstrs keys :
  Forall normalKey keys → Http.collectKeys (map jstr keys) = Some keys.
Proof.
  induction 1 as [|k rest [Hne Htrim] _ IH]; simpl; [done|].
  rewrite IH, Htrim. by rewrite decide_False.
Qed.

Lemma socket_parseUserKeys_eq :
  AdminSocket.parseUserKeys = Http.parseUserKeys.
Proof. reflexivity. Qed.

Lemma parseUserKeys_keys (value : Js.Json) (keys : list string) :
  Http.parseUserKeys value = Some keys →
  NoDup keys ∧ Forall normalKey keys.
Proof.
  unfold Http.parseUserKeys.
  destruct value as [| | | |s|items|]; try done.
  - intros [= <-]. case_decide as Hblank.
    + split; constructor.
    + split; [apply NoDup_singleton|].
      apply Forall_singleton. split; [done | apply JsFacts.trim_idem].
  - destruct (Http.collectKeys items) as [ks|] eqn:Hks; [|done].
    intros [= <-]. destruct (collectKeys_Some _ _ Hks) as [Hall _].
    split; [apply NoDup_dedupe|].
    apply Forall_forall. intros k Hk.
    apply elem_of_dedupe in Hk as [Hk _].
    by apply (proj1 (Forall_forall _ _) Hall).
Qed.

(** X7. The keys [parseUserKeys] returns, on either surface, hold no key
    twice, no empty key and no key with white space at an end; for an
    array they are exactly the trimmed entries that are not blank. *)
Theorem parseUserKeys_normal (value : Js.Json) (keys : list string) :
  Http.parseUserKeys value = Some keys →
  AdminSocket.parseUserKeys value = Some keys
  ∧ NoDup keys
  ∧ Forall normalKey keys
  ∧ ∀ items, value = JArr items →
      ∀ k, k ∈ keys ↔ k ≠ "" ∧ ∃ s, JStr s ∈ items ∧ trim s = k.
Proof.
  intros Hparse. destruct (parseUserKeys_keys _ _ Hparse) as [Hnd Hall].
  split_and!; [by rewrite socket_parseUserKeys_eq | done | done |].
  intros items -> k. unfold Http.parseUserKeys in Hparse.
  destruct (Http.collectKeys items) as [ks|] eqn:Hks; [|done].
  injection Hparse as <-.
  destruct (collectKeys_Some _ _ Hks) as [_ Hmem].
  rewrite elem_of_dedupe, Hmem.
  split; [tauto|]. intros H. split; [done|]. intros Hnil. inversion Hnil.
Qed.

Lemma parseUserKeys_normal_witness :
  Http.parseUserKeys (JArr [JStr " bob@x.y "; JStr ""; JStr "bob@x.y"])
  = Some ["bob@x.y"]
  ∧ NoDup ["bob@x.y"].
Proof.
  assert (Hparse :
            Http.parseUserKeys
              (JArr [JStr " bob@x.y "; JStr ""; JStr "bob@x.y"])
            = Some ["bob@x.y"]) by (vm_compute; reflexivity).
  split; [exact Hparse|].
  exact (proj1 (proj2 (parseUserKeys_normal _ _ Hparse))).
Defined.

(** X8. What [parseUserKeys] returns is a fixed point: the returned list,
    sent again as the [userKeys] array, is parsed to itself. *)
Theorem parseUserKeys_round_trip (value : Js.Json) (keys : list string) :
  Http.parseUserKeys value = Some keys →
  Http.parseUserKeys (jstrs keys) = Some keys.
Proof.
  intros Hparse.
  destruct (parseUserKeys_keys _ _ Hparse) as [Hnd Hall].
  unfold Http.parseUserKeys, jstrs.
  rewrite (collectKeys_jstrs _ Hall). simpl.
  f_equal. apply dedupe_fixed; [done|]. intros k _ H. inversion H.
Qed.

Lemma parseUserKeys_round_trip_witness :
  Http.parseUserKeys (JStr "  alice@x.y ") = Some ["alice@x.y"]
  ∧ Http.parseUserKeys (jstrs ["alice@x.y"]) = Some ["alice@x.y"].
Proof.
  assert (Hparse : Http.parseUserKeys (JStr "  alice@x.y ")
                   = Some ["alice@x.y"]) by (vm_compute; reflexivity).
  split; [exact Hparse|].
  exact (parseUserKeys_round_trip _ _ Hparse).
Defined.

(** X9. [parseUserKeys] returns [null] exactly for a value that is
    neither a string nor an array, and for an array with an entry that is
    not a string, wherever that entry stands. *)
Theorem parseUserKeys_refuses (value : Js.Json) :
  Http.parseUserKeys value = None
  ↔ match value with
    | JStr _ => False
    | JArr items => Exists (fun item => isString item = false) items
    | _ => True
    end.
Proof.
  unfold Http.parseUserKeys.
  destruct value as [| | | |s|items|]; try done.
  rewrite <- collectKeys_None.
  by destruct (Http.collectKeys items).
Qed.

End KeyFacts.

(* ===================================================================== *)
(** ** Room lookup *)
(* ===================================================================== *)

Module ResolveFacts.
Import Js ControlPlane LookupTerms.

Lemma assoc_Some {A} (k : string) (l : list (string * A)) v :
  assoc k l = Some v → (k, v) ∈ l.
Proof.
  induction l as [|[k' v'] rest IH]; simpl; [done|].
  case_decide as Hk.
  - intros [= <-]. subst k'. left.
  - intros H. right. by apply IH.
Qed.

(** X10. [resolveRoom] ignores white space around the room id and around
    the client id: the lookup of the trimmed values gives the same
    result. *)
Theorem resolveRoom_trims
    (state : SfuState) (roomId : string) (clientId : option string) :
  resolveRoom state roomId clientId
  = resolveRoom state (trim roomId) (trim <$> clientId).
Proof.
  unfold resolveRoom. rewrite JsFacts.trim_idem.
  assert (Hc : trim <$> (trim <$> clientId) = trim <$> clientId).
  { destruct clientId as [c|]; simpl; [|done]. by rewrite JsFacts.trim_idem. }
  by rewrite Hc.
Qed.

(** X11. A room that [resolveRoom] returns is a room of the registry.
    With a client id it is the room registered under the channel id made
    of the trimmed client id and room id.  Without one, it carries the
    trimmed room id, the channel id returned is its own, and it is the
    only room of the registry with that id. *)
Theorem resolveRoom_found
    (state : SfuState) (roomId : string) (clientId : option string)
    (room : Room.t) (channelId : string) :
  resolveRoom state roomId clientId = Found room channelId →
  room ∈ map snd (rooms state)
  ∧ trim roomId ≠ ""
  ∧ (∀ tenant, trim <$> clientId = Some tenant → tenant ≠ "" →
       channelId = getRoomChannelId tenant (trim roomId)
       ∧ (channelId, room) ∈ rooms state)
  ∧ (default "" (trim <$> clientId) = "" →
       channelId = Room.channelId room
       ∧ Room.id room = trim roomId
       ∧ ∀ other, other ∈ map snd (rooms state) →
                  Room.id other = trim roomId → other = room).
Proof.
  unfold resolveRoom.
  case_decide as Hid; [done|].
  case_decide as Hc.
  - destruct (assoc _ (rooms state)) as [r|] eqn:Hget; [|done].
    intros [= <- <-]. apply assoc_Some in Hget.
    split_and!; [| done | |done].
    + apply list_elem_of_In, in_map_iff. eexists. split; [|apply list_elem_of_In, Hget].
      done.
    + intros tenant Ht _. rewrite Ht in Hget |- *. simpl in *. done.
  - destruct (List.filter _ _) as [|r [|r2 rest]] eqn:Hf; try done.
    intros [= <- <-].
    assert (Hin : ∀ x, In x (map snd (rooms state))
                       ∧ bool_decide (Room.id x = trim roomId) = true
                       ↔ x = r).
    { intros x.
      pose proof (filter_In
                    (fun room => bool_decide (Room.id room = trim roomId))
                    x (map snd (rooms state))) as H.
      rewrite Hf in H. simpl in H. rewrite <- H.
      split; [intros [?|[]]; done | by left]. }
    destruct (proj2 (Hin r) eq_refl) as [Hr Hrid].
    apply bool_decide_eq_true in Hrid.
    split_and!; [by apply list_elem_of_In | done | |].
    + intros tenant Ht Hne. rewrite Ht in Hc. simpl in Hc. done.
    + intros _. split_and!; [done | done |].
      intros other Ho Hoid. apply Hin. split; [by apply list_elem_of_In|].
      by apply bool_decide_eq_true.
Qed.

Lemma resolveRoom_found_witness :
  resolveRoom twoTenants " rX " (Some "t2")
  = Found (tenantRoom "t2" "rX") "t2:rX"
  ∧ tenantRoom "t2" "rX" ∈ map snd (rooms twoTenants).
Proof.
  assert (Hfound : resolveRoom twoTenants " rX " (Some "t2")
                   = Found (tenantRoom "t2" "rX") "t2:rX")
    by (vm_compute; reflexivity).
  split; [exact Hfound|].
  exact (proj1 (resolveRoom_found _ _ _ _ _ Hfound)).
Defined.

End ResolveFacts.

(* ===================================================================== *)
(** ** Admitting and rejecting the waiting room *)
(* ===================================================================== *)

Module AdmissionFacts.
Import ControlPlane Admission AccessTerms AdmissionTerms ListFacts.

Lemma admitOne_fold pending : ∀ room effects admitted,
  ∃ room',
    fold_left admitOne pending (room, effects, admitted)
    = (room', effects ++ toPending "joinApproved" pending,
       admitted ++ refs pending)
    ∧ Room.id room' = Room.id room
    ∧ Room.clients room' = Room.clients room
    ∧ Room.isLocked room' = Room.isLocked room
    ∧ Room.allowedUsers room'
      = list_to_set (keysOf pending) ∪ Room.allowedUsers room
    ∧ Room.lockedAllowedUsers room'
      = (if Room.isLocked room
         then list_to_set (keysOf pending) ∪ Room.lockedAllowedUsers room
         else Room.lockedAllowedUsers room)
    ∧ Room.blockedUsers room' = Room.blockedUsers room.
Proof.
  induction pending as [|p rest IH]; intros room effects admitted.
  - exists room. simpl. rewrite !app_nil_r.
    split_and!; try done; [set_solver|].
    destruct (Room.isLocked room); set_solver.
  - cbn [fold_left]. unfold admitOne at 2.
    destruct (IH (Room.allowUser (Pending.userKey p)
                    (if Room.isLocked room
                     then Room.allowLockedUser (Pending.userKey p) room
                     else room))
                 (effects ++ [SocketEmit (Pending.socket p) "joinApproved"
                                Js.JUndefined])
                 (admitted ++ [(Pending.userId p, Pending.userKey p)]))
      as (room' & Heq & Hid & Hcl & Hlk & Ha & Hla & Hb).
    exists room'. rewrite Heq, <- !app_assoc.
    destruct (Room.isLocked room) eqn:Hlocked; simpl in *;
      rewrite ?Hlocked in *;
      (split_and!; [done | done | done | done | set_solver | | done]).
    + rewrite Hla. set_solver.
    + done.
Qed.

Lemma toAdmins_refs room room' event (pending : list Pending.t) :
  Room.id room' = Room.id room → Room.clients room' = Room.clients room →
  concat (map (fun admin =>
                 map (fun user : PendingRef =>
                        SocketEmit (Client.socket admin) event
                          (Js.JObj [("userId", jstr (snd user));
                                    ("roomId", jstr (Room.id room'))]))
                     (refs pending))
              (Room.getAdmins room'))
  = toAdmins room event (keysOf pending).
Proof.
  intros Hid Hcl. unfold toAdmins, Room.getAdmins. rewrite Hid, Hcl.
  f_equal. apply map_ext. intros admin.
  unfold refs, keysOf. by rewrite !map_map.
Qed.

(** X12. [admitAllPendingUsers] reports every pending entry, in
    waiting-room order; it sends [joinApproved] to the socket of each, in
    that order, and then [userAdmitted] for each key to each admin; every
    key of the waiting room is in [allowedUsers] afterwards, and in
    [lockedAllowedUsers] too when the room is locked; the blocked set and
    the clients are as before. *)
Theorem admitAllPendingUsers_admits (room : Room.t) :
  let pending := Room.pendingClients room in
  ∃ room',
    admitAllPendingUsers room
    = (refs pending, room',
       toPending "joinApproved" pending
       ++ toAdmins room "userAdmitted" (keysOf pending))
    ∧ Room.allowedUsers room'
      = list_to_set (keysOf pending) ∪ Room.allowedUsers room
    ∧ (Room.isLocked room = true →
       Room.lockedAllowedUsers room'
       = list_to_set (keysOf pending) ∪ Room.lockedAllowedUsers room)
    ∧ (Room.isLocked room = false →
       Room.lockedAllowedUsers room' = Room.lockedAllowedUsers room)
    ∧ Room.blockedUsers room' = Room.blockedUsers room
    ∧ Room.clients room' = Room.clients room.
Proof.
  intros pending. unfold admitAllPendingUsers. fold pending.
  destruct (admitOne_fold pending room [] [])
    as (room' & Heq & Hid & Hcl & Hlk & Ha & Hla & Hb).
  exists room'. rewrite Heq. simpl.
  rewrite (toAdmins_refs room room' _ pending Hid Hcl).
  split_and!; try done.
  - intros Hl. by rewrite Hla, Hl.
  - intros Hl. by rewrite Hla, Hl.
Qed.

Lemma deletePending_filter userKey room :
  Room.pendingClients (Room.removePendingClient userKey room)
  = List.filter (fun p => negb (bool_decide (Pending.userKey p = userKey)))
                (Room.pendingClients room).
Proof. reflexivity. Qed.

Lemma rejectOne_fold pending : ∀ room effects rejected,
  ∃ room',
    fold_left rejectOne pending (room, effects, rejected)
    = (room', effects ++ toPending "joinRejected" pending,
       rejected ++ refs pending)
    ∧ Room.id room' = Room.id room
    ∧ Room.clients room' = Room.clients room
    ∧ Room.allowedUsers room' = Room.allowedUsers room
    ∧ Room.lockedAllowedUsers room' = Room.lockedAllowedUsers room
    ∧ Room.blockedUsers room' = Room.blockedUsers room
    ∧ Room.pendingClients room'
      = List.filter
          (fun p => negb (bool_decide (Pending.userKey p ∈ keysOf pending)))
          (Room.pendingClients room).
Proof.
  induction pending as [|p rest IH]; intros room effects rejected.
  - exists room. cbn [fold_left toPending refs map]. rewrite !app_nil_r.
    split_and!; try done.
    symmetry. apply filter_keep. intros q _.
    rewrite bool_decide_eq_false_2; [done|]. intros H. inversion H.
  - cbn [fold_left]. unfold rejectOne at 2.
    destruct (IH (Room.removePendingClient (Pending.userKey p) room)
                 (effects ++ [SocketEmit (Pending.socket p) "joinRejected"
                                Js.JUndefined])
                 (rejected ++ [(Pending.userId p, Pending.userKey p)]))
      as (room' & Heq & Hid & Hcl & Ha & Hla & Hb & Hp).
    exists room'. rewrite Heq, <- !app_assoc.
    split_and!; try done.
    rewrite Hp, deletePending_filter, filter_twice.
    apply filter_ext. intros q.
    change (keysOf (p :: rest)) with (Pending.userKey p :: keysOf rest).
    repeat case_bool_decide; simpl; try done; exfalso; set_solver.
Qed.

(** X13. [rejectAllPendingUsers] reports every pending entry, in
    waiting-room order; it sends [joinRejected] to the socket of each and
    then [userRejected] for each key to each admin; afterwards the waiting
    room is empty, and the allowed, locked-allowed and blocked sets are as
    before: nobody is blocked by being rejected. *)
Theorem rejectAllPendingUsers_empties (room : Room.t) :
  let pending := Room.pendingClients room in
  ∃ room',
    rejectAllPendingUsers room
    = (refs pending, room',
       toPending "joinRejected" pending
       ++ toAdmins room "userRejected" (keysOf pending))
    ∧ Room.pendingClients room' = []
    ∧ Room.allowedUsers room' = Room.allowedUsers room
    ∧ Room.lockedAllowedUsers room' = Room.lockedAllowedUsers room
    ∧ Room.blockedUsers room' = Room.blockedUsers room
    ∧ Room.clients room' = Room.clients room.
Proof.
  intros pending. unfold rejectAllPendingUsers. fold pending.
  destruct (rejectOne_fold pending room [] [])
    as (room' & Heq & Hid & Hcl & Ha & Hla & Hb & Hp).
  exists room'. rewrite Heq. simpl.
  rewrite (toAdmins_refs room room' _ pending Hid Hcl).
  split_and!; try done.
  rewrite Hp. fold pending.
  apply filter_drop. intros p Hin.
  rewrite bool_decide_eq_true_2; [done|].
  unfold keysOf. apply list_elem_of_In, in_map. by apply list_elem_of_In.
Qed.

Lemma guard_ok context cb handler :
  AdminSocket.succeeded (SocketModeration.guard context cb handler) = true →
  ∃ room adminId,
    AdminSocket.currentRoom context = Some room
    ∧ SocketModeration.guard context cb handler = handler room adminId.
Proof.
  unfold SocketModeration.guard, AdminSocket.ensureAdminRoom.
  destruct (AdminSocket.currentRoom context) as [room|];
    [|by destruct cb].
  destruct (AdminSocket.currentClient context) as [client|];
    [|by destruct cb].
  destruct (Client.isAdmin client); [|by destruct cb].
  intros _. by eexists _, _.
Qed.

Lemma elem_of_removePending p userKey room :
  p ∈ Room.pendingClients (Room.removePendingClient userKey room)
  ↔ p ∈ Room.pendingClients room ∧ Pending.userKey p ≠ userKey.
Proof.
  rewrite deletePending_filter, list_elem_of_In, filter_In,
    <- list_elem_of_In, negb_true_iff, bool_decide_eq_false.
  done.
Qed.

(** X14. A reject that succeeds, on the operator route or through the
    [rejectUser] event, found a pending entry for the key, sent
    [joinRejected] to its socket, and took the entries with that key, and
    no other, out of the waiting room; the allowed, locked-allowed and
    blocked sets are untouched. *)
Theorem reject_removes_pending_only :
  (∀ env state req,
     let result := HttpModeration.postPendingReject env state req in
     let userKey := Js.toStringOrEmpty (Http.param "userKey" req) in
     Http.status (Http.response result) = 200 →
     ∃ room channelId pending room',
       Http.resolveRoomForAdmin state req = inr (room, channelId)
       ∧ Room.getPending userKey room = Some pending
       ∧ Http.room result = Some room'
       ∧ SocketEmit (Pending.socket pending) "joinRejected" Js.JUndefined
         ∈ Http.effects result
       ∧ (∀ p, p ∈ Room.pendingClients room'
               ↔ p ∈ Room.pendingClients room ∧ Pending.userKey p ≠ userKey)
       ∧ Room.allowedUsers room' = Room.allowedUsers room
       ∧ Room.lockedAllowedUsers room' = Room.lockedAllowedUsers room
       ∧ Room.blockedUsers room' = Room.blockedUsers room)
  ∧ (∀ context userKey cb,
       let result := SocketModeration.rejectUser context (jstr userKey) cb in
       AdminSocket.succeeded result = true →
       ∃ room pending room',
         AdminSocket.currentRoom context = Some room
         ∧ Room.getPending userKey room = Some pending
         ∧ AdminSocket.room result = Some room'
         ∧ SocketEmit (Pending.socket pending) "joinRejected" Js.JUndefined
           ∈ AdminSocket.effects result
         ∧ (∀ p, p ∈ Room.pendingClients room'
                 ↔ p ∈ Room.pendingClients room
                   ∧ Pending.userKey p ≠ userKey)
         ∧ Room.allowedUsers room' = Room.allowedUsers room
         ∧ Room.lockedAllowedUsers room' = Room.lockedAllowedUsers room
         ∧ Room.blockedUsers room' = Room.blockedUsers room).
Proof.
  split.
  - intros env state req result userKey Hok. subst result.
    unfold HttpModeration.postPendingReject in *.
    destruct (AccessFacts.withRoom_ok _ _ _ _ _ Hok)
      as (room & ch & Hres & Heq).
    rewrite Heq in Hok |- *. clear Heq. fold userKey in Hok |- *.
    destruct (decide (userKey = "")); [done|].
    destruct (Room.getPending userKey room) as [pending|] eqn:Hpending;
      [|done].
    exists room, ch, pending. eexists. split_and!; try done.
    + simpl. left.
    + intros p. apply elem_of_removePending.
  - intros context userKey cb result Hok. subst result.
    unfold SocketModeration.rejectUser in *.
    destruct (guard_ok _ _ _ Hok) as (room & adminId & Hroom & Heq).
    rewrite Heq in Hok |- *. clear Heq. simpl in Hok |- *.
    destruct (Room.getPending userKey room) as [pending|] eqn:Hpending;
      [|by destruct cb].
    pose proof (AccessFacts.getPending_Some _ _ _ Hpending) as Hkey.
    exists room, pending. eexists. split_and!; try done.
    + simpl. left.
    + intros p. simpl. rewrite Hkey. apply elem_of_removePending.
Qed.

Lemma reject_removes_pending_only_witness :
  ∃ room',
    Http.room (HttpModeration.postPendingReject operatorEnv (registry lobby)
                                                rejectDave) = Some room'
    ∧ Room.pendingClients room' = [erin]
    ∧ Room.blockedUsers room' = ∅.
Proof.
  destruct (proj1 reject_removes_pending_only
              operatorEnv (registry lobby) rejectDave eq_refl)
    as (room & ch & pending & room' & Hres & _ & Hroom & _ & _ & _ & _ & Hb).
  injection Hres as <- <-.
  exists room'. split_and!; [exact Hroom | | exact Hb].
  vm_compute in Hroom. by injection Hroom as <-.
Defined.

End AdmissionFacts.

(* ===================================================================== *)
(** ** Moderation of one participant *)
(* ===================================================================== *)

Module MediaFacts.
Import ControlPlane HttpModeration ModerationTerms MediaTerms AccessTerms ListFacts.

Lemma toKind_Some entry k : toKind entry = Some k ↔ entry = kindJson k.
Proof.
  unfold toKind, kindJson, jstr.
  destruct entry as [| | | |s| |]; try (split; done).
  split.
  - repeat case_decide; intros Hsome; try discriminate;
      injection Hsome as <-; by subst.
  - intros [= ->]. by destruct k.
Qed.

Lemma toType_Some entry t : toType entry = Some t ↔ entry = typeJson t.
Proof.
  unfold toType, typeJson, jstr.
  destruct entry as [| | | |s| |]; try (split; done).
  split.
  - repeat case_decide; intros Hsome; try discriminate;
      injection Hsome as <-; by subst.
  - intros [= ->]. by destruct t.
Qed.

Lemma parseEntries_spelled {A} (read : Js.Json → option A)
    (enc : A → Js.Json) :
  (∀ entry a, read entry = Some a ↔ entry = enc a) →
  ∀ items, parseEntries read (map enc items) = Some items.
Proof.
  intros Hread. induction items as [|x xs IH]; simpl; [done|].
  by rewrite (proj2 (Hread (enc x) x) eq_refl), IH.
Qed.

Lemma parseEntries_Some {A} (read : Js.Json → option A) (enc : A → Js.Json) :
  (∀ entry a, read entry = Some a ↔ entry = enc a) →
  ∀ entries items,
    parseEntries read entries = Some items ↔ entries = map enc items.
Proof.
  intros Hread entries items. split.
  - revert items. induction entries as [|entry rest IH]; intros items; simpl.
    + by intros [= <-].
    + destruct (read entry) as [a|] eqn:Ha; [|done].
      destruct (parseEntries read rest) as [l|]; [|done].
      intros [= <-]. simpl. apply Hread in Ha. subst entry.
      f_equal. by apply IH.
  - intros ->. by apply parseEntries_spelled.
Qed.

Lemma parseMedia_Only {A} (read : Js.Json → option A) (enc : A → Js.Json) :
  (∀ entry a, read entry = Some a ↔ entry = enc a) →
  ∀ value items,
    parseMedia read value = Only items
    ↔ items ≠ [] ∧ value = Js.JArr (map enc items).
Proof.
  intros Hread value items. unfold parseMedia. split.
  - destruct value as [| | | | |entries|]; try done.
    destruct entries as [|entry rest]; [done|].
    destruct (parseEntries read (entry :: rest)) as [l|] eqn:Hl; [|done].
    intros [= <-].
    apply (parseEntries_Some read enc Hread) in Hl.
    split; [|by rewrite Hl]. destruct l; done.
  - intros [Hne ->].
    destruct items as [|x xs]; [done|].
    change (map enc (x :: xs)) with (enc x :: map enc xs).
    change (enc x :: map enc xs) with (map enc (x :: xs)).
    destruct (map enc (x :: xs)) as [|e es] eqn:Hmap; [done|].
    rewrite <- Hmap. by rewrite (parseEntries_spelled read enc Hread).
Qed.

Lemma parseMedia_Unrestricted {A} (read : Js.Json → option A) value :
  parseMedia read value = Unrestricted
  ↔ value = Js.JUndefined ∨ value = Js.JArr [].
Proof.
  unfold parseMedia.
  destruct value as [| | | | |entries|];
    try (split; [done | by intros [?|?]]).
  - split; [by left | done].
  - destruct entries as [|entry rest]; [split; [by right | done]|].
    destruct (parseEntries read (entry :: rest));
      (split; [done | by intros [?|?]]).
Qed.

(** X15. [parseMediaKinds] and [parseMediaTypes] return a list exactly
    for a non-empty array of the names of that list, in order: parsing is
    the inverse of spelling the kinds and types out.  They return
    [undefined], which lifts the restriction, exactly for an absent value
    and for the empty array; every other value is refused. *)
Theorem parseMedia_round_trip :
  (∀ value kinds,
     parseMediaKinds value = Only kinds
     ↔ kinds ≠ [] ∧ value = Js.JArr (map kindJson kinds))
  ∧ (∀ value types,
       parseMediaTypes value = Only types
       ↔ types ≠ [] ∧ value = Js.JArr (map typeJson types))
  ∧ (∀ value,
       parseMediaKinds value = Unrestricted
       ↔ value = Js.JUndefined ∨ value = Js.JArr [])
  ∧ (∀ value,
       parseMediaTypes value = Unrestricted
       ↔ value = Js.JUndefined ∨ value = Js.JArr []).
Proof.
  split_and!.
  - apply parseMedia_Only, toKind_Some.
  - apply parseMedia_Only, toType_Some.
  - apply parseMedia_Unrestricted.
  - apply parseMedia_Unrestricted.
Qed.

Lemma takeProducer_exact ps info :
  NoDup (map producerId ps) → info ∈ ps →
  Client.takeProducer (producerId info) ps
  = Some (info,
          List.filter
            (fun p => negb (bool_decide (producerId p = producerId info)))
            ps).
Proof.
  induction ps as [|p rest IH]; intros Hnd Hin; [by inversion Hin|].
  pose proof Hnd as Hnd'. simpl in Hnd'.
  apply NoDup_cons in Hnd' as [Hp Hrest].
  simpl. case_decide as Hid.
  - assert (p = info).
    { apply (NoDup_map_inj producerId (p :: rest)); [done | left | done..]. }
    subst p. rewrite bool_decide_eq_true_2 by done. simpl.
    do 2 f_equal. symmetry. apply filter_keep. intros q Hq.
    rewrite bool_decide_eq_false_2; [done|]. intros Heq. apply Hp.
    rewrite <- Heq. apply list_elem_of_In, in_map. by apply list_elem_of_In.
  - apply elem_of_cons in Hin as [->|Hin]; [done|].
    rewrite (IH Hrest Hin), bool_decide_eq_false_2 by done. done.
Qed.

Lemma getClient_updateClient userId room c c' :
  Room.getClient userId room = Some c → Client.id c' = userId →
  Room.getClient userId (Room.updateClient userId (fun _ => c') room)
  = Some c'.
Proof.
  unfold Room.getClient, Room.updateClient. simpl.
  induction (Room.clients room) as [|x rest IH]; simpl; [done|].
  case_bool_decide as Hx; simpl.
  - intros _ Hid. by rewrite bool_decide_eq_true_2.
  - intros Hfind Hid. rewrite bool_decide_eq_false_2 by done. by apply IH.
Qed.

Lemma getClient_id userId room c :
  Room.getClient userId room = Some c → Client.id c = userId ∧ c ∈ Room.clients room.
Proof.
  unfold Room.getClient. intros H. apply find_some in H as [Hin H].
  apply bool_decide_eq_true in H. split; [done | by apply list_elem_of_In].
Qed.

Lemma getClient_clearScreenShareProducer userId pid room :
  Room.getClient userId (Room.clearScreenShareProducer pid room)
  = Room.getClient userId room.
Proof.
  unfold Room.getClient.
  by rewrite ModerationFacts.clients_clearScreenShareProducer.
Qed.

Lemma closeInfo_exact userId target ps room effects closedPs info :
  Room.getClient userId room = Some (Client.withProducers ps target) →
  NoDup (map producerId ps) → info ∈ ps →
  ∃ room' sent,
    closeInfo userId (room, effects, closedPs) info
    = (room', effects ++ sent, closedPs ++ [closedEntry info])
    ∧ Room.getClient userId room'
      = Some (Client.withProducers
                (List.filter
                   (fun p => negb (bool_decide
                                     (producerId p = producerId info))) ps)
                target).
Proof.
  intros Hget Hnd Hin. unfold closeInfo. rewrite Hget.
  unfold Client.removeProducerById. simpl.
  rewrite (takeProducer_exact ps info Hnd Hin).
  destruct (getClient_id _ _ _ Hget) as [Hid _]. simpl in Hid.
  set (rest := List.filter _ ps).
  set (room1 := Room.updateClient userId _ room).
  assert (Hget1 : Room.getClient userId room1
                  = Some (Client.withProducers rest target)).
  { subst room1. by apply (getClient_updateClient _ _ _ _ Hget). }
  eexists _, _. split; [reflexivity|].
  destruct (isScreenShare info);
    [rewrite getClient_clearScreenShareProducer|]; exact Hget1.
Qed.

Lemma closeInfo_fold_exact userId target infos :
  ∀ ps room effects closedPs,
    Room.getClient userId room = Some (Client.withProducers ps target) →
    NoDup (map producerId ps) → NoDup (map producerId infos) →
    (∀ info, info ∈ infos → info ∈ ps) →
    ∃ room' sent,
      fold_left (closeInfo userId) infos (room, effects, closedPs)
      = (room', effects ++ sent, closedPs ++ map closedEntry infos)
      ∧ Room.getClient userId room'
        = Some (Client.withProducers
                  (List.filter
                     (fun p => negb (bool_decide
                                       (producerId p
                                        ∈ map producerId infos))) ps)
                  target).
Proof.
  induction infos as [|info rest IH];
    intros ps room effects closedPs Hget Hnd Hinfos Hsub.
  - exists room, []. cbn [fold_left map]. rewrite !app_nil_r.
    split; [done|]. rewrite Hget. do 2 f_equal. symmetry.
    apply filter_keep. intros p _.
    rewrite bool_decide_eq_false_2; [done|]. intros H. inversion H.
  - cbn [fold_left].
    destruct (closeInfo_exact userId target ps room effects closedPs info
                Hget Hnd (Hsub info ltac:(left)))
      as (room1 & sent1 & Heq1 & Hget1).
    rewrite Heq1.
    simpl in Hinfos. apply NoDup_cons in Hinfos as [Hinfo Hrest].
    destruct (IH _ room1 (effects ++ sent1) (closedPs ++ [closedEntry info])
                Hget1 (NoDup_map_filter _ _ _ Hnd) Hrest)
      as (room' & sent & Heq & Hget').
    { intros q Hq. apply list_elem_of_In, filter_In.
      split; [apply list_elem_of_In, Hsub; by right|].
      rewrite bool_decide_eq_false_2; [done|]. intros Hid. apply Hinfo.
      rewrite <- Hid. apply list_elem_of_In, in_map. by apply list_elem_of_In. }
    exists room', (sent1 ++ sent). rewrite Heq, <- !app_assoc.
    split; [done|]. rewrite Hget'. do 2 f_equal.
    rewrite filter_twice. apply filter_ext. intros p.
    change (map producerId (info :: rest))
      with (producerId info :: map producerId rest).
    repeat case_bool_decide; simpl; try done; exfalso; set_solver.
Qed.

Lemma closeClientProducers_selected
    (room : Room.t) (userId : string) (selector : option Selector)
    (reason : string) (target : Client.t) :
  Room.getClient userId room = Some target →
  NoDup (map producerId (Client.producers target)) →
  ∃ room' effs,
    closeClientProducers room userId selector reason
    = (mkClosedProducers (length (selected selector target))
                         (map closedEntry (selected selector target)),
       room', effs)
    ∧ Room.getClient userId room'
      = Some (Client.withProducers (unselected selector target) target).
Proof.
  intros Hget Hnd. unfold closeClientProducers. rewrite Hget.
  unfold Client.getProducerInfos. fold (selected selector target).
  assert (Hself : Client.withProducers (Client.producers target) target
                  = target) by (by destruct target).
  destruct (closeInfo_fold_exact userId target (selected selector target)
              (Client.producers target) room [] [])
    as (room' & sent & Heq & Hget').
  { by rewrite Hself. }
  { done. }
  { by apply NoDup_map_filter. }
  { intros info Hin. apply list_elem_of_In, filter_In in Hin as [Hin _].
    by apply list_elem_of_In. }
  rewrite Heq. cbn [app]. rewrite length_map.
  eexists room', _. split; [reflexivity|].
  rewrite Hget'. do 2 f_equal. unfold unselected.
  apply filter_ext_in. intros p Hp. f_equal.
  apply list_elem_of_In in Hp.
  destruct (shouldCloseProducer p selector) eqn:Hsel.
  - apply bool_decide_eq_true_2, list_elem_of_In, in_map, filter_In.
    split; [by apply list_elem_of_In | done].
  - apply bool_decide_eq_false_2. intros Hin.
    apply list_elem_of_In, in_map_iff in Hin as (q & Hid & Hq).
    apply filter_In in Hq as [Hq Hselq].
    assert (q = p).
    { apply (NoDup_map_inj producerId (Client.producers target));
        [done | by apply list_elem_of_In | done | done]. }
    subst q. congruence.
Qed.

(** X16. [closeClientProducers] for a user that is not a client of the
    room closes nothing, sends nothing and leaves the room as it is.  For
    a client of the room whose producers have distinct ids it closes
    exactly the producers the selector matches: it reports them, in the
    client's order, with their count, the client keeps the other producers
    and nothing else about it changes. *)
Theorem closeClientProducers_exact
    (room : Room.t) (userId : string) (selector : option Selector)
    (reason : string) :
  (Room.getClient userId room = None →
   closeClientProducers room userId selector reason
   = (mkClosedProducers 0 [], room, []))
  ∧ ∀ target,
      Room.getClient userId room = Some target →
      NoDup (map producerId (Client.producers target)) →
      ∃ room' effs,
        closeClientProducers room userId selector reason
        = (mkClosedProducers (length (selected selector target))
                             (map closedEntry (selected selector target)),
           room', effs)
        ∧ Room.getClient userId room'
          = Some (Client.withProducers (unselected selector target) target).
Proof.
  split.
  - intros Hnone. unfold closeClientProducers. by rewrite Hnone.
  - intros target Hget Hnd. by apply closeClientProducers_selected.
Qed.

Lemma closeClientProducers_exact_witness :
  ∃ room' effs,
    closeClientProducers studio "frank@x.y#s1" (Some webcamVideo)
                         "Camera turned off by host"
    = (mkClosedProducers 1 [("f-cam", video, webcam)], room', effs)
    ∧ Room.getClient "frank@x.y#s1" room'
      = Some (Client.withProducers
                [mkProducerInfo "f-audio" audio webcam false;
                 mkProducerInfo "f-screen" video screen false] frank).
Proof.
  assert (Hnd : NoDup (map producerId (Client.producers frank))).
  { refine (bool_decide_unpack _ _). vm_compute. exact I. }
  exact (proj2 (closeClientProducers_exact studio "frank@x.y#s1"
                  (Some webcamVideo) "Camera turned off by host")
               frank eq_refl Hnd).
Defined.

(** X17. The video-off route closes the webcam video producers of the
    user in the path, whatever [kinds] and [types] the body carries: for a
    client of the resolved room whose producers have distinct ids, the
    answer is 200 with the count and the list of the client's webcam video
    producers, and the client keeps exactly its other producers. *)
Theorem video_off_closes_webcam_only
    (env : Http.Env) (state : SfuState) (req : Http.Request)
    (room : Room.t) (channelId : string) (target : Client.t) :
  let userId := Js.toStringOrEmpty (Http.param "userId" req) in
  let result := postUserVideoOff env state req in
  let closedNow := selected (Some webcamVideo) target in
  Http.hasValidSecret req (Http.sfuSecret env) = true →
  Http.ioReady env = true →
  Http.resolveRoomForAdmin state req = inr (room, channelId) →
  userId ≠ "" →
  Room.getClient userId room = Some target →
  NoDup (map producerId (Client.producers target)) →
  ∃ room',
    Http.room result = Some room'
    ∧ Http.response result
      = Http.mkResponse 200
          (Js.JObj
             [("success", Js.JBool true);
              ("userId", jstr userId);
              ("affectedProducers", jnat (length closedNow));
              ("producers",
               Js.JArr (map closedProducerJson
                            (map closedEntry closedNow)))])
    ∧ Room.getClient userId room'
      = Some (Client.withProducers (unselected (Some webcamVideo) target)
                                   target).
Proof.
  intros userId result closedNow Hsecret Hio Hres Hne Hget Hnd.
  subst result. unfold postUserVideoOff, handleUserMediaControl, Http.withRoom.
  rewrite Hsecret, Hio, Hres. simpl. fold userId.
  destruct (decide (userId = "")); [done|].
  destruct (closeClientProducers_selected room userId (Some webcamVideo)
              (mediaReason
                 (Some (mkOverrides (Some [video]) (Some [webcam])
                          (Some "Camera turned off by operator"))) req)
              target Hget Hnd)
    as (room' & effs & Heq & Hget').
  unfold webcamVideo in Heq. rewrite Heq. simpl.
  exists room'. split_and!; done.
Qed.

Lemma video_off_closes_webcam_only_witness :
  ∃ room',
    Http.room (postUserVideoOff operatorEnv (registry studio) cameraOff)
    = Some room'
    ∧ Room.getClient "frank@x.y#s1" room'
      = Some (Client.withProducers
                [mkProducerInfo "f-audio" audio webcam false;
                 mkProducerInfo "f-screen" video screen false] frank).
Proof.
  assert (Hnd : NoDup (map producerId (Client.producers frank))).
  { refine (bool_decide_unpack _ _). vm_compute. exact I. }
  assert (Hne : Js.toStringOrEmpty (Http.param "userId" cameraOff) ≠ "")
    by (vm_compute; discriminate).
  destruct (video_off_closes_webcam_only operatorEnv (registry studio)
              cameraOff studio "default:r1" frank eq_refl eq_refl eq_refl
              Hne eq_refl Hnd)
    as (room' & Hroom & _ & Hget).
  exists room'. split; [exact Hroom | exact Hget].
Defined.

Lemma removeFromFirstOwner_Some pid cs removed owner' cs' :
  removeFromFirstOwner pid cs = Some (removed, owner', cs') →
  ∃ owner,
    owner ∈ cs ∧ removed ∈ Client.producers owner
    ∧ producerId removed = pid
    ∧ Client.id owner' = Client.id owner
    ∧ Client.socket owner' = Client.socket owner
    ∧ (totalProducers cs' + 1 = totalProducers cs)%nat.
Proof.
  revert cs'. induction cs as [|c rest IH]; intros cs'; simpl; [done|].
  unfold Client.removeProducerById.
  destruct (Client.takeProducer pid (Client.producers c))
    as [[found ps]|] eqn:Htake.
  - intros [= <- <- <-]. exists c.
    destruct (ModerationFacts.takeProducer_Some _ _ _ _ Htake)
      as (Hid & l1 & l2 & Hps & _).
    pose proof (ModerationFacts.takeProducer_length _ _ _ _ Htake) as Hlen.
    split_and!; [left | | done | done | done |].
    + rewrite Hps, elem_of_app. right. left.
    + unfold totalProducers. simpl. lia.
  - destruct (removeFromFirstOwner pid rest) as [[[rm o] rest']|];
      [|done].
    intros [= <- <- <-].
    destruct (IH rest' eq_refl) as (owner & Hin & Hp & Hid & Ho & Hs & Ht).
    exists owner. split_and!; [by right | done..|].
    unfold totalProducers in *. simpl. lia.
Qed.

(** X18. [closeProducerById] reports [closed] exactly when some client
    of the room has a producer with that id.  What it then reports is a
    producer a client of the room really had: the user id is the owner's,
    kind and type are the producer's; the room has one producer less, and
    the last thing sent is the [admin:mediaEnforced] notice to the owner's
    socket. *)
Theorem closeProducerById_reports_owner (room : Room.t) (pid : string) :
  (closed (closeProducerById room pid).1.1 = true
   ↔ pid ∈ producerIds (Room.clients room))
  ∧ ∀ userId k t room' effs,
      closeProducerById room pid = (Closed userId k t, room', effs) →
      ∃ owner p,
        owner ∈ Room.clients room ∧ Client.id owner = userId
        ∧ p ∈ Client.producers owner
        ∧ producerId p = pid ∧ kind p = k ∧ type p = t
        ∧ (totalProducers (Room.clients room') + 1
           = totalProducers (Room.clients room))%nat
        ∧ last effs = Some (enforcedNotice room owner p).
Proof.
  unfold closeProducerById.
  destruct (removeFromFirstOwner pid (Room.clients room))
    as [[[removed owner'] clients']|] eqn:Hrm.
  - split.
    + split; [|done]. intros _.
      destruct (decide (pid ∈ producerIds (Room.clients room))) as [|Hn];
        [done|].
      apply ModerationFacts.removeFromFirstOwner_None in Hn. congruence.
    + intros userId k t room' effs [= <- <- <- <- <-].
      destruct (removeFromFirstOwner_Some _ _ _ _ _ Hrm)
        as (owner & Hin & Hp & Hid & Ho & Hs & Ht).
      exists owner, removed.
      assert (Hclients :
                Room.clients
                  (if isScreenShare removed
                   then Room.clearScreenShareProducer pid
                          (Room.withClients clients' room)
                   else Room.withClients clients' room) = clients').
      { destruct (isScreenShare removed);
          [rewrite ModerationFacts.clients_clearScreenShareProducer|];
          done. }
      assert (Hroomid :
                Room.id
                  (if isScreenShare removed
                   then Room.clearScreenShareProducer pid
                          (Room.withClients clients' room)
                   else Room.withClients clients' room) = Room.id room).
      { destruct (isScreenShare removed); [|done].
        unfold Room.clearScreenShareProducer. simpl.
        destruct (Room.screenShareProducerId room); [case_decide|]; done. }
      rewrite Hclients.
      split_and!; [done | done | done | done | done | done | done |].
      rewrite last_two, Hroomid.
      unfold enforcedNotice. by rewrite Ho, Hs, Hid.
  - split; [|done]. split; [done|]. intros Hin.
    apply ModerationFacts.removeFromFirstOwner_None in Hrm. done.
Qed.

Lemma removeStep_one includeGhosts includeAttendees reason room c
    effects kicked :
  removeStep includeGhosts includeAttendees reason room (effects, kicked) c
  = (effects
     ++ (if removable includeGhosts includeAttendees c
         then kickOut room reason c else []),
     kicked
     ++ (if removable includeGhosts includeAttendees c
         then [Client.id c] else [])).
Proof.
  unfold removeStep, removable.
  destruct (Client.isAdmin c), includeGhosts, (Client.isGhost c),
    includeAttendees, (Client.isWebinarAttendee c);
    simpl; rewrite ?app_nil_r; done.
Qed.

Lemma removeStep_fold includeGhosts includeAttendees reason room cs :
  ∀ effects kicked,
    fold_left (removeStep includeGhosts includeAttendees reason room) cs
              (effects, kicked)
    = (effects
       ++ concat (map (kickOut room reason)
                      (List.filter (removable includeGhosts includeAttendees)
                                   cs)),
       kicked
       ++ map Client.id
              (List.filter (removable includeGhosts includeAttendees) cs)).
Proof.
  induction cs as [|c rest IH]; intros effects kicked; cbn [fold_left].
  - simpl. by rewrite !app_nil_r.
  - rewrite removeStep_one, IH. cbn [List.filter].
    destruct (removable includeGhosts includeAttendees c);
      cbn [map concat]; rewrite <- ?app_assoc, ?app_nil_r; done.
Qed.

(** X19. The remove-non-admins route kicks exactly the clients that are
    not admins and that the two flags do not exempt, in the room's order:
    each is sent [kicked] and then disconnected, and the answer lists
    their ids.  Whatever the flags, no admin is kicked: every socket
    disconnected is the socket of a client that is not an admin. *)
Theorem remove_non_admins_spares_admins
    (env : Http.Env) (state : SfuState) (req : Http.Request) :
  let result := postRemoveNonAdmins env state req in
  let includeGhosts :=
    Js.truthy (Js.getField "includeGhosts" (Http.body req)) in
  let includeAttendees :=
    Js.truthy (Js.getField "includeAttendees" (Http.body req)) in
  let reason :=
    Http.stringOr (Js.getField "reason" (Http.body req))
                  "Meeting reset by operator" in
  Http.status (Http.response result) = 200 →
  ∃ room channelId,
    Http.resolveRoomForAdmin state req = inr (room, channelId)
    ∧ Http.room result = Some room
    ∧ Http.effects result
      = concat (map (kickOut room reason)
                    (List.filter (removable includeGhosts includeAttendees)
                                 (Room.clients room)))
    ∧ Js.getField "kickedUserIds" (Http.json (Http.response result))
      = jstrs (map Client.id
                   (List.filter (removable includeGhosts includeAttendees)
                                (Room.clients room)))
    ∧ ∀ s, SocketDisconnect s ∈ Http.effects result →
           ∃ c, c ∈ Room.clients room ∧ Client.socket c = s
                ∧ Client.isAdmin c = false.
Proof.
  intros result includeGhosts includeAttendees reason Hok. subst result.
  unfold postRemoveNonAdmins in *.
  destruct (AccessFacts.withRoom_ok _ _ _ _ _ Hok)
    as (room & ch & Hres & Heq).
  rewrite Heq. clear Heq Hok.
  fold includeGhosts includeAttendees reason.
  rewrite removeStep_fold. simpl.
  exists room, ch. split_and!; try done.
  intros s Hs. apply list_elem_of_In, in_concat in Hs as (l & Hl & Hs).
  apply in_map_iff in Hl as (c & <- & Hc).
  apply filter_In in Hc as [Hc Hrem].
  exists c. split_and!; [by apply list_elem_of_In | |].
  - destruct Hs as [Hs|[Hs|[]]]; [done | by injection Hs].
  - unfold removable in Hrem. by destruct (Client.isAdmin c).
Qed.

Lemma remove_non_admins_spares_admins_witness :
  Http.effects (postRemoveNonAdmins operatorEnv (registry studio) resetMeeting)
  = kickOut studio "Meeting reset by operator" frank
  ∧ SocketDisconnect "sock-carol"
    ∉ Http.effects (postRemoveNonAdmins operatorEnv (registry studio)
                                        resetMeeting).
Proof.
  destruct (remove_non_admins_spares_admins operatorEnv (registry studio)
              resetMeeting eq_refl)
    as (room & ch & Hres & _ & Heffs & _ & Hadmins).
  injection Hres as <- <-.
  split; [exact Heffs|].
  intros Hin. destruct (Hadmins _ Hin) as (c & Hc & Hs & Ha).
  revert Hc Hs Ha. clear. intros Hc Hs Ha.
  repeat (apply elem_of_cons in Hc as [->|Hc]; [done|]).
  inversion Hc.
Defined.

(** X20. The [kickUser] event disconnects at most one socket, that of
    the client of the caller's room whose id is the [userId] of the
    payload, and never the caller: the caller is an admin of the room,
    and the id kicked is not its own. *)
Theorem kickUser_never_self
    (context : AdminSocket.ConnectionContext) (targetId : Js.Json)
    (cb : bool) (s : SocketId) :
  SocketDisconnect s
  ∈ AdminSocket.effects (SocketModeration.kickUser context targetId cb) →
  ∃ room caller userId target,
    AdminSocket.currentRoom context = Some room
    ∧ AdminSocket.currentClient context = Some caller
    ∧ Client.isAdmin caller = true
    ∧ targetId = jstr userId
    ∧ userId ≠ Client.id caller
    ∧ Room.getClient userId room = Some target
    ∧ Client.id target = userId
    ∧ Client.socket target = s
    ∧ AdminSocket.effects (SocketModeration.kickUser context targetId cb)
      = kickOut room "Removed by host" target.
Proof.
  unfold SocketModeration.kickUser, SocketModeration.guard,
    AdminSocket.ensureAdminRoom.
  destruct (AdminSocket.currentRoom context) as [room|];
    [|intros H; inversion H].
  destruct (AdminSocket.currentClient context) as [caller|];
    [|intros H; inversion H].
  destruct (Client.isAdmin caller) eqn:Hadmin; [|intros H; inversion H].
  destruct targetId as [| | | |userId| |]; try (intros H; by inversion H).
  case_decide as Hempty; [intros H; inversion H|].
  case_decide as Hself; [intros H; inversion H|].
  unfold kickClient.
  destruct (Room.getClient userId room) as [target|] eqn:Hget;
    [|intros H; inversion H].
  simpl. intros Hin.
  destruct (getClient_id _ _ _ Hget) as [Hid _].
  exists room, caller, userId, target. split_and!; try done.
  apply elem_of_cons in Hin as [Hin|Hin]; [done|].
  apply list_elem_of_singleton in Hin. by injection Hin.
Qed.

Lemma kickUser_never_self_witness :
  AdminSocket.effects
    (SocketModeration.kickUser carolContext (jstr "frank@x.y#s1") true)
  = kickOut studio "Removed by host" frank
  ∧ AdminSocket.effects
      (SocketModeration.kickUser carolContext (jstr "carol@x.y#s1") true)
    = [].
Proof.
  assert (Hin : SocketDisconnect "sock-frank"
                ∈ AdminSocket.effects
                    (SocketModeration.kickUser carolContext
                       (jstr "frank@x.y#s1") true)).
  { vm_compute. right. left. }
  destruct (kickUser_never_self carolContext (jstr "frank@x.y#s1") true
              "sock-frank" Hin)
    as (room & caller & userId & target & Hroom & _ & _ & Hid & _ & Hget
        & _ & _ & Heffs).
  injection Hroom as <-. injection Hid as <-.
  injection Hget as <-.
  split; [exact Heffs | reflexivity].
Defined.

End MediaFacts.

(* ===================================================================== *)
(** ** Policy updates as a whole *)
(* ===================================================================== *)

Module PolicyFacts.
Import ControlPlane PolicyTerms.

Lemma differs_Some field current b :
  differs field current = Some b → field = Some b ∧ b ≠ current.
Proof.
  unfold differs. destruct field as [v|]; [|done].
  case_bool_decide; [|done]. by intros [= <-].
Qed.

Lemma differs_None field current :
  differs field current = None → default current field = current.
Proof.
  unfold differs. destruct field as [v|]; [|done].
  case_bool_decide as Hv; [done|]. intros _. simpl.
  destruct v, current; done.
Qed.

Lemma differs_default field current :
  differs field (default current field) = None.
Proof.
  unfold differs. destruct field as [v|]; [|done]. simpl.
  by rewrite bool_decide_eq_false_2 by (by intros ?).
Qed.

Ltac split_differs :=
  repeat (cbn [Room.isLocked Room.isChatLocked Room.noGuests
               Room.isTtsDisabled Room.isDmEnabled Room.setLocked
               Room.setChatLocked Room.setNoGuests Room.setTtsDisabled
               Room.setDmEnabled Room.withLockedAllowedUsers];
          match goal with
          | |- context [differs ?f ?cur] =>
              let H := fresh "Hd" in destruct (differs f cur) eqn:H
          end).

Ltac use_differs :=
  repeat match goal with
         | H : differs _ _ = Some _ |- _ =>
             apply differs_Some in H as [? ?]
         | H : differs _ _ = None |- _ => apply differs_None in H
         end.

Ltac settle_flags :=
  repeat match goal with |- _ ∧ _ => split end;
  try done;
  repeat match goal with H : _ = Some _ |- _ => rewrite H end;
  done.

(** What [applyRoomPolicyUpdate] does, field by field. *)
Lemma policy_effect room update :
  let result := applyRoomPolicyUpdate room update in
  let room' := result.1.2 in
  (Room.isLocked room' = default (Room.isLocked room) (locked update)
   ∧ Room.isChatLocked room'
     = default (Room.isChatLocked room) (chatLocked update)
   ∧ Room.noGuests room' = default (Room.noGuests room) (noGuests update)
   ∧ Room.isTtsDisabled room'
     = default (Room.isTtsDisabled room) (ttsDisabled update)
   ∧ Room.isDmEnabled room'
     = default (Room.isDmEnabled room) (dmEnabled update))
  ∧ result.1.1
    = mkUpdate (differs (locked update) (Room.isLocked room))
               (differs (chatLocked update) (Room.isChatLocked room))
               (differs (noGuests update) (Room.noGuests room))
               (differs (ttsDisabled update) (Room.isTtsDisabled room))
               (differs (dmEnabled update) (Room.isDmEnabled room))
  ∧ length result.2 = changes result.1.1
  ∧ Room.lockedAllowedUsers room'
    = (match differs (locked update) (Room.isLocked room) with
       | Some true => presentKeys room ∪ Room.lockedAllowedUsers room
       | _ => Room.lockedAllowedUsers room
       end)
  ∧ Room.clients room' = Room.clients room
  ∧ Room.userKeysById room' = Room.userKeysById room.
Proof.
  unfold applyRoomPolicyUpdate, changes, presentKeys.
  destruct (differs (locked update) (Room.isLocked room)) as [b1|] eqn:H1.
  - rewrite AccessClaims.allowLocked_fold.
    apply differs_Some in H1 as [H1 H1'].
    destruct b1; split_differs; use_differs; simpl; settle_flags.
  - apply differs_None in H1.
    split_differs; use_differs; simpl; settle_flags.
Qed.

(** X21. After [applyRoomPolicyUpdate], each of the five flags the
    update provides holds the requested value and each flag it leaves out
    is as before; [changed] carries exactly the flags whose value differs
    from the one the room had; and one event is broadcast per changed
    flag. *)
Theorem applyRoomPolicyUpdate_sets_flags
    (room : Room.t) (update : RoomPolicyUpdate) :
  let result := applyRoomPolicyUpdate room update in
  let room' := result.1.2 in
  Room.isLocked room' = default (Room.isLocked room) (locked update)
  ∧ Room.isChatLocked room'
    = default (Room.isChatLocked room) (chatLocked update)
  ∧ Room.noGuests room' = default (Room.noGuests room) (noGuests update)
  ∧ Room.isTtsDisabled room'
    = default (Room.isTtsDisabled room) (ttsDisabled update)
  ∧ Room.isDmEnabled room'
    = default (Room.isDmEnabled room) (dmEnabled update)
  ∧ result.1.1
    = mkUpdate (differs (locked update) (Room.isLocked room))
               (differs (chatLocked update) (Room.isChatLocked room))
               (differs (noGuests update) (Room.noGuests room))
               (differs (ttsDisabled update) (Room.isTtsDisabled room))
               (differs (dmEnabled update) (Room.isDmEnabled room))
  ∧ length result.2 = changes result.1.1.
Proof.
  intros result room'.
  destruct (policy_effect room update)
    as ((H1 & H2 & H3 & H4 & H5) & Hc & Hn & _).
  split_and!; done.
Qed.

Lemma unchanged_update room update :
  differs (locked update) (Room.isLocked room) = None →
  differs (chatLocked update) (Room.isChatLocked room) = None →
  differs (noGuests update) (Room.noGuests room) = None →
  differs (ttsDisabled update) (Room.isTtsDisabled room) = None →
  differs (dmEnabled update) (Room.isDmEnabled room) = None →
  applyRoomPolicyUpdate room update = (noUpdate, room, []).
Proof.
  intros H1 H2 H3 H4 H5. unfold applyRoomPolicyUpdate.
  rewrite H1. cbv beta iota. rewrite H2. cbv beta iota.
  rewrite H3. cbv beta iota. rewrite H4. cbv beta iota.
  rewrite H5. done.
Qed.

(** X22. [applyRoomPolicyUpdate] is idempotent: applied again to the
    room it has left, the same update changes nothing, reports no changed
    flag and broadcasts nothing. *)
Theorem applyRoomPolicyUpdate_idempotent
    (room : Room.t) (update : RoomPolicyUpdate) :
  let room' := (applyRoomPolicyUpdate room update).1.2 in
  applyRoomPolicyUpdate room' update = (noUpdate, room', []).
Proof.
  intros room'.
  destruct (policy_effect room update)
    as ((H1 & H2 & H3 & H4 & H5) & _).
  fold room' in H1, H2, H3, H4, H5.
  apply unchanged_update;
    [rewrite H1 | rewrite H2 | rewrite H3 | rewrite H4 | rewrite H5];
    apply differs_default.
Qed.

(** X23. Locking an unlocked room puts the user key of every
    participant into [lockedAllowedUsers], beside the keys already there;
    unlocking a locked room takes no key out of it. *)
Theorem lock_allows_present (room : Room.t) (update : RoomPolicyUpdate) :
  let room' := (applyRoomPolicyUpdate room update).1.2 in
  (Room.isLocked room = false → locked update = Some true →
   Room.isLocked room' = true
   ∧ Room.lockedAllowedUsers room'
     = presentKeys room ∪ Room.lockedAllowedUsers room
   ∧ ∀ userId userKey,
       (userId, userKey) ∈ Room.userKeysById room →
       userKey ∈ Room.lockedAllowedUsers room')
  ∧ (Room.isLocked room = true → locked update = Some false →
     Room.isLocked room' = false
     ∧ Room.lockedAllowedUsers room' = Room.lockedAllowedUsers room).
Proof.
  intros room'.
  destruct (policy_effect room update)
    as ((H1 & _) & _ & _ & Hla & _).
  fold room' in H1, Hla. split.
  - intros Hopen Hlock. rewrite Hlock, Hopen in *. simpl in *.
    split_and!; [done | done |].
    intros userId userKey Hin. rewrite Hla. apply elem_of_union_l.
    unfold presentKeys. apply elem_of_list_to_set.
    apply list_elem_of_In, in_map_iff. exists (userId, userKey).
    split; [done | by apply list_elem_of_In].
  - intros Hlocked Hunlock. rewrite Hunlock, Hlocked in *. simpl in *.
    done.
Qed.

Lemma lock_allows_present_witness :
  let room' := (applyRoomPolicyUpdate classroom lockDown).1.2 in
  Room.isLocked room' = true
  ∧ "ben@x.y" ∈ Room.lockedAllowedUsers room'.
Proof.
  intros room'.
  destruct (proj1 (lock_allows_present classroom lockDown) eq_refl eq_refl)
    as (Hlocked & _ & Hin).
  split; [exact Hlocked|].
  apply (Hin "ben@x.y#s1"). right. left.
Defined.

End PolicyFacts.

(* ===================================================================== *)
(** ** Draining without force, ending a room, and sorted access lists *)
(* ===================================================================== *)

Module EndFacts.
Import Http HttpModeration EndTerms AccessTerms.

Lemma getField_nullish name value :
  Js.getField name (Js.nullish value (Js.JObj [])) = Js.getField name value.
Proof. by destruct value. Qed.

(** X24. [POST /drain] never touches the rooms of the registry, and it
    sends something only for a forced drain: a valid secret, [draining:
    true], [force: true] and a socket server that is up.  With a valid
    secret and a boolean [draining], the draining flag is set to that
    boolean, also when the answer is 503; with an answer of 400 or 401 the
    state is as it was. *)
Theorem drain_sends_only_when_forced
    (env : Env) (state : SfuState) (req : Request) :
  let result := postDrain env state req in
  rooms result.1.1 = rooms state
  ∧ (result.1.2 ≠ [] →
     hasValidSecret req (sfuSecret env) = true
     ∧ Js.getField "draining" (body req) = Js.JBool true
     ∧ Js.getField "force" (body req) = Js.JBool true
     ∧ ioReady env = true)
  ∧ (∀ draining,
       hasValidSecret req (sfuSecret env) = true →
       Js.getField "draining" (body req) = Js.JBool draining →
       isDraining result.1.1 = draining)
  ∧ (status result.2 = 400 ∨ status result.2 = 401 → result.1.1 = state).
Proof.
  unfold postDrain, handleDrain.
  destruct (hasValidSecret req (sfuSecret env)); simpl;
    [|split_and!; [done | done | done | done]].
  rewrite !getField_nullish.
  destruct (Js.getField "draining" (body req)) as [| |draining| | | |];
    try (split_and!; [done | done | done | done]).
  simpl.
  destruct draining; simpl.
  2: { split_and!; [done | done | by intros ? _ [= <-] | by intros [?|?]]. }
  destruct (Js.getField "force" (body req)) as [| |[|]| | | |]; simpl;
    try (split_and!; [done | done | by intros ? _ [= <-] | by intros [?|?]]).
  destruct (ioReady env); simpl.
  - destruct (fold_left _ _ _) as [notices pendingSockets]. simpl.
    split_and!; [done | done | by intros ? _ [= <-] | by intros [?|?]].
  - split_and!; [done | done | by intros ? _ [= <-] | by intros [?|?]].
Qed.

Lemma drain_sends_only_when_forced_witness :
  let result := postDrain operatorEnv DrainTerms.drainState softDrain in
  result.1.2 = [] ∧ isDraining result.1.1 = true.
Proof.
  intros result.
  destruct (drain_sends_only_when_forced operatorEnv DrainTerms.drainState
              softDrain) as (_ & _ & Hflag & _).
  split; [reflexivity|]. by apply Hflag.
Defined.

Lemma parseEndRoomDelay_range value :
  0 ≤ parseEndRoomDelay value ≤ MAX_END_ROOM_DELAY_MS.
Proof.
  unfold parseEndRoomDelay, MAX_END_ROOM_DELAY_MS.
  destruct value as [| | |[q| | |]| | |]; try lia.
  destruct (QArith_base.Qle_bool q (QArith_base.inject_Z 0)) eqn:Hq; [lia|].
  assert (0 ≤ Qround.Qfloor q); [|lia].
  change 0 with (Qround.Qfloor (QArith_base.inject_Z 0)).
  apply Qround.Qfloor_resp_le.
  destruct (QArith_base.Qlt_le_dec q (QArith_base.inject_Z 0)) as [Hlt|Hle];
    [|done].
  apply QArith_base.Qlt_le_weak, QArith_base.Qle_bool_iff in Hlt. congruence.
Qed.

(** X25. When the end route answers 200 it has sent [roomEnded] to the
    channel of the room and then to the socket of every pending entry,
    before anything is disconnected.  The closing steps (the channel is
    disconnected, then each pending socket, then the room is closed) run
    at once when the delay parsed from the body is 0, and are otherwise
    handed to a timer of that delay, which is a whole number of
    milliseconds above 0 and at most 30000. *)
Theorem room_end_notifies_then_closes
    (env : Env) (state : SfuState) (req : Request) :
  let result := postRoomEnd env state req in
  let message := parseEndRoomMessage (Js.getField "message" (body req)) in
  let delayMs := parseEndRoomDelay (Js.getField "delayMs" (body req)) in
  status (endResponse result) = 200 →
  ∃ room channelId,
    resolveRoomForAdmin state req = inr (room, channelId)
    ∧ ((delayMs = 0
        ∧ endNow result = endNotices room message ++ endClosing room
        ∧ endLater result = None)
       ∨ (0 < delayMs ≤ 30000
          ∧ endNow result = endNotices room message
          ∧ endLater result = Some (delayMs, endClosing room))).
Proof.
  intros result message delayMs Hok. subst result message delayMs.
  unfold postRoomEnd in *.
  destruct (negb (hasValidSecret req (sfuSecret env))); [done|].
  destruct (negb (ioReady env)); [done|].
  destruct (resolveRoomForAdmin state req) as [res|[room ch]] eqn:Hres.
  { by apply AccessFacts.resolveRoomForAdmin_error in Hres. }
  exists room, ch. split; [done|].
  pose proof (parseEndRoomDelay_range (Js.getField "delayMs" (body req)))
    as Hrange.
  unfold MAX_END_ROOM_DELAY_MS in Hrange.
  destruct (0 <? parseEndRoomDelay _) eqn:Hpos; simpl.
  - right. apply Z.ltb_lt in Hpos.
    split_and!; [exact Hpos | lia | | ].
    + unfold endNotices, endedPayload. by rewrite map_map.
    + unfold endClosing, forceCloseRoomWithSockets. by rewrite map_map.
  - left. apply Z.ltb_ge in Hpos. split; [lia|].
    unfold endNotices, endClosing, endedPayload,
      forceCloseRoomWithSockets. by rewrite !map_map.
Qed.

Lemma room_end_notifies_then_closes_witness :
  let result :=
    postRoomEnd operatorEnv (registry AdmissionTerms.lobby) endSoon in
  endNow result
  = endNotices AdmissionTerms.lobby DEFAULT_END_ROOM_MESSAGE
  ∧ endLater result = Some (2500, endClosing AdmissionTerms.lobby).
Proof.
  intros result.
  destruct (room_end_notifies_then_closes operatorEnv
              (registry AdmissionTerms.lobby) endSoon eq_refl)
    as (room & ch & Hres & Hsteps).
  injection Hres as <- <-.
  destruct Hsteps as [(Hzero & _) | (_ & Hnow & Hlater)].
  - vm_compute in Hzero. discriminate.
  - split; [exact Hnow | exact Hlater].
Defined.

End EndFacts.

(* ===================================================================== *)
(** ** The order of the access lists in a snapshot *)
(* ===================================================================== *)

Module OrderFacts.
Import Http.

Lemma ascii_compare_trans (a b c : ascii) :
  Ascii.compare a b = Lt → Ascii.compare b c = Lt → Ascii.compare a c = Lt.
Proof.
  unfold Ascii.compare. rewrite !N.compare_lt_iff. lia.
Qed.

Lemma ascii_compare_eq (a b : ascii) : Ascii.compare a b = Eq → a = b.
Proof.
  unfold Ascii.compare. rewrite N.compare_eq_iff.
  intros H. by rewrite <- (ascii_N_embedding a), H, ascii_N_embedding.
Qed.

Lemma compare_lt_trans (s1 : string) : ∀ s2 s3,
  String.compare s1 s2 = Lt → String.compare s2 s3 = Lt →
  String.compare s1 s3 = Lt.
Proof.
  induction s1 as [|a s1 IH]; intros [|b s2] [|c s3]; simpl; try done.
  destruct (Ascii.compare a b) eqn:Hab; [| |done].
  - apply ascii_compare_eq in Hab as ->.
    destruct (Ascii.compare b c); [apply IH | done | done].
  - intros _. destruct (Ascii.compare b c) eqn:Hbc; [| |done].
    + apply ascii_compare_eq in Hbc as <-. by rewrite Hab.
    + by rewrite (ascii_compare_trans a b c).
Qed.

Lemma compare_refl (s : string) : String.compare s s = Eq.
Proof.
  induction s as [|a s IH]; simpl; [done|].
  unfold Ascii.compare. by rewrite N.compare_refl.
Qed.

Lemma leb_cases (s1 s2 : string) :
  String.leb s1 s2 = true ↔ s1 = s2 ∨ String.compare s1 s2 = Lt.
Proof.
  unfold String.leb.
  destruct (String.compare s1 s2) eqn:Hc.
  - apply String.compare_eq_iff in Hc. tauto.
  - tauto.
  - split; [done|]. intros [->|?]; [|done].
    rewrite compare_refl in Hc. discriminate.
Qed.

Lemma leb_trans (s1 s2 s3 : string) :
  String.leb s1 s2 = true → String.leb s2 s3 = true →
  String.leb s1 s3 = true.
Proof.
  rewrite !leb_cases. intros [->|H12] [->|H23]; try tauto.
  right. by apply (compare_lt_trans s1 s2 s3).
Qed.

(** X26. The access lists of a snapshot are in ascending order: every
    key is at most every key after it; no key stands twice in a list, and
    the list holds exactly the keys of the set. *)
Theorem sortedKeys_ascending (s : gset string) :
  StronglySorted (fun a b => String.leb a b = true) (sortedKeys s)
  ∧ NoDup (sortedKeys s)
  ∧ ∀ k, k ∈ sortedKeys s ↔ k ∈ s.
Proof.
  unfold sortedKeys.
  assert (Hperm : merge_sort (fun a b => Is_true (String.leb a b))
                             (elements s) ≡ₚ elements s)
    by apply merge_sort_Permutation.
  split_and!.
  - assert (Hsorted : StronglySorted (fun a b => Is_true (String.leb a b))
                        (merge_sort (fun a b => Is_true (String.leb a b))
                                    (elements s))).
    { apply StronglySorted_merge_sort.
      - intros a b c Hab Hbc. apply Is_true_true.
        apply Is_true_true in Hab, Hbc. by apply (leb_trans a b c).
      - intros a b. destruct (String.leb_total a b) as [H|H];
          [left | right]; by apply Is_true_true. }
    clear Hperm. induction Hsorted as [|a l _ IH Hall]; [constructor|].
    constructor; [done|].
    eapply Forall_impl; [exact Hall|]. intros b Hb. by apply Is_true_true.
  - rewrite Hperm. apply NoDup_elements.
  - intros k. rewrite Hperm. apply elem_of_elements.
Qed.

End OrderFacts.

(* ===================================================================== *)
(** ** Minutes: every request is accounted for, and the cache *)
(* ===================================================================== *)

Module MinutesLedgerFacts.
Import Minutes MinutesTerms MinutesLedgerTerms.

Lemma split_waiters (p : Waiter → bool) (ws : list Waiter) :
  map request (List.filter p ws)
  ++ map request (List.filter (fun w => negb (p w)) ws)
  ≡ₚ map request ws.
Proof.
  induction ws as [|w ws IH]; simpl; [done|].
  destruct (p w); simpl.
  - by rewrite IH.
  - rewrite <- Permutation_middle. by rewrite IH.
Qed.

Lemma answer_request ch active cache outcome (ws : list Waiter) :
  map fst (map (answer ch active cache outcome) ws) = map request ws.
Proof. rewrite map_map. by apply map_ext. Qed.

Lemma ledger_arrive sfuSecret req r isRoomActive st :
  answered (arrive sfuSecret req r isRoomActive st)
  ++ suspended (arrive sfuSecret req r isRoomActive st)
  ≡ₚ (answered st ++ suspended st) ++ [req].
Proof.
  assert (Hrespond : ∀ res,
            answered (respond req res st) ++ suspended (respond req res st)
            ≡ₚ (answered st ++ suspended st) ++ [req]).
  { intros res. unfold answered, suspended, respond. simpl.
    rewrite map_app. simpl. rewrite <- !app_assoc.
    apply Permutation_app_head, Permutation_app_comm. }
  assert (Hwait : ∀ w, request w = req →
            answered st ++ map request (waiters st ++ [w])
            ≡ₚ (answered st ++ suspended st) ++ [req]).
  { intros w <-. unfold suspended. by rewrite map_app, app_assoc. }
  unfold arrive.
  destruct (negb _); [apply Hrespond|].
  destruct (requestChannel r) as [[rid ch]|]; [|apply Hrespond].
  destruct (if isRoomActive then None else cachedMinutes st !! ch);
    [apply Hrespond|].
  destruct (minutesGenerationInFlight st !! ch); by apply Hwait.
Qed.

Lemma ledger_settle generation outcome st :
  answered (settle generation outcome st)
  ++ suspended (settle generation outcome st)
  ≡ₚ answered st ++ suspended st.
Proof.
  unfold settle.
  destruct (pending st !! generation) as [[ch active]|]; [|done].
  unfold answered, suspended. simpl.
  rewrite map_app, answer_request, <- app_assoc.
  apply Permutation_app_head.
  apply (split_waiters (fun w => bool_decide (promise w = generation))).
Qed.

Lemma ledger_fold sfuSecret history : ∀ st,
  answered (fold_left (step sfuSecret) history st)
  ++ suspended (fold_left (step sfuSecret) history st)
  ≡ₚ (answered st ++ suspended st) ++ arrivals history.
Proof.
  induction history as [|e rest IH]; intros st; simpl.
  - by rewrite app_nil_r.
  - rewrite IH. destruct e as [req r active|g outcome]; simpl.
    + rewrite ledger_arrive. by rewrite <- app_assoc.
    + by rewrite ledger_settle.
Qed.

Lemma waiting_arrive sfuSecret req r isRoomActive st :
  Inv st → waiting st → waiting (arrive sfuSecret req r isRoomActive st).
Proof.
  intros HI Hw. unfold arrive.
  destruct (negb _); [done|].
  destruct (requestChannel r) as [[rid ch]|]; [|done].
  destruct (if isRoomActive then None else cachedMinutes st !! ch); [done|].
  destruct (minutesGenerationInFlight st !! ch) as [g|] eqn:Hfly.
  - intros w [Hin|Hin]%elem_of_app; simpl; [by apply Hw|].
    apply list_elem_of_singleton in Hin as ->. simpl.
    destruct (inv_registered st HI _ _ Hfly) as [a Ha]. by rewrite Ha.
  - intros w [Hin|Hin]%elem_of_app; simpl.
    + destruct (decide (promise w = nextPromise st)) as [->|Hne].
      * by rewrite lookup_insert_eq.
      * rewrite lookup_insert_ne by done. by apply Hw.
    + apply list_elem_of_singleton in Hin as ->. simpl.
      by rewrite lookup_insert_eq.
Qed.

Lemma waiting_settle generation outcome st :
  waiting st → waiting (settle generation outcome st).
Proof.
  intros Hw. unfold settle.
  destruct (pending st !! generation) as [[ch active]|]; [|done].
  intros w Hin. simpl in *.
  apply list_elem_of_In, filter_In in Hin as [Hin Hp].
  apply negb_true_iff, bool_decide_eq_false in Hp.
  rewrite lookup_delete_ne by done. by apply Hw, list_elem_of_In.
Qed.

Lemma waiting_run sfuSecret history : waiting (run sfuSecret history).
Proof.
  unfold run.
  assert (Hgen : ∀ st, Inv st → waiting st →
            waiting (fold_left (step sfuSecret) history st)).
  { induction history as [|e rest IH]; intros st HI Hw; simpl; [done|].
    destruct e as [req r active|g outcome]; simpl; apply IH.
    - by apply MinutesFacts.Inv_arrive.
    - by apply waiting_arrive.
    - by apply MinutesFacts.Inv_settle.
    - by apply waiting_settle. }
  apply Hgen; [apply MinutesFacts.Inv_init|].
  intros w Hin. inversion Hin.
Qed.

(** X27. After any history of the route, the requests answered and the
    requests suspended are together exactly the requests that arrived,
    each as often as it arrived: none is dropped and none is answered
    twice.  Every suspended request waits on a promise that has not
    settled and that is the one registered for its channel; when that
    promise settles, fulfilled or rejected, the request is answered and is
    suspended no longer. *)
Theorem requests_accounted_for (sfuSecret : string) (history : list Event) :
  let st := run sfuSecret history in
  answered st ++ suspended st ≡ₚ arrivals history
  ∧ (∀ w, w ∈ waiters st →
       ∃ ch active,
         pending st !! promise w = Some (ch, active)
         ∧ minutesGenerationInFlight st !! ch = Some (promise w))
  ∧ (∀ w outcome, w ∈ waiters st →
       (∃ res, (request w, res) ∈ responses (settle (promise w) outcome st))
       ∧ w ∉ waiters (settle (promise w) outcome st)).
Proof.
  intros st.
  pose proof (MinutesFacts.Inv_run sfuSecret history) as HI.
  pose proof (waiting_run sfuSecret history) as Hwait.
  change (Inv st) in HI. change (waiting st) in Hwait.
  split_and!.
  - subst st. unfold run. by rewrite ledger_fold.
  - intros w Hin. destruct (Hwait w Hin) as [[ch active] Hpend].
    exists ch, active. split; [done|]. by eapply inv_pending.
  - intros w outcome Hin. destruct (Hwait w Hin) as [[ch active] Hpend].
    unfold settle. rewrite Hpend. simpl. split.
    + eexists. apply elem_of_app. right.
      apply (MinutesFacts.elem_of_filter_map
               (answer ch active _ outcome) _ _ w Hin).
      by apply bool_decide_eq_true.
    + intros Hstill. apply list_elem_of_In, filter_In in Hstill as [_ Hp].
      apply negb_true_iff, bool_decide_eq_false in Hp. done.
Qed.

Lemma cache_arrive sfuSecret req r isRoomActive st :
  cachedMinutes (arrive sfuSecret req r isRoomActive st) = cachedMinutes st.
Proof.
  unfold arrive.
  destruct (negb _); [done|].
  destruct (requestChannel r) as [[rid ch]|]; [|done].
  destruct (if isRoomActive then None else cachedMinutes st !! ch); [done|].
  by destruct (minutesGenerationInFlight st !! ch).
Qed.

Lemma cache_settle generation outcome st ch :
  cachedMinutes (settle generation outcome st) !! ch
  = match pending st !! generation, outcome with
    | Some (ch', false), Some pdf =>
        if decide (ch' = ch) then Some pdf else cachedMinutes st !! ch
    | _, _ => cachedMinutes st !! ch
    end.
Proof.
  unfold settle.
  destruct (pending st !! generation) as [[ch' [|]]|]; simpl; try done;
    destruct outcome as [pdf|]; simpl; try done.
  case_decide as Hch.
  - subst ch'. by rewrite lookup_insert_eq.
  - by rewrite lookup_insert_ne.
Qed.

(** X28. The route writes the minutes cache of a channel only when a
    generation whose room was not active is fulfilled, and then with the
    bytes of that generation: an arriving request, a rejected generation
    and a generation for an active room leave the cache as it is.  In the
    state such a generation leaves, an authorized request for the channel
    whose room is not active is answered from the cache at once, with
    those bytes: nothing is started, joined or suspended. *)
Theorem minutes_cached_on_success (sfuSecret : string) (st : State) :
  (∀ e ch pdf,
     cachedMinutes (step sfuSecret st e) !! ch = Some pdf →
     cachedMinutes st !! ch = Some pdf
     ∨ ∃ generation,
         e = Settle generation (Some pdf)
         ∧ pending st !! generation = Some (ch, false))
  ∧ (∀ generation ch pdf,
       pending st !! generation = Some (ch, false) →
       let st' := settle generation (Some pdf) st in
       cachedMinutes st' !! ch = Some pdf
       ∧ ∀ req r rid,
           authorized sfuSecret r = true →
           requestChannel r = Some (rid, ch) →
           arrive sfuSecret req r false st'
           = respond req (pdfFor rid pdf) st').
Proof.
  split.
  - intros e ch pdf. destruct e as [req r active|g outcome]; simpl.
    + rewrite cache_arrive. by left.
    + rewrite cache_settle.
      destruct (pending st !! g) as [[ch' [|]]|] eqn:Hpend;
        try (by left).
      destruct outcome as [pdf'|]; [|by left].
      case_decide as Hch; [|by left].
      intros [= ->]. subst ch'. right. by exists g.
  - intros g ch pdf Hpend st'.
    assert (Hpdf : cachedMinutes st' !! ch = Some pdf).
    { subst st'. rewrite cache_settle, Hpend. by rewrite decide_True. }
    split; [done|].
    intros req r rid Hauth Hch. unfold arrive.
    unfold authorized in Hauth. rewrite Hauth, Hch. simpl.
    by rewrite Hpdf.
Qed.

Lemma minutes_cached_on_success_witness :
  let st := run "s3cret" servedTwice in
  cachedMinutes st !! "default:r1" = Some "%PDF-1.3"
  ∧ generatorCalls st = [("default:r1", 0%nat)]
  ∧ responses st = [(1%nat, pdfFor "r1" "%PDF-1.3");
                    (2%nat, pdfFor "r1" "%PDF-1.3")].
Proof.
  intros st.
  assert (Hpend : pending (run "s3cret" (firstn 1 servedTwice)) !! 0%nat
                  = Some ("default:r1", false))
    by (vm_compute; reflexivity).
  destruct (proj2 (minutes_cached_on_success
                     "s3cret" (run "s3cret" (firstn 1 servedTwice)))
              0%nat "default:r1" "%PDF-1.3" Hpend) as [_ Hserve].
  split_and!; [vm_compute; reflexivity | vm_compute; reflexivity |].
  assert (Hst : st = arrive "s3cret" 2 (minutesFor "r1") false
                       (settle 0 (Some "%PDF-1.3")
                               (run "s3cret" (firstn 1 servedTwice))))
    by reflexivity.
  rewrite Hst.
  etransitivity;
    [exact (f_equal responses
              (Hserve 2%nat (minutesFor "r1") "r1" eq_refl eq_refl))|].
  vm_compute. reflexivity.
Defined.

End MinutesLedgerFacts.

(* ===================================================================== *)
(** ** Who is refused *)
(* ===================================================================== *)

Module GuardFacts.
Import ControlPlane AccessTerms MediaTerms GuardTerms.






End GuardFacts.
